(** * neural-nexus-pkg: the client core ([src/core/NeuralNexus.ts])

  A shallow embedding of the [NeuralNexus] client class: the response
  interceptor that normalizes transport failures, the token setters, the
  request wrappers, the upload progress handler, the stream data handler
  and [close], together with the parts of the JavaScript runtime, of
  Node's [EventEmitter] and of axios that these methods rely on. *)

From Stdlib Require Import ZArith QArith Qround Qpower Lqa String Ascii List Bool Lia.
From Stdlib Require Import DecimalString Sorted SpecFloat.
From stdpp Require Import base option list gmap strings.
Import ListNotations.

Set Warnings "-register-all".
Set Default Proof Using "Type".

Local Open Scope string_scope.
Local Open Scope Z_scope.

(* ===================================================================== *)
(** ** JavaScript numbers *)
(* ===================================================================== *)

Module Double.

(** The Number type: the finite doubles, given by their exact value, the
    two infinities and NaN. The two zeros are not told apart. *)
Inductive Number : Type :=
  | Fin (q : Q)
  | Inf (negative : bool)
  | NaN.

Definition pow2 (k : Z) : Q := (2 ^ k)%Q.

(** The exponent [e] with [2^e <= q < 2^(e+1)], for a positive [q] *)
Definition ilog2 (q : Q) : Z :=
  let k := Z.log2 (Qnum q) - Z.log2 (Zpos (Qden q)) in
  if Qle_bool (pow2 k) q then k else k - 1.

(** The nearest integer, a tie going to the even one *)
Definition rne (y : Q) : Z :=
  let f := Qfloor y in
  match (y - inject_Z f ?= 1 # 2)%Q with
  | Lt => f
  | Gt => f + 1
  | Eq => if Z.even f then f else f + 1
  end.

(** The binary64 value nearest to a positive [q]: 53 significant bits,
    the least exponent of the format being -1074. *)
Definition nearest (q : Q) : Q :=
  let ex := Z.max (ilog2 q - 52) (-1074) in
  (inject_Z (rne (q * pow2 (- ex))) * pow2 ex)%Q.

(** IEEE 754 rounding to nearest, ties to even: every arithmetic operation
    of the language returns the exact result rounded this way. What rounds
    to [2^1024] or beyond is infinite. *)
Definition round64 (q : Q) : Number :=
  match (q ?= 0)%Q with
  | Eq => Fin 0
  | Gt => let v := nearest q in
          if Qle_bool (pow2 1024) v then Inf false else Fin v
  | Lt => let v := nearest (- q) in
          if Qle_bool (pow2 1024) v then Inf true else Fin (- v)
  end.

(** The Number value for an integer *)
Definition of_Z (z : Z) : Number := round64 (inject_Z z).

(** [a * b] *)
Definition mul (a b : Number) : Number :=
  match a, b with
  | Fin x, Fin y => round64 (x * y)
  | Fin x, Inf s | Inf s, Fin x =>
      match (x ?= 0)%Q with
      | Eq => NaN
      | Gt => Inf s
      | Lt => Inf (negb s)
      end
  | Inf s, Inf s' => Inf (xorb s s')
  | NaN, _ | _, NaN => NaN
  end.

(** [a / b] *)
Definition div (a b : Number) : Number :=
  match a, b with
  | Fin x, Fin y =>
      match (y ?= 0)%Q with
      | Eq =>
          match (x ?= 0)%Q with
          | Eq => NaN
          | Gt => Inf false
          | Lt => Inf true
          end
      | _ => round64 (x / y)
      end
  | Fin _, Inf _ => Fin 0
  | Inf s, Fin y =>
      match (y ?= 0)%Q with
      | Lt => Inf (negb s)
      | _ => Inf s
      end
  | Inf _, Inf _ => NaN
  | NaN, _ | _, NaN => NaN
  end.

(** [a <= b]; false whenever NaN is involved *)
Definition le (a b : Number) : Prop :=
  match a, b with
  | Fin x, Fin y => (x <= y)%Q
  | Inf true, Fin _ | Inf true, Inf _ => True
  | Fin _, Inf false | Inf false, Inf false => True
  | _, _ => False
  end.

(** The decimal digits of a non-negative integer *)
Definition decimal (z : Z) : string := NilZero.string_of_int (Z.to_int z).

(** Whether the Number value for the integer [v] is the double [x] *)
Definition denotes (v x : Z) : bool :=
  match of_Z v with
  | Fin q => Qeq_bool q (inject_Z x)
  | _ => false
  end.

(** Number::toString, the choice of the digits: of the decimals
    [s * 10^m] with the fewest digits [s] whose Number value is the double
    [x], the one closest to [x]. The search goes from one digit upwards;
    [m] is the power of ten under trial. *)
Fixpoint shortest (fuel : nat) (x m : Z) : Z :=
  match fuel with
  | O => x
  | S fuel' =>
      if m <=? 0 then x
      else
        let p := 10 ^ m in
        let lo := x / p * p in
        let hi := lo + p in
        match denotes lo x, denotes hi x with
        | true, true => if x - lo <=? hi - x then lo else hi
        | true, false => lo
        | false, true => hi
        | false, false => shortest fuel' x (m - 1)
        end
  end.

(** A digit string without its trailing zeros *)
Fixpoint strip (s : string) : string :=
  match s with
  | EmptyString => EmptyString
  | String c rest =>
      match strip rest with
      | EmptyString =>
          if Ascii.eqb c "0" then EmptyString else String c EmptyString
      | t => String c t
      end
  end.

(** Number::toString of an integer-valued double [x >= 1]: the chosen
    digits followed by zeros up to 21 digits, the exponent form beyond. *)
Definition positive_text (x : Z) : string :=
  let len := String.length (decimal x) in
  let digits := decimal (shortest len x (Z.of_nat len - 1)) in
  let n := String.length digits in
  if (n <=? 21)%nat then digits
  else
    match strip digits with
    | String d EmptyString => String d ("e+" ++ decimal (Z.of_nat n - 1))
    | String d rest =>
        String d ("." ++ rest ++ "e+" ++ decimal (Z.of_nat n - 1))
    | EmptyString => digits
    end.

(** Number::toString of the Number value for an integer *)
Definition number_text (z : Z) : string :=
  match of_Z z with
  | Fin q =>
      let x := Qfloor q in
      if x =? 0 then "0"
      else if x <? 0 then String "-" (positive_text (- x))
      else positive_text x
  | Inf false => "Infinity"
  | Inf true => "-Infinity"
  | NaN => "NaN"
  end.

End Double.

(** The same operations in the Standard Library's specification of IEEE
    754 arithmetic, at the parameters of binary64, to run side by side
    with the ones above. *)
Module Binary64.

Definition of_Z (z : Z) : spec_float := binary_normalize 53 1024 z 0 false.

Definition mul : spec_float -> spec_float -> spec_float := SFmul 53 1024.

Definition div : spec_float -> spec_float -> spec_float := SFdiv 53 1024.

(** Whether a Number and a specified float are the same value *)
Definition agree (n : Double.Number) (f : spec_float) : bool :=
  match n, f with
  | Double.Fin q, S754_zero _ => Qeq_bool q 0
  | Double.Fin q, S754_finite s m e =>
      Qeq_bool q
        ((if s then -1 else 1) * inject_Z (Zpos m) * Double.pow2 e)%Q
  | Double.Inf s, S754_infinity s' => Bool.eqb s s'
  | Double.NaN, S754_nan => true
  | _, _ => false
  end.

(** The quotient of the progress handler, computed both ways *)
Definition quotients_agree (counts : Z * Z) : bool :=
  let '(l, t) := counts in
  agree (Double.of_Z l) (of_Z l)
  && agree
       (Double.div (Double.mul (Double.of_Z l) (Double.of_Z 100))
          (Double.of_Z t))
       (div (mul (of_Z l) (of_Z 100)) (of_Z t)).

End Binary64.

(* ===================================================================== *)
(** ** JavaScript values *)
(* ===================================================================== *)

Module JS.

(** Plain data as it comes out of a decoded response body or is passed
    around as [any]. Numbers are the integer-valued ones, [VNum n] being
    the Number value for [n]; objects keep their properties in insertion
    order. *)
Inductive Value : Type :=
  | VUndefined
  | VNull
  | VBool (b : bool)
  | VNum (n : Z)
  | VStr (s : string)
  | VArr (xs : list Value)
  | VObj (fields : list (string * Value)).

(** ToBoolean: [undefined], [null], [false], [0] and [''] are falsy. *)
Definition truthy (v : Value) : bool :=
  match v with
  | VUndefined | VNull => false
  | VBool b => b
  | VNum n => negb (n =? 0)
  | VStr s => negb (String.eqb s "")
  | VArr _ | VObj _ => true
  end.

(** [a || b] *)
Definition or_else (a b : Value) : Value := if truthy a then a else b.
Infix "|||" := or_else (at level 50, left associativity).

Definition nullish (v : Value) : bool :=
  match v with VUndefined | VNull => true | _ => false end.

Fixpoint assoc (k : string) (fields : list (string * Value)) : Value :=
  match fields with
  | [] => VUndefined
  | (k', v) :: rest => if String.eqb k k' then v else assoc k rest
  end.

(** A runtime value that is thrown or handed to a listener: a [TypeError]
    (property read on null or undefined), an instance of the program's own
    error class, or plain data (a raw failure object, a user exception, an
    event payload). *)
Inductive Any (E : Type) : Type :=
  | TypeError
  | Err (e : E)
  | Data (v : Value).
Arguments TypeError {E}.
Arguments Err {E} e.
Arguments Data {E} v.

Inductive Result (E A : Type) : Type :=
  | Ok (a : A)
  | Throw (x : Any E).
Arguments Ok {E A} a.
Arguments Throw {E A} x.

Definition bind {E A B} (m : Result E A) (k : A -> Result E B) : Result E B :=
  match m with
  | Ok a => k a
  | Throw x => Throw x
  end.

(** [o.k]: throws on a null or undefined base. Of the property names read
    in this file ([response], [data], [error], [message], [code],
    [details], [status], [headers], [x-request-id]) none is defined on the
    prototype of a primitive or of an array, so only objects answer. *)
Definition get {E} (o : Value) (k : string) : Result E Value :=
  match o with
  | VUndefined | VNull => Throw TypeError
  | VObj fields => Ok (assoc k fields)
  | _ => Ok VUndefined
  end.

(** [o?.k] *)
Definition get_opt {E} (o : Value) (k : string) : Result E Value :=
  if nullish o then Ok VUndefined else get o k.

Definition has_own (k : string) (fields : list (string * Value)) : bool :=
  existsb (fun p => String.eqb k (fst p)) fields.

(** ToString. An array is joined with commas, a null or undefined element
    giving the empty string. An object prints as [[object Object]] through
    the inherited [toString]; an own [toString] property, which in plain
    data is never a function, leaves no way to a primitive and the
    conversion throws. *)
Fixpoint to_string {E} (v : Value) : Result E string :=
  match v with
  | VUndefined => Ok "undefined"
  | VNull => Ok "null"
  | VBool true => Ok "true"
  | VBool false => Ok "false"
  | VNum n => Ok (Double.number_text n)
  | VStr s => Ok s
  | VArr xs =>
      (fix join (xs : list Value) (sep : string) : Result E string :=
         match xs with
         | [] => Ok ""
         | x :: rest =>
             bind (if nullish x then Ok "" else to_string x) (fun s =>
             bind (join rest ",") (fun t =>
             Ok (sep ++ s ++ t)))
         end) xs ""
  | VObj fields =>
      if has_own "toString" fields then Throw TypeError
      else Ok "[object Object]"
  end.

End JS.

Import JS.

#[global] Instance result_bind {E} : MBind (Result E) := fun _ _ k m => JS.bind m k.
#[global] Instance result_ret {E} : MRet (Result E) := fun _ a => Ok a.

(* ===================================================================== *)
(** ** [src/types/index.ts] *)
(* ===================================================================== *)

(** [class NeuralNexusError extends Error]: [code] and [details] are
    stored as given. *)
Record NeuralNexusError : Type := mkError {
  message : string;
  code : Value;
  details : Value
}.

Abbreviation Thrown := (Any NeuralNexusError).
Abbreviation Res := (Result NeuralNexusError).

(** [new NeuralNexusError(message, code, details)] with a message of any
    type: [super(message)] stores its string conversion. *)
Definition new_NeuralNexusError (msg cd det : Value) : Res NeuralNexusError :=
  match msg with
  | VUndefined => Ok {| message := ""; code := cd; details := det |}
  | _ => s ← to_string msg; Ok {| message := s; code := cd; details := det |}
  end.

(** The same with a message that is a string *)
Definition new_NeuralNexusError_text (text : string) (cd det : Value)
  : NeuralNexusError :=
  {| message := text; code := cd; details := det |}.

(** [enum NeuralNexusEvent] *)
Definition CONNECTED : string := "connected".
Definition DISCONNECTED : string := "disconnected".
Definition AUTH_STATE_CHANGED : string := "authStateChanged".
Definition ERROR : string := "error".

(* ===================================================================== *)
(** ** The response interceptor: error normalization *)
(* ===================================================================== *)

Module Normalizer.

(** [error.response?.data] *)
Definition response_data (error : Value) : Res Value :=
  r ← get error "response"; get_opt r "data".

(** [error.response?.data?.error?.<k>] *)
Definition nested (error : Value) (k : string) : Res Value :=
  d ← response_data error;
  e ← get_opt d "error";
  get_opt e k.

(** [error.response?.data?.<k>] *)
Definition flat (error : Value) (k : string) : Res Value :=
  d ← response_data error; get_opt d k.

Definition errorMessage (error : Value) : Res Value :=
  a ← nested error "message";
  if truthy a then Ok a else
  b ← flat error "message";
  if truthy b then Ok b else
  c ← get error "message";
  Ok (c ||| VStr "Unknown error occurred").

Definition errorCode (error : Value) : Res Value :=
  a ← nested error "code";
  if truthy a then Ok a else
  b ← flat error "code";
  Ok (b ||| VStr "API_ERROR").

Definition synthesized (error : Value) : Res Value :=
  r ← get error "response";
  st ← get_opt r "status";
  r' ← get error "response";
  h ← get_opt r' "headers";
  id ← get_opt h "x-request-id";
  Ok (VObj [("status", st); ("request_id", id)]).

Definition errorDetails (error : Value) : Res Value :=
  a ← nested error "details";
  if truthy a then Ok a else
  b ← flat error "details";
  if truthy b then Ok b else
  synthesized error.

(** Lines 71-92 of the interceptor: the three extractions and the
    construction of the error object. *)
Definition normalize (error : Value) : Res NeuralNexusError :=
  m ← errorMessage error;
  c ← errorCode error;
  d ← errorDetails error;
  new_NeuralNexusError m c d.

End Normalizer.

(* ===================================================================== *)
(** ** axios: the instance and how a request gets its headers *)
(* ===================================================================== *)

Module Axios.

(** The part of [instance.defaults] the client touches. [axios.create]
    merges the [headers] of its argument into [defaults.headers] itself,
    next to [defaults.headers.common], which starts with [Accept] only. *)
Record Instance : Type := mkInstance {
  baseURL : option string;
  timeout : option Z;
  headers : gmap string string;
  common : gmap string string
}.

Record Request : Type := mkRequest {
  method : string;
  url : string;
  req_baseURL : option string;
  req_timeout : option Z;
  req_headers : gmap string string;
  payload : Value;
  responseType : string
}.

Definition create (base : option string) (tmo : option Z)
  (hs : gmap string string)
  : Instance :=
  {| baseURL := base;
     timeout := tmo;
     headers := hs;
     common := {["Accept" := "application/json, text/plain, */*"]} |}.

(** [Axios.prototype.request] of axios 1.x: the request's own headers are
    merged over [defaults.headers]; then the [common] group is flattened
    first and the merged headers are set over it. A header given to
    [axios.create] therefore wins over the same header in
    [defaults.headers.common]. *)
Definition flatten (ax : Instance) (own : gmap string string)
  : gmap string string :=
  (own ∪ headers ax) ∪ common ax.

(** [instance.defaults.headers.common[k] = v] *)
Definition set_common (ax : Instance) (k v : string) : Instance :=
  {| baseURL := baseURL ax;
     timeout := timeout ax;
     headers := headers ax;
     common := <[k := v]> (common ax) |}.

Definition build (ax : Instance) (m u : string) (own : gmap string string)
  (p : Value) (rt : string) : Request :=
  {| method := m;
     url := u;
     req_baseURL := baseURL ax;
     req_timeout := timeout ax;
     req_headers := flatten ax own;
     payload := p;
     responseType := rt |}.

(** A fulfilled exchange carries the decoded body; a failed one (network
    fault, timeout, status outside 2xx) the value axios rejects with. *)
Inductive Outcome : Type :=
  | Fulfilled (data : Value)
  | Failed (error : Value).

End Axios.

(* ===================================================================== *)
(** ** Node's [EventEmitter], the base class of the client *)
(* ===================================================================== *)

Module Emitter.

(** A listener is a caller-supplied function. It is known by its identity
    and by what a call does: return ([None]) or throw ([Some x]). Listeners
    that call back into the emitter while they run, and the meta-events
    [newListener] and [removeListener], are outside this model. *)
Record Listener : Type := mkListener {
  lid : nat;
  body : list Thrown -> option Thrown
}.

(** What the outside world can observe of a run. *)
Inductive Effect : Type :=
  | Emit (type : string) (args : list Thrown)            (* a call of [emit] *)
  | Call (l : nat) (type : string) (args : list Thrown)  (* a listener invoked *)
  | Warn (text : string)                                 (* [console.warn] *)
  | Send (r : Axios.Request)                             (* a network exchange *)
  | Progress (percent : Double.Number)                   (* [onProgress] invoked *)
  | Consume (v : Value).                                 (* [onChunk] invoked *)

Definition listeners (events : gmap string (list Listener)) (type : string)
  : list Listener :=
  default [] (events !! type).

(** [on(type, listener)]: appended, no deduplication. *)
Definition on (events : gmap string (list Listener)) (type : string)
  (l : Listener) : gmap string (list Listener) :=
  <[type := (listeners events type ++ [l])%list]> events.

(** [removeAllListeners()] *)
Definition removeAllListeners (events : gmap string (list Listener))
  : gmap string (list Listener) := ∅.

(** The listeners of one emission run in registration order; an exception
    of a listener leaves the loop and propagates. *)
Fixpoint run (ls : list Listener) (type : string) (args : list Thrown)
  : list Effect * option Thrown :=
  match ls with
  | [] => ([], None)
  | l :: rest =>
      match body l args with
      | Some x => ([Call (lid l) type args], Some x)
      | None =>
          let '(eff, r) := run rest type args in
          (Call (lid l) type args :: eff, r)
      end
  end.

(** An [error] event nobody listens to is thrown: the argument itself when
    it is an [Error], a fresh [ERR_UNHANDLED_ERROR] around it otherwise. *)
Definition unhandled (args : list Thrown) : Thrown :=
  match args with
  | Err e :: _ => Err e
  | TypeError :: _ => TypeError
  | Data v :: _ =>
      Data (VObj [("code", VStr "ERR_UNHANDLED_ERROR"); ("context", v)])
  | [] =>
      Data (VObj [("code", VStr "ERR_UNHANDLED_ERROR"); ("context", VUndefined)])
  end.

(** [emit(type, ...args)]: [true] when the event had listeners. *)
Definition emit (events : gmap string (list Listener)) (type : string)
  (args : list Thrown) : list Effect * Res bool :=
  match listeners events type with
  | [] =>
      ([Emit type args],
       if String.eqb type "error" then Throw (unhandled args) else Ok false)
  | ls =>
      let '(eff, r) := run ls type args in
      (Emit type args :: eff,
       match r with Some x => Throw x | None => Ok true end)
  end.

End Emitter.

Import Emitter.

(* ===================================================================== *)
(** ** String helpers of the runtime *)
(* ===================================================================== *)

Module Str.

Definition LF : ascii := ascii_of_nat 10.

(** [s.split(sep)] for a one-character separator *)
Fixpoint split (sep : ascii) (s : string) : list string :=
  match s with
  | EmptyString => [EmptyString]
  | String c rest =>
      if Ascii.eqb c sep then EmptyString :: split sep rest
      else
        match split sep rest with
        | [] => [String c EmptyString]
        | hd :: tl => String c hd :: tl
        end
  end.

(** White space as [trim] sees it, among the characters below 128. *)
Definition white (c : ascii) : bool :=
  let n := nat_of_ascii c in
  ((9 <=? n) && (n <=? 13) || (n =? 32))%nat.

(** [s.trim() === ''] *)
Fixpoint blank (s : string) : bool :=
  match s with
  | EmptyString => true
  | String c rest => white c && blank rest
  end.

(** [s.startsWith(p)] *)
Fixpoint startsWith (s p : string) : bool :=
  match p, s with
  | EmptyString, _ => true
  | String a p', String b s' => Ascii.eqb a b && startsWith s' p'
  | String _ _, EmptyString => false
  end.

(** [s.substring(n)] *)
Fixpoint drop (n : nat) (s : string) : string :=
  match n, s with
  | O, _ => s
  | S n', String _ rest => drop n' rest
  | S _, EmptyString => EmptyString
  end.

(** [o || d] on an optional string: absent and empty are falsy. *)
Definition present (o : option string) : bool :=
  match o with
  | Some s => negb (String.eqb s "")
  | None => false
  end.

End Str.

(* ===================================================================== *)
(** ** The handlers [upload] and [stream] install *)
(* ===================================================================== *)

Module Upload.

(** A progress event of the transport: byte counts, the total absent when
    the length is not computable. *)
Record ProgressEvent : Type := mkProgress {
  loaded : Z;
  total : option Z
}.

(** [Math.round]: the nearest integer, halves going up *)
Definition Math_round (x : Double.Number) : Double.Number :=
  match x with
  | Double.Fin q => Double.Fin (inject_Z (Qfloor (q + (1 # 2))))
  | _ => x
  end.

(** [Math.round((progressEvent.loaded * 100) / progressEvent.total)]
    (line 278), the byte counts being the Number values for the two
    integers *)
Definition progress (loadedBytes totalBytes : Z) : Double.Number :=
  Math_round
    (Double.div (Double.mul (Double.of_Z loadedBytes) (Double.of_Z 100))
       (Double.of_Z totalBytes)).

(** [onUploadProgress] (lines 276-281); [onProgress] tells whether the
    caller passed a callback. *)
Definition onUploadProgress (onProgress : bool) (progressEvent : ProgressEvent)
  : list Effect :=
  match total progressEvent with
  | Some t =>
      if onProgress && negb (t =? 0)%Z then
        [Progress (progress (loaded progressEvent) t)]
      else []
  | None => []
  end.

End Upload.

Module Stream.

(** The promise [stream] returns; settling it twice has no effect. *)
Inductive Promise : Type :=
  | Pending
  | Resolved
  | Rejected (reason : NeuralNexusError).

Definition resolve (p : Promise) : Promise :=
  match p with
  | Pending => Resolved
  | _ => p
  end.

Definition reject (reason : NeuralNexusError) (p : Promise) : Promise :=
  match p with
  | Pending => Rejected reason
  | _ => p
  end.

(** What the response stream emits *)
Inductive StreamEvent : Type :=
  | data (chunk : string)
  | end_
  | error (err : Value).

Section Decoder.

(** [JSON.parse]: [None] when it throws. *)
Variable JSON_parse : string -> option Value.

(** The [for] loop of the data handler (lines 316-331). The inner [try]
    also swallows an exception of [onChunk], so a call of the consumer never
    changes the control flow; nothing inside the outer [try] can throw. *)
Fixpoint each_line (lines : list string) (p : Promise)
  : list Effect * Promise :=
  match lines with
  | [] => ([], p)
  | line :: rest =>
      if Str.startsWith line "data: " then
        let jsonStr := Str.drop 6 line in
        if String.eqb jsonStr "[DONE]" then ([], resolve p)
        else
          match JSON_parse jsonStr with
          | Some parsedData =>
              let '(eff, p') := each_line rest p in
              (Consume parsedData :: eff, p')
          | None => each_line rest p
          end
      else each_line rest p
  end.

(** [chunk.toString().split('\n').filter(line => line.trim() !== '')] *)
Definition lines_of (chunk : string) : list string :=
  List.filter (fun line => negb (Str.blank line)) (Str.split Str.LF chunk).

Definition onData (chunk : string) (p : Promise) : list Effect * Promise :=
  each_line (lines_of chunk) p.

Definition STREAM_ERROR (err : Value) : NeuralNexusError :=
  new_NeuralNexusError_text "Stream error" (VStr "STREAM_ERROR") err.

(** The three handlers, fed with the events of the stream in order *)
Fixpoint pump (evs : list StreamEvent) (p : Promise)
  : list Effect * Promise :=
  match evs with
  | [] => ([], p)
  | data chunk :: rest =>
      let '(eff, p1) := onData chunk p in
      let '(eff', p2) := pump rest p1 in
      ((eff ++ eff')%list, p2)
  | end_ :: rest => pump rest (resolve p)
  | error err :: rest => pump rest (reject (STREAM_ERROR err) p)
  end.

End Decoder.

End Stream.

(* ===================================================================== *)
(** ** [class NeuralNexus extends EventEmitter] *)
(* ===================================================================== *)

Module Client.

(** [interface NeuralNexusConfig]; [storageConfig] and [authConfig] are
    carried along untouched and left out. *)
Record NeuralNexusConfig : Type := mkConfig {
  apiKey : option string;
  environment : option string;
  apiUrl : option string;
  timeout : option Z;
  storageProvider : option string;
  keyType : option string
}.

Record NeuralNexus : Type := mkClient {
  config : NeuralNexusConfig;
  axiosInstance : Axios.Instance;
  token : option string;
  refreshTimer : option nat;
  events : gmap string (list Listener)
}.

(** A string inside a template literal *)
Definition interp (o : option string) : string := default "undefined" o.

Definition bearer (o : option string) : string := "Bearer " ++ interp o.

Definition keyPrefixes : list (string * string) :=
  [("nxt_", "test"); ("nnd_", "development"); ("ntr_", "training");
   ("ndp_", "deployment"); ("npr_", "production")].

Fixpoint lookup_prefix (k : string) (table : list (string * string))
  : option string :=
  match table with
  | [] => None
  | (k', v) :: rest => if String.eqb k k' then Some v else lookup_prefix k rest
  end.

Definition validateApiKey (cfg : NeuralNexusConfig) (key : string)
  : list Effect * NeuralNexusConfig :=
  let prefix := String.substring 0 4 key in
  match lookup_prefix prefix keyPrefixes with
  | None =>
      ([Warn "Warning: API key format doesn't match expected pattern. This may cause authentication issues."],
       cfg)
  | Some keyType' =>
      ([], {| apiKey := apiKey cfg;
              environment := environment cfg;
              apiUrl := apiUrl cfg;
              timeout := timeout cfg;
              storageProvider := storageProvider cfg;
              keyType := Some keyType' |})
  end.

Definition getDefaultApiUrl (environment : option string) : string :=
  match environment with
  | Some "production" => "https://api.neuralnexus.ai/v1"
  | _ => "https://api.dev.neuralnexus.ai/v1"
  end.

Definition INVALID_CONFIG (text : string) : Thrown :=
  Err (new_NeuralNexusError_text text (VStr "INVALID_CONFIG") VUndefined).

(** The constructor. The emitter starts without listeners ([super()]);
    the [SdkManager] it creates only stores the reference. *)
Definition constructor (cfg : NeuralNexusConfig)
  : list Effect * Res NeuralNexus :=
  if negb (Str.present (apiKey cfg)) then
    ([], Throw (INVALID_CONFIG
                  "API key is required to initialize the Neural Nexus client"))
  else if negb (Str.present (environment cfg)) then
    ([], Throw (INVALID_CONFIG
                  "Environment (production or development) must be specified"))
  else
    let cfg1 :=
      {| apiKey := apiKey cfg;
         environment := environment cfg;
         apiUrl := if Str.present (apiUrl cfg) then apiUrl cfg
                   else Some (getDefaultApiUrl (environment cfg));
         timeout := match timeout cfg with
                    | Some t => if t =? 0 then Some 30000 else Some t
                    | None => Some 30000
                    end;
         storageProvider := if Str.present (storageProvider cfg)
                            then storageProvider cfg else Some "google";
         keyType := keyType cfg |} in
    let ax :=
      Axios.create (apiUrl cfg1) (timeout cfg1)
        (<["Content-Type" := "application/json"]>
           {["Authorization" := bearer (apiKey cfg1)]}) in
    let '(warned, cfg2) := validateApiKey cfg1 (interp (apiKey cfg1)) in
    let this :=
      {| config := cfg2; axiosInstance := ax; token := None;
         refreshTimer := None; events := ∅ |} in
    let '(eff, r) := emit (events this) CONNECTED [] in
    ((warned ++ eff)%list,
     match r with
     | Throw x => Throw x
     | Ok _ => Ok this
     end).

Definition setToken (this : NeuralNexus) (t : string) : NeuralNexus :=
  {| config := config this;
     axiosInstance :=
       Axios.set_common (axiosInstance this) "Authorization" ("Bearer " ++ t);
     token := Some t;
     refreshTimer := refreshTimer this;
     events := events this |}.

Definition clearToken (this : NeuralNexus) : NeuralNexus :=
  {| config := config this;
     axiosInstance :=
       Axios.set_common (axiosInstance this) "Authorization"
         (bearer (apiKey (config this)));
     token := None;
     refreshTimer := refreshTimer this;
     events := events this |}.

(** The inherited [on] *)
Definition on (this : NeuralNexus) (type : string) (l : Listener)
  : NeuralNexus :=
  {| config := config this;
     axiosInstance := axiosInstance this;
     token := token this;
     refreshTimer := refreshTimer this;
     events := Emitter.on (events this) type l |}.

(** [close()]: the state is returned also when the emission throws, since
    the caller keeps the instance. *)
Definition close (this : NeuralNexus)
  : list Effect * NeuralNexus * Res unit :=
  let this1 :=
    {| config := config this;
       axiosInstance := axiosInstance this;
       token := token this;
       refreshTimer := None;
       events := events this |} in
  let '(eff, r) := emit (events this1) DISCONNECTED [] in
  match r with
  | Throw x => (eff, this1, Throw x)
  | Ok _ =>
      (eff,
       {| config := config this1;
          axiosInstance := axiosInstance this1;
          token := token this1;
          refreshTimer := refreshTimer this1;
          events := removeAllListeners (events this1) |},
       Ok tt)
  end.

(** The rejection handler installed by the constructor (lines 69-96). The
    promise it returns is rejected in every case: with the normalized
    error, or with whatever the normalization or the emission threw. *)
Definition onRejected (this : NeuralNexus) (error : Value)
  : list Effect * Thrown :=
  match Normalizer.normalize error with
  | Throw x => ([], x)
  | Ok neuralNexusError =>
      let '(eff, r) := emit (events this) ERROR [Err neuralNexusError] in
      (eff,
       match r with
       | Throw x => x
       | Ok _ => Err neuralNexusError
       end)
  end.

(** A thrown value as the [details] of a wrapping error *)
Definition reify (x : Thrown) : Value :=
  match x with
  | Data v => v
  | TypeError => VObj [("name", VStr "TypeError")]
  | Err e =>
      VObj [("name", VStr "NeuralNexusError"); ("message", VStr (message e));
            ("code", code e); ("details", details e)]
  end.

(** The [catch] clause shared by the request methods *)
Definition rethrow (text : string) (x : Thrown) : Thrown :=
  match x with
  | Err e => Err e
  | _ =>
      Err (new_NeuralNexusError_text text (VStr "API_REQUEST_FAILED")
             (reify x))
  end.

Section Transport.

(** The network behind axios: what one exchange answers. *)
Variable adapter : Axios.Request -> Axios.Outcome.

(** One call of the axios instance, response interceptor included; the
    result is [response.data]. [during] is what happens while the exchange
    is under way. *)
Definition exchange (this : NeuralNexus) (req : Axios.Request)
  (during : list Effect) : list Effect * Res Value :=
  match adapter req with
  | Axios.Fulfilled data => (Send req :: during, Ok data)
  | Axios.Failed error =>
      let '(eff, x) := onRejected this error in
      ((Send req :: during ++ eff)%list, Throw x)
  end.

Definition guarded (text : string) (run : list Effect * Res Value)
  : list Effect * Res Value :=
  let '(eff, r) := run in
  (eff,
   match r with
   | Ok data => Ok data
   | Throw x => Throw (rethrow text x)
   end).

Definition get (this : NeuralNexus) (endpoint : string) (params : Value)
  : list Effect * Res Value :=
  guarded ("Failed to fetch data from " ++ endpoint)
    (exchange this
       (Axios.build (axiosInstance this) "get" endpoint ∅ params "json") []).

Definition post (this : NeuralNexus) (endpoint : string) (data : Value)
  : list Effect * Res Value :=
  guarded ("Failed to post data to " ++ endpoint)
    (exchange this
       (Axios.build (axiosInstance this) "post" endpoint ∅ data "json") []).

Definition put (this : NeuralNexus) (endpoint : string) (data : Value)
  : list Effect * Res Value :=
  guarded ("Failed to update data at " ++ endpoint)
    (exchange this
       (Axios.build (axiosInstance this) "put" endpoint ∅ data "json") []).

Definition delete (this : NeuralNexus) (endpoint : string) (params : Value)
  : list Effect * Res Value :=
  guarded ("Failed to delete data at " ++ endpoint)
    (exchange this
       (Axios.build (axiosInstance this) "delete" endpoint ∅ params "json") []).

(** [upload]: [progress] are the progress events of the transport during
    this exchange. *)
Definition upload (this : NeuralNexus) (endpoint : string) (formData : Value)
  (onProgress : bool) (progress : list Upload.ProgressEvent)
  : list Effect * Res Value :=
  guarded ("Failed to upload data to " ++ endpoint)
    (exchange this
       (Axios.build (axiosInstance this) "post" endpoint
          {["Content-Type" := "multipart/form-data"]} formData "json")
       (flat_map (Upload.onUploadProgress onProgress) progress)).

(** [stream]: [source] is [response.data] of the fulfilled exchange as
    the promise executor finds it: a readable stream, given by the events
    it will emit, or [None] for a body that has no [on] method (a decoded
    or absent body). For a stream the result is the state of the returned
    promise once the events have been handled. For any other body the
    first [response.data.on] throws inside the executor and rejects the
    promise; the promise is returned without [await], so the [catch]
    clause does not see the rejection and the caller gets the [TypeError]
    itself. *)
Definition stream (JSON_parse : string -> option Value) (this : NeuralNexus)
  (endpoint : string) (data : Value)
  (source : option (list Stream.StreamEvent))
  : list Effect * Res Stream.Promise :=
  let '(eff, r) :=
    exchange this
      (Axios.build (axiosInstance this) "post" endpoint ∅ data "stream") [] in
  match r with
  | Ok _ =>
      match source with
      | Some evs =>
          let '(eff', p) := Stream.pump JSON_parse evs Stream.Pending in
          ((eff ++ eff')%list, Ok p)
      | None => (eff, Throw TypeError)
      end
  | Throw x =>
      (eff, Throw (rethrow ("Failed to stream data from " ++ endpoint) x))
  end.

End Transport.

End Client.

(* ===================================================================== *)
(** ** Concrete data for the examples *)
(* ===================================================================== *)

Module Sample.

Fixpoint digits (s : string) (acc : Z) : option Z :=
  match s with
  | EmptyString => Some acc
  | String c rest =>
      let n := nat_of_ascii c in
      if ((48 <=? n) && (n <=? 57))%nat
      then digits rest (10 * acc + Z.of_nat (n - 48))
      else None
  end.

(** [JSON.parse] on the texts the examples use: the three literals and
    non-negative integers written without sign, leading zero or white
    space. Every other text is refused here. *)
Definition parse (s : string) : option Value :=
  match s with
  | "null" => Some VNull
  | "true" => Some (VBool true)
  | "false" => Some (VBool false)
  | "0" => Some (VNum 0)
  | EmptyString => None
  | String "0" _ => None
  | _ => VNum <$> digits s 0
  end.

(** A listener that returns and one that throws *)
Definition quiet (n : nat) : Listener := mkListener n (fun _ => None).
Definition faulty (n : nat) : Listener :=
  mkListener n (fun _ => Some (Data (VStr "listener failed"))).

Definition cfg (key env : string) : Client.NeuralNexusConfig :=
  Client.mkConfig (Some key) (Some env) None None None None.

(** A client as the constructor leaves it for key [key] in [development] *)
Definition client (key : string) : Client.NeuralNexus :=
  match Client.constructor (cfg key "development") with
  | (_, Ok c) => c
  | (_, Throw _) =>
      Client.mkClient (cfg key "development")
        (Axios.create None None ∅) None None ∅
  end.

(** A network that answers every request with the same body *)
Definition up (body : Value) : Axios.Request -> Axios.Outcome :=
  fun _ => Axios.Fulfilled body.

End Sample.

(* ===================================================================== *)
(** ** Vocabulary of the statements *)
(* ===================================================================== *)

Module Spec.

(** [o?.k] read as a total function: absent wherever the base has no such
    property. *)
Definition prop (o : Value) (k : string) : Value :=
  match o with
  | VObj fields => assoc k fields
  | _ => VUndefined
  end.

(** [o?.k1?.k2?. ...] *)
Definition at_path (o : Value) (path : list string) : Value :=
  fold_left prop path o.

(** The first truthy candidate, in order, else the fallback *)
Fixpoint first_truthy (candidates : list Value) (fallback : Value) : Value :=
  match candidates with
  | [] => fallback
  | c :: rest => if truthy c then c else first_truthy rest fallback
  end.

(** The payloads of the emissions of one event type, in order *)
Fixpoint emissions (type : string) (eff : list Effect) : list (list Thrown) :=
  match eff with
  | [] => []
  | Emit type' args :: rest =>
      if String.eqb type type' then args :: emissions type rest
      else emissions type rest
  | _ :: rest => emissions type rest
  end.

(** The listeners invoked, in order *)
Fixpoint calls (eff : list Effect) : list (nat * string) :=
  match eff with
  | [] => []
  | Call l type _ :: rest => (l, type) :: calls rest
  | _ :: rest => calls rest
  end.

(** The requests sent, in order *)
Fixpoint sent (eff : list Effect) : list Axios.Request :=
  match eff with
  | [] => []
  | Send r :: rest => r :: sent rest
  | _ :: rest => sent rest
  end.

(** The percentages reported to [onProgress], in order *)
Fixpoint reported (eff : list Effect) : list Double.Number :=
  match eff with
  | [] => []
  | Progress n :: rest => n :: reported rest
  | _ :: rest => reported rest
  end.

(** [round(loadedBytes * 100 / totalBytes)] on the exact quotient, halves
    going up *)
Definition percent (loadedBytes totalBytes : Z) : Z :=
  Qfloor (inject_Z (loadedBytes * 100) / inject_Z totalBytes + (1 # 2)).

(** The quotient [(loaded * 100) / total] as the handler computes it in
    doubles, for positive byte counts below 2^1000, where nothing
    overflows *)
Definition quotient (l t : Z) : Q :=
  Double.nearest
    (Double.nearest (Double.nearest (inject_Z l) * 100)
     / Double.nearest (inject_Z t)).

(** The frames handed to [onChunk], in order *)
Fixpoint consumed (eff : list Effect) : list Value :=
  match eff with
  | [] => []
  | Consume v :: rest => v :: consumed rest
  | _ :: rest => consumed rest
  end.

(** The [error] emissions a call of the axios instance gives rise to: one,
    carrying the normalized error, when the exchange fails and the failure
    is normalized; none otherwise. *)
Definition error_events (adapter : Axios.Request -> Axios.Outcome)
  (req : Axios.Request) : list (list Thrown) :=
  match adapter req with
  | Axios.Fulfilled _ => []
  | Axios.Failed error =>
      match Normalizer.normalize error with
      | Ok e => [[Err e]]
      | Throw _ => []
      end
  end.

(** A request method performs its exchange: it sends exactly the request
    [req], and returns the body when the exchange is fulfilled. *)
Definition performs {A} (adapter : Axios.Request -> Axios.Outcome)
  (run : list Effect * Res A) (req : Axios.Request) (result : Value -> A)
  : Prop :=
  sent run.1 = [req]
  /\ forall body, adapter req = Axios.Fulfilled body -> run.2 = Ok (result body).

Definition sentinel (line : string) : bool :=
  Str.startsWith line "data: " && String.eqb (Str.drop 6 line) "[DONE]".

(** The lines of a chunk in front of its first sentinel line *)
Fixpoint live (lines : list string) : list string :=
  match lines with
  | [] => []
  | line :: rest => if sentinel line then [] else line :: live rest
  end.

(** The frame a line carries: the decoded text behind the prefix *)
Definition frame (decode : string -> option Value) (line : string)
  : option Value :=
  if Str.startsWith line "data: " then decode (Str.drop 6 line) else None.

(** The frames among some lines: those that decode, in order *)
Fixpoint decoded (decode : string -> option Value) (lines : list string)
  : list Value :=
  match lines with
  | [] => []
  | line :: rest =>
      match frame decode line with
      | Some v => v :: decoded decode rest
      | None => decoded decode rest
      end
  end.

(** The frames of a chunk: those of its live lines *)
Definition frames (decode : string -> option Value) (chunk : string)
  : list Value :=
  decoded decode (live (Stream.lines_of chunk)).

(** Lines put together into a chunk, each closed by a line feed *)
Definition unlines (lines : list string) : string :=
  fold_right (fun l acc => l ++ String Str.LF acc) "" lines.

Fixpoint no_LF (s : string) : bool :=
  match s with
  | EmptyString => true
  | String c rest => negb (Ascii.eqb c Str.LF) && no_LF rest
  end.

End Spec.

Import Spec.

(* ===================================================================== *)
(** ** The managers built on the client *)
(* ===================================================================== *)

(** The members of [enum NeuralNexusEvent] the managers emit *)
Definition MODEL_UPLOADED : string := "modelUploaded".
Definition MODEL_DOWNLOADED : string := "modelDownloaded".
Definition PURCHASE_COMPLETED : string := "purchaseCompleted".

Module Manager.

(** A string argument is given: [!s] is false. *)
Definition given (s : string) : bool := negb (String.eqb s "").

(** [throw new NeuralNexusError(text, code)] *)
Definition raise (text code : string) : Thrown :=
  Err (new_NeuralNexusError_text text (VStr code) VUndefined).

(** The [catch] clause of the manager methods: an error of the client's
    class passes, anything else is wrapped. *)
Definition caught (text code : string) (x : Thrown) : Thrown :=
  match x with
  | Err e => Err e
  | _ => Err (new_NeuralNexusError_text text (VStr code) (Client.reify x))
  end.

(** [a ?? b] *)
Definition coalesce (a b : Value) : Value := if nullish a then b else a.

End Manager.

(** [src/managers/SdkManager.ts] *)
Module Sdk.

(** [class SdkTemplates]: one function of the key per language. The texts
    themselves are left open. *)
Record SdkTemplates : Type := mkTemplates {
  typescript : string -> string;
  python : string -> string;
  go : string -> string;
  java : string -> string;
  ruby : string -> string;
  csharp : string -> string;
  php : string -> string;
  swift : string -> string;
  rust : string -> string
}.

Definition getSupportedLanguages : list string :=
  ["typescript"; "javascript"; "python"; "go"; "java"; "ruby"; "csharp";
   "php"; "swift"; "rust"].

(** [getSupportedLanguages().includes(language)] *)
Definition isLanguageSupported (language : string) : bool :=
  existsb (String.eqb language) getSupportedLanguages.

(** [generateSdk(options)], a function of [options.language] alone: the
    [switch] in the order of its cases. *)
Definition generateSdk (T : SdkTemplates) (language : string) : Res string :=
  let apiKey := "YOUR_API_KEY" in
  if String.eqb language "typescript" then Ok (typescript T apiKey)
  else if String.eqb language "javascript" then Ok (typescript T apiKey)
  else if String.eqb language "python" then Ok (python T apiKey)
  else if String.eqb language "go" then Ok (go T apiKey)
  else if String.eqb language "java" then Ok (java T apiKey)
  else if String.eqb language "ruby" then Ok (ruby T apiKey)
  else if String.eqb language "csharp" then Ok (csharp T apiKey)
  else if String.eqb language "php" then Ok (php T apiKey)
  else if String.eqb language "swift" then Ok (swift T apiKey)
  else if String.eqb language "rust" then Ok (rust T apiKey)
  else
    Throw (Manager.raise
             ("SDK generation for " ++ language ++ " is not yet supported")
             "UNSUPPORTED_LANGUAGE").

End Sdk.

(** [class Auth] *)
Module Auth.

Record Auth : Type := mkAuth {
  client : Client.NeuralNexus;
  currentUser : Value
}.

Definition constructor (client : Client.NeuralNexus) : Auth :=
  {| client := client; currentUser := VNull |}.

(** [this.currentUser !== null] *)
Definition isAuthenticated (this : Auth) : bool :=
  match currentUser this with
  | VNull => false
  | _ => true
  end.

(** What [login] and [register] do with the response, inside their [try]:
    the check of [response.data], the destructuring, [setToken], the
    assignment of [currentUser] and the emission. When the template literal
    of [setToken] throws, nothing but the client's write-only [token] field
    has changed, and the state is returned as it was. *)
Definition session (this : Auth) (response : Value) (invalid : Thrown)
  : list Effect * Auth * Res Value :=
  match JS.get response "data" with
  | Throw x => ([], this, Throw x)
  | Ok d =>
      if negb (truthy d) then ([], this, Throw invalid)
      else
        match JS.get d "token", JS.get d "user" with
        | Ok token, Ok user =>
            match to_string token with
            | Throw x => ([], this, Throw x)
            | Ok t =>
                let this1 :=
                  {| client := Client.setToken (client this) t;
                     currentUser := user |} in
                let '(eff, r) :=
                  emit (Client.events (client this1)) AUTH_STATE_CHANGED
                    [Data (VObj [("user", user)])] in
                (eff, this1,
                 match r with
                 | Throw x => Throw x
                 | Ok _ => Ok user
                 end)
            end
        | Throw x, _ => ([], this, Throw x)
        | _, Throw x => ([], this, Throw x)
        end
  end.

Section Transport.

Variable adapter : Axios.Request -> Axios.Outcome.

Definition login (this : Auth) (email password : string)
  : list Effect * Auth * Res Value :=
  if negb (Manager.given email) || negb (Manager.given password) then
    ([], this,
     Throw (Manager.raise "Email and password are required"
              "INVALID_CREDENTIALS"))
  else
    let '(eff, r) :=
      Client.post adapter (client this) "/auth/login"
        (VObj [("email", VStr email); ("password", VStr password)]) in
    let '(eff', this', r') :=
      match r with
      | Throw x => ([], this, Throw x)
      | Ok response =>
          session this response
            (Manager.raise "Invalid response from authentication server"
               "AUTH_ERROR")
      end in
    ((eff ++ eff')%list, this',
     match r' with
     | Ok user => Ok user
     | Throw x => Throw (Manager.caught "Authentication failed" "AUTH_ERROR" x)
     end).

Definition register (this : Auth) (email password username : string)
  : list Effect * Auth * Res Value :=
  if negb (Manager.given email) || negb (Manager.given password)
     || negb (Manager.given username) then
    ([], this,
     Throw (Manager.raise "Email, password, and username are required"
              "INVALID_REGISTRATION_DATA"))
  else
    let '(eff, r) :=
      Client.post adapter (client this) "/auth/register"
        (VObj [("email", VStr email); ("password", VStr password);
               ("username", VStr username)]) in
    let '(eff', this', r') :=
      match r with
      | Throw x => ([], this, Throw x)
      | Ok response =>
          session this response
            (Manager.raise "Invalid response from registration server"
               "REGISTRATION_ERROR")
      end in
    ((eff ++ eff')%list, this',
     match r' with
     | Ok user => Ok user
     | Throw x =>
         Throw (Manager.caught "Registration failed" "REGISTRATION_ERROR" x)
     end).

Definition logout (this : Auth) : list Effect * Auth * Res unit :=
  let '(eff, r) :=
    Client.post adapter (client this) "/auth/logout" (VObj []) in
  match r with
  | Throw x =>
      (eff, this, Throw (Manager.caught "Logout failed" "LOGOUT_ERROR" x))
  | Ok _ =>
      let this1 :=
        {| client := Client.clearToken (client this);
           currentUser := VNull |} in
      let '(eff', r') :=
        emit (Client.events (client this1)) AUTH_STATE_CHANGED
          [Data (VObj [("user", VNull)])] in
      ((eff ++ eff')%list, this1,
       match r' with
       | Throw x => Throw (Manager.caught "Logout failed" "LOGOUT_ERROR" x)
       | Ok _ => Ok tt
       end)
  end.

(** [getCurrentUser]: its [catch] returns [null] for every exception. *)
Definition getCurrentUser (this : Auth) : list Effect * Auth * Res Value :=
  if truthy (currentUser this) then ([], this, Ok (currentUser this))
  else
    let '(eff, r) :=
      Client.get adapter (client this) "/auth/me" VUndefined in
    match r with
    | Throw _ => (eff, this, Ok VNull)
    | Ok response =>
        match JS.get (E := NeuralNexusError) response "data" with
        | Throw _ => (eff, this, Ok VNull)
        | Ok d =>
            if negb (truthy d) then (eff, this, Ok VNull)
            else (eff, {| client := client this; currentUser := d |}, Ok d)
        end
    end.

End Transport.

End Auth.

(** [class Payments] *)
Module Payments.

Section Transport.

Variable adapter : Axios.Request -> Axios.Outcome.

(** [purchaseModel(options)]; [options] are the properties of the options
    object. *)
Definition purchaseModel (client : Client.NeuralNexus)
  (options : list (string * Value)) : list Effect * Res Value :=
  if negb (truthy (assoc "modelId" options)) then
    ([], Throw (Manager.raise "Model ID is required" "INVALID_PURCHASE_DATA"))
  else if negb (truthy (assoc "method" options)) then
    ([], Throw (Manager.raise "Payment method is required"
                  "INVALID_PURCHASE_DATA"))
  else
    let '(eff, r) :=
      Client.post adapter client "/payments/purchase" (VObj options) in
    let '(eff', r') :=
      match r with
      | Throw x => ([], Throw x)
      | Ok response =>
          match JS.get response "data" with
          | Throw x => ([], Throw x)
          | Ok result =>
              if negb (truthy result) then
                ([], Throw (Manager.raise "Invalid response from payment server"
                              "PAYMENT_ERROR"))
              else
                let '(eff', r') :=
                  emit (Client.events client) PURCHASE_COMPLETED
                    [Data result] in
                (eff',
                 match r' with
                 | Throw x => Throw x
                 | Ok _ => Ok result
                 end)
          end
      end in
    ((eff ++ eff')%list,
     match r' with
     | Ok result => Ok result
     | Throw x => Throw (Manager.caught "Payment failed" "PAYMENT_ERROR" x)
     end).

(** [getSubscriptionPlans()] *)
Definition getSubscriptionPlans (client : Client.NeuralNexus)
  : list Effect * Res Value :=
  let '(eff, r) :=
    Client.get adapter client "/payments/subscription-plans" VUndefined in
  (eff,
   match r with
   | Throw x =>
       Throw (Manager.caught "Failed to fetch subscription plans"
                "SUBSCRIPTION_ERROR" x)
   | Ok response =>
       match JS.get response "data" with
       | Throw x =>
           Throw (Manager.caught "Failed to fetch subscription plans"
                    "SUBSCRIPTION_ERROR" x)
       | Ok d => Ok (d ||| VArr [])
       end
   end).

End Transport.

End Payments.

(** [class ModelManager] *)
Module Models.

Section Transport.

Variable adapter : Axios.Request -> Axios.Outcome.

(** [deleteModel(modelId)] *)
Definition deleteModel (client : Client.NeuralNexus) (modelId : string)
  : list Effect * Res Value :=
  if negb (Manager.given modelId) then
    ([], Throw (Manager.raise "Model ID is required" "INVALID_MODEL_ID"))
  else
    let '(eff, r) :=
      Client.delete adapter client ("/models/" ++ modelId) VUndefined in
    let text := "Failed to delete model with ID " ++ modelId in
    (eff,
     match r with
     | Throw x => Throw (Manager.caught text "MODEL_DELETE_FAILED" x)
     | Ok response =>
         match JS.get response "success" with
         | Throw x => Throw (Manager.caught text "MODEL_DELETE_FAILED" x)
         | Ok success => Ok (Manager.coalesce success (VBool true))
         end
     end).

(** [getModelDownloadUrl(modelId)]: [response.data!.url] reads [url]
    without a check. *)
Definition getModelDownloadUrl (client : Client.NeuralNexus)
  (modelId : string) : list Effect * Res Value :=
  if negb (Manager.given modelId) then
    ([], Throw (Manager.raise "Model ID is required" "INVALID_MODEL_ID"))
  else
    let '(eff, r) :=
      Client.get adapter client ("/models/" ++ modelId ++ "/download-url")
        VUndefined in
    let text := "Failed to get download URL for model with ID " ++ modelId in
    (eff,
     match r with
     | Throw x => Throw (Manager.caught text "MODEL_URL_GENERATION_FAILED" x)
     | Ok response =>
         match (d ← JS.get response "data"; JS.get d "url") with
         | Throw x =>
             Throw (Manager.caught text "MODEL_URL_GENERATION_FAILED" x)
         | Ok url => Ok url
         end
     end).

End Transport.

End Models.

(** [src/managers/StorageManager.ts] *)
Module Storage.

(** [c.toLowerCase()] on the characters below 128 *)
Definition lower (c : ascii) : ascii :=
  let n := nat_of_ascii c in
  if ((65 <=? n) && (n <=? 90))%nat then ascii_of_nat (n + 32) else c.

Fixpoint toLowerCase (s : string) : string :=
  match s with
  | EmptyString => EmptyString
  | String c rest => String (lower c) (toLowerCase rest)
  end.

Definition mimeTypes : list (string * string) :=
  [("jpg", "image/jpeg"); ("jpeg", "image/jpeg"); ("png", "image/png");
   ("gif", "image/gif"); ("webp", "image/webp"); ("svg", "image/svg+xml");
   ("pdf", "application/pdf"); ("json", "application/json");
   ("txt", "text/plain"); ("html", "text/html"); ("css", "text/css");
   ("js", "application/javascript"); ("ts", "text/typescript");
   ("csv", "text/csv"); ("xml", "application/xml");
   ("zip", "application/zip"); ("tar", "application/x-tar");
   ("gz", "application/gzip"); ("mp3", "audio/mpeg"); ("mp4", "video/mp4");
   ("avi", "video/x-msvideo"); ("onnx", "application/octet-stream");
   ("pt", "application/octet-stream"); ("pth", "application/octet-stream");
   ("h5", "application/octet-stream"); ("pb", "application/octet-stream");
   ("tflite", "application/octet-stream")].

(** The property names every object literal inherits *)
Definition Object_prototype : list string :=
  ["constructor"; "__defineGetter__"; "__defineSetter__"; "hasOwnProperty";
   "__lookupGetter__"; "__lookupSetter__"; "isPrototypeOf";
   "propertyIsEnumerable"; "toString"; "valueOf"; "__proto__";
   "toLocaleString"].

(** What [getMimeType] returns: a string, or for an extension that names an
    inherited property, that member of [Object.prototype]. *)
Inductive Mime : Type :=
  | Text (s : string)
  | Inherited (name : string).

(** [mimeTypes[extension] || 'application/octet-stream'] *)
Definition mime_of (extension : string) : Mime :=
  match Client.lookup_prefix extension mimeTypes with
  | Some s => Text s
  | None =>
      if existsb (String.eqb extension) Object_prototype
      then Inherited extension
      else Text "application/octet-stream"
  end.

(** [fileName.split('.').pop()?.toLowerCase() || ''] *)
Definition extension_of (fileName : string) : string :=
  toLowerCase (List.last (Str.split "." fileName) "").

Definition getMimeType (fileName : string) : Mime :=
  mime_of (extension_of fileName).

(** A text in which the character [c] does not occur *)
Fixpoint lacks (c : ascii) (s : string) : bool :=
  match s with
  | EmptyString => true
  | String a rest => negb (Ascii.eqb a c) && lacks c rest
  end.

Section Transport.

Variable adapter : Axios.Request -> Axios.Outcome.

(** [encodeURIComponent] *)
Variable encodeURIComponent : string -> string.

(** [getDownloadUrl(filePath, expirationMinutes = 60)] *)
Definition getDownloadUrl (client : Client.NeuralNexus) (filePath : string)
  (expirationMinutes : option Z) : list Effect * Res Value :=
  if negb (Manager.given filePath) then
    ([], Throw (Manager.raise "File path is required" "INVALID_FILE_PATH"))
  else
    let minutes := Double.number_text (default 60 expirationMinutes) in
    let '(eff, r) :=
      Client.get adapter client
        ("/storage/download-url?path=" ++ encodeURIComponent filePath
           ++ "&expirationMinutes=" ++ minutes)
        VUndefined in
    let text := "Failed to get download URL for file at " ++ filePath in
    (eff,
     match r with
     | Throw x => Throw (Manager.caught text "URL_GENERATION_ERROR" x)
     | Ok response =>
         match JS.get response "data" with
         | Throw x => Throw (Manager.caught text "URL_GENERATION_ERROR" x)
         | Ok d =>
             if negb (truthy d) then
               Throw (Manager.raise "Failed to generate download URL"
                        "URL_GENERATION_ERROR")
             else
               match JS.get d "url" with
               | Throw x => Throw (Manager.caught text "URL_GENERATION_ERROR" x)
               | Ok url =>
                   if negb (truthy url) then
                     Throw (Manager.raise "Failed to generate download URL"
                              "URL_GENERATION_ERROR")
                   else Ok url
               end
         end
     end).

End Transport.

End Storage.

(* ===================================================================== *)
(** ** The definitions at work *)
(* ===================================================================== *)

Section Runs.

(** The four shapes of a failure: nested, flat, message only, empty. *)
Example normalize_nested :
  Normalizer.normalize
    (VObj [("message", VStr "Request failed with status code 429");
           ("response",
            VObj [("status", VNum 429);
                  ("headers", VObj [("x-request-id", VStr "req-7")]);
                  ("data",
                   VObj [("message", VStr "flat");
                         ("error",
                          VObj [("message", VStr "Too many requests");
                                ("code", VStr "RATE_LIMITED")])])])])
  = Ok {| message := "Too many requests";
          code := VStr "RATE_LIMITED";
          details := VObj [("status", VNum 429);
                           ("request_id", VStr "req-7")] |}.
Proof. reflexivity. Qed.

Example normalize_flat :
  Normalizer.normalize
    (VObj [("message", VStr "Request failed with status code 400");
           ("response",
            VObj [("status", VNum 400);
                  ("data",
                   VObj [("message", VStr "Bad input");
                         ("code", VStr "BAD_INPUT");
                         ("details", VObj [("field", VStr "name")])])])])
  = Ok {| message := "Bad input";
          code := VStr "BAD_INPUT";
          details := VObj [("field", VStr "name")] |}.
Proof. reflexivity. Qed.

Example normalize_plain :
  Normalizer.normalize (VObj [("message", VStr "Network Error")])
  = Ok {| message := "Network Error";
          code := VStr "API_ERROR";
          details := VObj [("status", VUndefined);
                           ("request_id", VUndefined)] |}.
Proof. reflexivity. Qed.

Example normalize_empty :
  Normalizer.normalize
    (VObj [("message", VStr "");
           ("response", VObj [("status", VNum 500); ("data", VStr "")])])
  = Ok {| message := "Unknown error occurred";
          code := VStr "API_ERROR";
          details := VObj [("status", VNum 500);
                           ("request_id", VUndefined)] |}.
Proof. reflexivity. Qed.

Example normalize_null : Normalizer.normalize VNull = Throw TypeError.
Proof. reflexivity. Qed.

Example split_chunk :
  Str.split Str.LF (unlines ["data: 1"; ""; "data: [DONE]"])
  = ["data: 1"; ""; "data: [DONE]"; ""].
Proof. reflexivity. Qed.

Example stream_two_chunks :
  Stream.pump Sample.parse
    [Stream.data (unlines ["data: 1"]);
     Stream.data (unlines ["data: 2"; "data: [DONE]"])] Stream.Pending
  = ([Consume (VNum 1); Consume (VNum 2)], Stream.Resolved).
Proof. reflexivity. Qed.

Example stream_fault :
  (Stream.pump Sample.parse
     [Stream.data (unlines ["data: 1"]); Stream.error (VStr "reset")]
     Stream.Pending).2
  = Stream.Rejected (Stream.STREAM_ERROR (VStr "reset")).
Proof. reflexivity. Qed.

Example constructor_production :
  Client.apiUrl
    (Client.config
       (match Client.constructor (Sample.cfg "npr_key" "production") with
        | (_, Ok c) => c
        | (_, Throw _) => Sample.client ""
        end))
  = Some "https://api.neuralnexus.ai/v1".
Proof. reflexivity. Qed.

Example constructor_warns :
  (Client.constructor (Sample.cfg "test-key" "development")).1
  = [Warn "Warning: API key format doesn't match expected pattern. This may cause authentication issues.";
     Emit CONNECTED []].
Proof. reflexivity. Qed.

Example emit_unheard_error :
  (emit ∅ ERROR [Data (VStr "boom")]).2
  = Throw (Data (VObj [("code", VStr "ERR_UNHANDLED_ERROR");
                       ("context", VStr "boom")])).
Proof. reflexivity. Qed.

(** Doubles: an odd integer above [2^53] goes to the even neighbour, a
    third to the nearest of the 53-bit fractions, [2^1024] to infinity. *)
Example double_integers :
  Double.of_Z (2 ^ 53 + 1) = Double.of_Z (2 ^ 53)
  /\ Double.of_Z (2 ^ 53 + 3) = Double.of_Z (2 ^ 53 + 4)
  /\ Double.of_Z (2 ^ 1024) = Double.Inf false.
Proof. split_and!; by vm_compute. Qed.

(** On these byte counts (small, around [2^46] and [2^53], negative,
    huge, overflowing) the operations give what the Standard Library's
    specification of binary64 gives. *)
Example double_quotients :
  forallb Binary64.quotients_agree
    [(0, 7); (1, 3); (2, 3); (66442395949705, 83575340817239);
     (35184372088831, 70368744177663); (2 ^ 53 + 1, 7);
     (9007199254740993, 9007199254740995); (2 ^ 70 + 12345, 2 ^ 69 + 1);
     (-5, 3); (1, 2 ^ 1023); (2 ^ 1020, 3); (2 ^ 1024, 5);
     (123456789, 2 ^ 1023 + 2 ^ 1000)]
  = true.
Proof. by vm_compute. Qed.

Example double_third :
  match Double.round64 (1 # 3) with
  | Double.Fin q => Qred q = (6004799503160661 # 18014398509481984)%Q
  | _ => False
  end.
Proof. by vm_compute. Qed.

(** Number to string: plain digits up to 21 of them, of which only the
    shortest run that identifies the double is significant, and the
    exponent form beyond. *)
Example number_texts :
  List.map Double.number_text
    [0; -42; 9007199254740993; 2 ^ 60; 10 ^ 20; 10 ^ 21;
     123456789012345678901234567890; 2 ^ 1024]
  = ["0"; "-42"; "9007199254740992"; "1152921504606847000";
     "100000000000000000000"; "1e+21"; "1.2345678901234568e+29";
     "Infinity"].
Proof. by vm_compute. Qed.

Example progress_thirds :
  List.map (fun l => Upload.progress l 3) [0; 1; 2; 3]
  = [Double.Fin 0; Double.Fin 33; Double.Fin 67; Double.Fin 100].
Proof. by vm_compute. Qed.

End Runs.

(* ===================================================================== *)
(** ** Doubles *)
(* ===================================================================== *)

Section DoubleFacts.

Import Double.
Local Open Scope Q_scope.

Lemma pow2_pos (k : Z) : 0 < pow2 k.
Proof. apply Qpower_0_lt. reflexivity. Qed.

Lemma pow2_add (a b : Z) : pow2 (a + b) == pow2 a * pow2 b.
Proof. apply Qpower_plus. discriminate. Qed.

Lemma pow2_Z (k : Z) : (0 <= k)%Z -> pow2 k == inject_Z (2 ^ k).
Proof. intros Hk. unfold pow2. by rewrite (Zpower_Qpower 2 k Hk). Qed.

Lemma pow2_le (a b : Z) : (a <= b)%Z -> pow2 a <= pow2 b.
Proof. intros H. apply Qpower_le_compat_l; [done|]. discriminate. Qed.

Lemma pow2_lt (a b : Z) : (a < b)%Z -> pow2 a < pow2 b.
Proof. intros H. apply Qpower_lt_compat_l; [done|]. reflexivity. Qed.

Lemma pow2_lt_inv (a b : Z) : pow2 a < pow2 b -> (a < b)%Z.
Proof.
  intros H. destruct (Z_lt_le_dec a b) as [|Hle]; [done|].
  apply pow2_le in Hle. apply Qle_not_lt in Hle. tauto.
Qed.


Lemma ilog2_spec (q : Q) :
  0 < q -> pow2 (ilog2 q) <= q /\ q < pow2 (ilog2 q + 1).
Proof.
  destruct q as [n d]. intros Hq.
  assert (Hn : (0 < n)%Z) by (unfold Qlt in Hq; simpl in Hq; lia).
  pose proof (Z.log2_spec n Hn) as [Ha1 Ha2].
  pose proof (Z.log2_spec (Zpos d) (Pos2Z.is_pos d)) as [Hb1 Hb2].
  pose proof (Z.log2_nonneg n) as Ha0.
  pose proof (Z.log2_nonneg (Zpos d)) as Hb0.
  unfold ilog2. cbn [Qnum Qden].
  set (a := Z.log2 n) in *. set (b := Z.log2 (Zpos d)) in *.
  assert (Hup : n # d < pow2 (a - b + 1)).
  { apply (Qmult_lt_r _ _ (pow2 b)); [apply pow2_pos|].
    rewrite <- pow2_add. replace (a - b + 1 + b)%Z with (a + 1)%Z by lia.
    rewrite !pow2_Z by lia. unfold Qlt, Qmult, inject_Z. cbn [Qnum Qden].
    rewrite Pos2Z.inj_mul. change (Z.succ a) with (a + 1)%Z in Ha2. nia. }
  assert (Hlo : pow2 (a - b - 1) <= n # d).
  { apply (Qmult_le_r _ _ (pow2 (b + 1))); [apply pow2_pos|].
    rewrite <- pow2_add. replace (a - b - 1 + (b + 1))%Z with a by lia.
    rewrite !pow2_Z by lia. unfold Qle, Qmult, inject_Z. cbn [Qnum Qden].
    rewrite Pos2Z.inj_mul. change (Z.succ b) with (b + 1)%Z in Hb2. nia. }
  destruct (Qle_bool (pow2 (a - b)) (n # d)) eqn:E.
  - apply Qle_bool_iff in E. by split.
  - split; [done|]. replace (a - b - 1 + 1)%Z with (a - b)%Z by lia.
    apply Qnot_le_lt. intros H. apply Qle_bool_iff in H. congruence.
Qed.

Lemma floor_frac (y : Q) :
  inject_Z (Qfloor y) <= y /\ y < inject_Z (Qfloor y) + 1.
Proof.
  pose proof (Qfloor_le y) as H1. pose proof (Qlt_floor y) as H2.
  rewrite inject_Z_plus in H2. change (inject_Z 1) with 1 in H2. by split.
Qed.

(** [rne y] is one of the two integers around [y], at most a half away *)
Lemma rne_bounds (y : Q) :
  inject_Z (rne y) - (1 # 2) <= y /\ y <= inject_Z (rne y) + (1 # 2).
Proof.
  unfold rne. destruct (floor_frac y) as [H0 H1].
  set (f := Qfloor y) in *.
  destruct (Qcompare_spec (y - inject_Z f) (1 # 2)) as [E|E|E];
    [destruct (Z.even f)| |]; rewrite ?inject_Z_plus;
    change (inject_Z 1) with 1; lra.
Qed.

Lemma rne_floor (y : Q) : (Qfloor y <= rne y <= Qfloor y + 1)%Z.
Proof.
  unfold rne. destruct (_ ?= _); [destruct (Z.even _)| |]; lia.
Qed.

Lemma rne_Z (y : Q) (z : Z) : y == inject_Z z -> rne y = z.
Proof.
  intros Hy. unfold rne.
  assert (Hf : Qfloor y = z) by (rewrite Hy; apply Qfloor_Z).
  rewrite Hf. destruct (Qcompare_spec (y - inject_Z z) (1 # 2)); try lra.
  done.
Qed.

Lemma rne_mono (x y : Q) : x <= y -> (rne x <= rne y)%Z.
Proof.
  intros Hxy. pose proof (Qfloor_resp_le _ _ Hxy) as Hf.
  pose proof (rne_floor x) as Hx. pose proof (rne_floor y) as Hy.
  destruct (Z.eq_dec (Qfloor x) (Qfloor y)) as [E|E]; [|lia].
  unfold rne in *. rewrite <- E in *.
  set (f := Qfloor x) in *.
  destruct (Qcompare_spec (x - inject_Z f) (1 # 2)) as [Ex|Ex|Ex];
    destruct (Qcompare_spec (y - inject_Z f) (1 # 2)) as [Ey|Ey|Ey];
    try lia; try lra; destruct (Z.even f); lia.
Qed.


Lemma pow2_inv (k : Z) : pow2 (- k) * pow2 k == 1.
Proof. rewrite <- pow2_add. by replace (- k + k)%Z with 0%Z by lia. Qed.

(** Numbers from [2^-1022] on are in the normal range *)
Lemma normal_exponent (q : Q) :
  pow2 (-1022) <= q -> Z.max (ilog2 q - 52) (-1074) = (ilog2 q - 52)%Z.
Proof.
  intros Hq.
  assert (H0 : 0 < q) by (pose proof (pow2_pos (-1022)); lra).
  destruct (ilog2_spec q H0) as [_ Hup].
  assert (Hlt : pow2 (-1022) < pow2 (ilog2 q + 1)) by lra.
  apply pow2_lt_inv in Hlt. lia.
Qed.

Lemma nearest_normal (q : Q) :
  pow2 (-1022) <= q ->
  nearest q = inject_Z (rne (q * pow2 (- (ilog2 q - 52)))) * pow2 (ilog2 q - 52).
Proof. intros Hq. unfold nearest. by rewrite (normal_exponent q Hq). Qed.

(** The rounding error is at most half a unit in the last place *)
Lemma nearest_error (q : Q) :
  pow2 (-1022) <= q ->
  let ulp := pow2 (ilog2 q - 52) in
  nearest q - ulp * (1 # 2) <= q /\ q <= nearest q + ulp * (1 # 2).
Proof.
  intros Hq ulp. rewrite (nearest_normal q Hq). fold ulp.
  set (c := pow2 (- (ilog2 q - 52))).
  assert (Hc : c * ulp == 1) by apply pow2_inv.
  assert (Hu : 0 < ulp) by apply pow2_pos.
  destruct (rne_bounds (q * c)) as [H1 H2].
  set (r := inject_Z (rne (q * c))) in *.
  assert (Hq' : q == q * c * ulp) by (rewrite <- Qmult_assoc, Hc; ring).
  split.
  - rewrite Hq' at 1.
    setoid_replace (r * ulp - ulp * (1 # 2)) with ((r - (1 # 2)) * ulp) using relation Qeq by ring.
    apply Qmult_le_compat_r; lra.
  - rewrite Hq' at 1.
    setoid_replace (r * ulp + ulp * (1 # 2)) with ((r + (1 # 2)) * ulp) using relation Qeq by ring.
    apply Qmult_le_compat_r; lra.
Qed.

Lemma nearest_bounds (q : Q) :
  pow2 (-1022) <= q ->
  pow2 (ilog2 q) <= nearest q /\ nearest q <= pow2 (ilog2 q + 1).
Proof.
  intros Hq. rewrite (nearest_normal q Hq).
  assert (H0 : 0 < q) by (pose proof (pow2_pos (-1022)); lra).
  destruct (ilog2_spec q H0) as [Hlo Hup].
  set (e := ilog2 q) in *.
  set (c := pow2 (- (e - 52))). set (ulp := pow2 (e - 52)).
  assert (Hc : 0 < c) by apply pow2_pos.
  assert (Hu : 0 < ulp) by apply pow2_pos.
  assert (H52 : pow2 52 <= q * c).
  { setoid_replace (pow2 52) with (pow2 e * c) using relation Qeq.
    - apply Qmult_le_compat_r; lra.
    - unfold c. rewrite <- pow2_add. by replace (e + - (e - 52))%Z with 52%Z by lia. }
  assert (H53 : q * c <= pow2 53).
  { setoid_replace (pow2 53) with (pow2 (e + 1) * c) using relation Qeq.
    - apply Qmult_le_compat_r; lra.
    - unfold c. rewrite <- pow2_add. by replace (e + 1 + - (e - 52))%Z with 53%Z by lia. }
  apply rne_mono in H52, H53.
  rewrite (rne_Z (pow2 52) (2 ^ 52)) in H52 by by apply pow2_Z.
  rewrite (rne_Z (pow2 53) (2 ^ 53)) in H53 by by apply pow2_Z.
  split.
  - setoid_replace (pow2 e) with (inject_Z (2 ^ 52) * ulp) using relation Qeq.
    + apply Qmult_le_compat_r; [|lra]. by rewrite <- Zle_Qle.
    + rewrite <- (pow2_Z 52) by done. unfold ulp. rewrite <- pow2_add.
      by replace (52 + (e - 52))%Z with e by lia.
  - setoid_replace (pow2 (e + 1)) with (inject_Z (2 ^ 53) * ulp) using relation Qeq.
    + apply Qmult_le_compat_r; [|lra]. by rewrite <- Zle_Qle.
    + rewrite <- (pow2_Z 53) by done. unfold ulp. rewrite <- pow2_add.
      by replace (53 + (e - 52))%Z with (e + 1)%Z by lia.
Qed.

Lemma ilog2_mono (x y : Q) : 0 < x -> x <= y -> (ilog2 x <= ilog2 y)%Z.
Proof.
  intros Hx Hxy. assert (Hy : 0 < y) by lra.
  destruct (ilog2_spec x Hx) as [H1 _]. destruct (ilog2_spec y Hy) as [_ H2].
  assert (Hlt : pow2 (ilog2 x) < pow2 (ilog2 y + 1)) by lra.
  apply pow2_lt_inv in Hlt. lia.
Qed.

Lemma nearest_mono (x y : Q) :
  pow2 (-1022) <= x -> x <= y -> nearest x <= nearest y.
Proof.
  intros Hx Hxy. assert (Hy : pow2 (-1022) <= y) by lra.
  assert (H0 : 0 < x) by (pose proof (pow2_pos (-1022)); lra).
  pose proof (ilog2_mono x y H0 Hxy) as He.
  destruct (Z.eq_dec (ilog2 x) (ilog2 y)) as [E|E].
  - rewrite (nearest_normal x Hx), (nearest_normal y Hy), E.
    apply Qmult_le_compat_r; [|apply Qlt_le_weak, pow2_pos].
    rewrite <- Zle_Qle. apply rne_mono.
    apply Qmult_le_compat_r; [done|apply Qlt_le_weak, pow2_pos].
  - destruct (nearest_bounds x Hx) as [_ H1].
    destruct (nearest_bounds y Hy) as [H2 _].
    assert (H3 : pow2 (ilog2 x + 1) <= pow2 (ilog2 y)) by (apply pow2_le; lia).
    lra.
Qed.


Lemma ilog2_unique (q : Q) (e : Z) :
  pow2 e <= q -> q < pow2 (e + 1) -> ilog2 q = e.
Proof.
  intros Hlo Hup.
  assert (H0 : 0 < q) by (pose proof (pow2_pos e); lra).
  destruct (ilog2_spec q H0) as [H1 H2].
  assert (Ha : pow2 e < pow2 (ilog2 q + 1)) by lra.
  assert (Hb : pow2 (ilog2 q) < pow2 (e + 1)) by lra.
  apply pow2_lt_inv in Ha, Hb. lia.
Qed.

Lemma ilog2_comp (x y : Q) : 0 < x -> x == y -> ilog2 x = ilog2 y.
Proof.
  intros Hx Hxy. destruct (ilog2_spec x Hx) as [H1 H2].
  symmetry. apply ilog2_unique; lra.
Qed.

Lemma rne_comp (x y : Q) : x == y -> rne x = rne y.
Proof.
  intros Hxy. unfold rne. assert (Hf : Qfloor x = Qfloor y) by by rewrite Hxy.
  rewrite Hf.
  assert (Hc : (x - inject_Z (Qfloor y) ?= 1 # 2) = (y - inject_Z (Qfloor y) ?= 1 # 2))
    by by rewrite Hxy.
  by rewrite Hc.
Qed.

Lemma nearest_comp (x y : Q) : 0 < x -> x == y -> nearest x = nearest y.
Proof.
  intros Hx Hxy. unfold nearest. rewrite (ilog2_comp x y Hx Hxy).
  f_equal. f_equal. apply rne_comp. by rewrite Hxy.
Qed.

(** A number whose significand fits is its own rounding *)
Lemma nearest_exact (q : Q) (m : Z) :
  pow2 (-1022) <= q ->
  q * pow2 (- (ilog2 q - 52)) == inject_Z m -> nearest q == q.
Proof.
  intros Hq Hm. rewrite (nearest_normal q Hq), (rne_Z _ m Hm), <- Hm.
  rewrite <- Qmult_assoc, pow2_inv. ring.
Qed.

Lemma pow2_m1022_le_1 : pow2 (-1022) <= 1.
Proof. change 1 with (pow2 0). by apply pow2_le. Qed.

(** The integers below [2^53] are doubles *)
Lemma nearest_Z (z : Z) :
  (0 < z < 2 ^ 53)%Z -> nearest (inject_Z z) == inject_Z z.
Proof.
  intros [Hz Hz53].
  assert (H1 : 1 <= inject_Z z).
  { change 1 with (inject_Z 1). rewrite <- Zle_Qle. lia. }
  pose proof pow2_m1022_le_1 as Hmin.
  assert (Hq : pow2 (-1022) <= inject_Z z) by lra.
  assert (H0 : 0 < inject_Z z) by lra.
  destruct (ilog2_spec _ H0) as [Hlo Hup].
  set (e := ilog2 (inject_Z z)) in *.
  assert (He0 : (0 <= e)%Z).
  { assert (Hlt : pow2 0 < pow2 (e + 1)) by (change (pow2 0) with 1; lra).
    apply pow2_lt_inv in Hlt. lia. }
  assert (He52 : (e <= 52)%Z).
  { assert (Hlt : pow2 e < pow2 53).
    { rewrite (pow2_Z 53) by done. apply (Qle_lt_trans _ (inject_Z z)); [done|].
      by rewrite <- Zlt_Qlt. }
    apply pow2_lt_inv in Hlt. lia. }
  apply (nearest_exact _ (z * 2 ^ (52 - e))); [done|]. fold e.
  replace (- (e - 52))%Z with (52 - e)%Z by lia.
  rewrite (pow2_Z (52 - e)) by lia. by rewrite inject_Z_mult.
Qed.

Lemma floor_unique (x : Q) (k : Z) :
  inject_Z k <= x -> x < inject_Z k + 1 -> Qfloor x = k.
Proof.
  intros H1 H2. destruct (floor_frac x) as [H3 H4].
  assert (Ha : inject_Z k < inject_Z (Qfloor x + 1)).
  { rewrite inject_Z_plus. change (inject_Z 1) with 1. lra. }
  assert (Hb : inject_Z (Qfloor x) < inject_Z (k + 1)).
  { rewrite inject_Z_plus. change (inject_Z 1) with 1. lra. }
  rewrite <- Zlt_Qlt in Ha, Hb. lia.
Qed.


Lemma nearest_le_double (q : Q) : pow2 (-1022) <= q -> nearest q <= 2 * q.
Proof.
  intros Hq. destruct (nearest_bounds q Hq) as [_ H].
  assert (H0 : 0 < q) by (pose proof (pow2_pos (-1022)); lra).
  destruct (ilog2_spec q H0) as [Hlo _].
  rewrite pow2_add in H. change (pow2 1) with 2 in H. lra.
Qed.

Lemma nearest_pos (q : Q) : pow2 (-1022) <= q -> 0 < nearest q.
Proof.
  intros Hq. destruct (nearest_bounds q Hq) as [H _].
  pose proof (pow2_pos (ilog2 q)). lra.
Qed.

Lemma round64_pos (q : Q) :
  0 < q -> nearest q < pow2 1024 -> round64 q = Fin (nearest q).
Proof.
  intros Hq Hv. unfold round64.
  destruct (Qcompare_spec q 0) as [E|E|E]; try lra.
  destruct (Qle_bool (pow2 1024) (nearest q)) eqn:Hb; [|done].
  apply Qle_bool_iff in Hb. lra.
Qed.

Lemma round64_zero (q : Q) : q == 0 -> round64 q = Fin 0.
Proof.
  intros Hq. unfold round64. destruct (Qcompare_spec q 0) as [E|E|E]; try lra.
  done.
Qed.

Lemma below_2_1010 (z : Z) : (z < 2 ^ 1010)%Z -> inject_Z z < pow2 1024.
Proof.
  intros Hz. apply (Qlt_trans _ (pow2 1010)); [|by apply pow2_lt].
  rewrite (pow2_Z 1010) by done. by rewrite <- Zlt_Qlt.
Qed.

Lemma inject_Z_normal (z : Z) : (0 < z)%Z -> pow2 (-1022) <= inject_Z z.
Proof.
  intros Hz. apply (Qle_trans _ 1); [apply pow2_m1022_le_1|].
  change 1 with (inject_Z 1). rewrite <- Zle_Qle. lia.
Qed.

Lemma one_normal (x : Q) : 1 <= x -> pow2 (-1022) <= x.
Proof. intros Hx. pose proof pow2_m1022_le_1. lra. Qed.

Lemma nearest_ge_1 (x : Q) : 1 <= x -> 1 <= nearest x.
Proof.
  intros Hx. rewrite <- (nearest_Z 1) by done.
  apply nearest_mono; [by apply inject_Z_normal|done].
Qed.

(** The Number value for a positive integer below [2^1000]: finite, at
    least 1 and at most twice the integer *)
Lemma of_Z_finite (z : Z) :
  (0 < z < 2 ^ 1000)%Z ->
  of_Z z = Fin (nearest (inject_Z z))
  /\ 1 <= nearest (inject_Z z)
  /\ nearest (inject_Z z) <= 2 * inject_Z z.
Proof.
  intros Hz.
  assert (H1 : 1 <= inject_Z z).
  { change 1 with (inject_Z 1). rewrite <- Zle_Qle. lia. }
  pose proof (nearest_le_double _ (one_normal _ H1)) as H2.
  split_and!; [|by apply nearest_ge_1|done].
  unfold of_Z. apply round64_pos; [lra|].
  apply (Qle_lt_trans _ _ _ H2).
  change 2 with (inject_Z 2). rewrite <- inject_Z_mult.
  apply below_2_1010. lia.
Qed.

Lemma of_Z_100 : of_Z 100 = Fin (nearest 100) /\ nearest 100 == 100.
Proof.
  split; [|by apply (nearest_Z 100)].
  by destruct (of_Z_finite 100 ltac:(done)) as [-> _].
Qed.

Lemma product_bounds (L : Q) :
  1 <= L -> 1 <= nearest (L * 100) /\ nearest (L * 100) <= 200 * L.
Proof.
  intros HL. assert (H1 : 1 <= L * 100) by lra. split.
  - by apply nearest_ge_1.
  - pose proof (nearest_le_double _ (one_normal _ H1)). lra.
Qed.

Lemma ratio_normal (x T : Q) :
  1 <= T -> T < pow2 1001 -> 1 <= x ->
  pow2 (-1022) <= x / T /\ x / T <= x.
Proof.
  intros HT HT' Hx. split.
  - apply Qle_shift_div_l; [lra|].
    apply (Qle_trans _ (pow2 (-1022) * pow2 1001)).
    + apply Qmult_le_l; [apply pow2_pos|lra].
    + rewrite <- pow2_add. apply (Qle_trans _ 1); [|done].
      change 1 with (pow2 0). by apply pow2_le.
  - apply Qle_shift_div_r; [lra|].
    rewrite <- (Qmult_1_r x) at 1. apply Qmult_le_l; lra.
Qed.

Lemma count_below (z : Z) (T : Q) :
  (0 < z < 2 ^ 1000)%Z -> T <= 2 * inject_Z z -> T < pow2 1001.
Proof.
  intros Hz HT. apply (Qle_lt_trans _ _ _ HT).
  rewrite (pow2_Z 1001) by done.
  change 2 with (inject_Z 2). rewrite <- inject_Z_mult, <- Zlt_Qlt.
  change (2 ^ 1001)%Z with (2 * 2 ^ 1000)%Z. lia.
Qed.

Lemma progress_reading (l t : Z) :
  (0 < l < 2 ^ 1000)%Z -> (0 < t < 2 ^ 1000)%Z ->
  Upload.progress l t = Fin (inject_Z (Qfloor (quotient l t + (1 # 2)))).
Proof.
  intros Hl Ht. unfold Upload.progress, quotient.
  destruct (of_Z_finite l Hl) as (-> & HL1 & HL2).
  destruct (of_Z_finite t Ht) as (-> & HT1 & HT2).
  destruct of_Z_100 as [-> H100]. cbn [mul].
  set (L := nearest (inject_Z l)) in *. set (T := nearest (inject_Z t)) in *.
  destruct (product_bounds L HL1) as [Hp1 Hp2].
  assert (Hcomp : nearest (L * nearest 100) = nearest (L * 100)).
  { apply nearest_comp; [rewrite H100; lra|by rewrite H100]. }
  assert (Hbig : inject_Z (800 * l) < pow2 1024) by (apply below_2_1010; lia).
  rewrite inject_Z_mult in Hbig. change (inject_Z 800) with 800 in Hbig.
  rewrite round64_pos; [|rewrite H100; lra|rewrite Hcomp; lra].
  rewrite Hcomp. cbn [div].
  set (x := nearest (L * 100)) in *.
  destruct (Qcompare_spec T 0) as [E|E|E]; try lra.
  destruct (ratio_normal x T HT1 (count_below t T Ht HT2) Hp1) as [Hr1 Hr2].
  pose proof (nearest_le_double _ Hr1) as Hd.
  pose proof (pow2_pos (-1022)) as Hpos.
  rewrite round64_pos; [done|lra|lra].
Qed.

Lemma progress_zero (t : Z) :
  (0 < t < 2 ^ 1000)%Z -> Upload.progress 0 t = Fin 0.
Proof.
  intros Ht. unfold Upload.progress.
  destruct (of_Z_finite t Ht) as (-> & HT1 & _).
  destruct of_Z_100 as [-> _].
  change (of_Z 0) with (Fin 0). cbn [mul].
  rewrite (round64_zero (0 * _)) by ring. cbn [div].
  destruct (Qcompare_spec (nearest (inject_Z t)) 0) as [E|E|E]; try lra.
  rewrite round64_zero; [done|]. unfold Qdiv. ring.
Qed.

Lemma quotient_mono (l1 l2 t : Z) :
  (0 < l1 <= l2)%Z -> (l2 < 2 ^ 1000)%Z -> (0 < t < 2 ^ 1000)%Z ->
  quotient l1 t <= quotient l2 t.
Proof.
  intros Hl1 Hl2 Ht. unfold quotient.
  destruct (of_Z_finite l1 ltac:(lia)) as (_ & HL1 & _).
  destruct (of_Z_finite t Ht) as (_ & HT1 & HT2).
  destruct (product_bounds _ HL1) as [Hp1 _].
  destruct (ratio_normal _ _ HT1 (count_below t _ Ht HT2) Hp1) as [Hr1 _].
  apply nearest_mono; [done|].
  apply Qmult_le_compat_r.
  - apply nearest_mono; [apply one_normal; lra|].
    apply Qmult_le_compat_r; [|lra].
    apply nearest_mono; [apply inject_Z_normal; lia|].
    rewrite <- Zle_Qle. lia.
  - apply Qlt_le_weak, Qinv_lt_0_compat. lra.
Qed.

Lemma quotient_nonneg (l t : Z) :
  (0 < l < 2 ^ 1000)%Z -> (0 < t < 2 ^ 1000)%Z -> 0 < quotient l t.
Proof.
  intros Hl Ht. unfold quotient.
  destruct (of_Z_finite l Hl) as (_ & HL1 & _).
  destruct (of_Z_finite t Ht) as (_ & HT1 & HT2).
  destruct (product_bounds _ HL1) as [Hp1 _].
  destruct (ratio_normal _ _ HT1 (count_below t _ Ht HT2) Hp1) as [Hr1 _].
  by apply nearest_pos.
Qed.

Lemma pow2_m52 : pow2 (-52) == 1 # 4503599627370496.
Proof. reflexivity. Qed.

(** A whole payload gives a quotient that rounds to 100 *)
Lemma quotient_complete (t : Z) :
  (0 < t < 2 ^ 1000)%Z -> Qfloor (quotient t t + (1 # 2)) = 100%Z.
Proof.
  intros Ht. unfold quotient.
  destruct (of_Z_finite t Ht) as (_ & HT1 & HT2).
  set (T := nearest (inject_Z t)) in *.
  assert (H1 : 1 <= T * 100) by lra.
  destruct (nearest_error _ (one_normal _ H1)) as [He1 He2].
  cbv zeta in He1, He2.
  assert (H0 : 0 < T * 100) by lra.
  destruct (ilog2_spec _ H0) as [Hlo _].
  set (e := ilog2 (T * 100)) in *.
  assert (Hulp : pow2 (e - 52) == pow2 e * (1 # 4503599627370496)).
  { rewrite <- pow2_m52, <- pow2_add. by replace (e + -52)%Z with (e - 52)%Z by lia. }
  rewrite Hulp in He1, He2.
  set (x := nearest (T * 100)) in *.
  assert (H2 : (399 # 4) <= x / T) by (apply Qle_shift_div_l; lra).
  assert (H3 : x / T <= (401 # 4)) by (apply Qle_shift_div_r; lra).
  assert (Hlow : pow2 (-1022) <= 399 # 4) by (apply one_normal; by unfold Qle).
  assert (H4 : nearest (399 # 4) <= nearest (x / T)) by by apply nearest_mono.
  assert (H5 : nearest (x / T) <= nearest (401 # 4)).
  { apply nearest_mono; [lra|done]. }
  assert (E1 : nearest (399 # 4) == 399 # 4) by by vm_compute.
  assert (E2 : nearest (401 # 4) == 401 # 4) by by vm_compute.
  apply floor_unique; change (inject_Z 100) with 100; lra.
Qed.

(** Byte counts below [2^53] enter the quotient as they are *)
Lemma quotient_safe (l t : Z) :
  (0 < l)%Z -> (l * 100 < 2 ^ 53)%Z -> (0 < t < 2 ^ 53)%Z ->
  quotient l t = nearest (inject_Z (l * 100) / inject_Z t).
Proof.
  intros Hl Hl53 Ht. unfold quotient.
  assert (HL : nearest (inject_Z l) == inject_Z l) by (apply nearest_Z; lia).
  assert (HT : nearest (inject_Z t) == inject_Z t) by by apply nearest_Z.
  assert (H1 : 1 <= inject_Z l).
  { change 1 with (inject_Z 1). rewrite <- Zle_Qle. lia. }
  assert (HT1 : 1 <= inject_Z t).
  { change 1 with (inject_Z 1). rewrite <- Zle_Qle. lia. }
  assert (Hin : nearest (nearest (inject_Z l) * 100) == inject_Z (l * 100)).
  { rewrite <- (nearest_Z (l * 100)) by lia.
    assert (E : nearest (nearest (inject_Z l) * 100)
                = nearest (inject_Z (l * 100))); [|by rewrite E].
    apply nearest_comp; [rewrite HL; lra|].
    by rewrite HL, inject_Z_mult. }
  assert (H100 : 1 <= inject_Z (l * 100)).
  { change 1 with (inject_Z 1). rewrite <- Zle_Qle. lia. }
  apply nearest_comp.
  - rewrite Hin, HT. apply Qlt_shift_div_l; lra.
  - by rewrite Hin, HT.
Qed.

Lemma scaled_floor (r k H : Z) (P Pi : Q) :
  (0 < H)%Z -> P == inject_Z (2 * H) -> Pi * P == 1 ->
  ((2 * k - 1) * H <= r <= (2 * k + 1) * H - 1)%Z ->
  Qfloor (inject_Z r * Pi + (1 # 2)) = k.
Proof.
  intros HH HP Hinv [Hr1 Hr2].
  assert (HP0 : 0 < P).
  { rewrite HP. change 0 with (inject_Z 0). rewrite <- Zlt_Qlt. lia. }
  assert (E : (inject_Z r * Pi + (1 # 2)) * P == inject_Z r + (1 # 2) * P).
  { rewrite Qmult_plus_distr_l, <- Qmult_assoc, Hinv. ring. }
  assert (Ha : (2 * (k * H) <= r + H)%Z) by lia.
  assert (Hb : (r + 1 <= 2 * (k * H) + H)%Z) by lia.
  rewrite Zle_Qle in Ha. rewrite Zle_Qle in Hb.
  rewrite !inject_Z_plus, !inject_Z_mult in Ha.
  rewrite !inject_Z_plus, !inject_Z_mult in Hb.
  change (inject_Z 2) with 2 in *. change (inject_Z 1) with 1 in *.
  apply floor_unique.
  - apply (Qmult_le_r _ _ P HP0).
    rewrite E, HP, inject_Z_mult. change (inject_Z 2) with 2. lra.
  - apply (Qmult_lt_r _ _ P HP0).
    rewrite E, HP, inject_Z_mult. change (inject_Z 2) with 2. lra.
Qed.


(** Below [2^46] bytes the double quotient rounds as the exact one *)
Lemma quotient_exact (l t : Z) :
  (0 < l <= t)%Z -> (t < 2 ^ 46)%Z ->
  Qfloor (quotient l t + (1 # 2)) = percent l t.
Proof.
  intros Hl Ht. rewrite (quotient_safe l t) by lia. unfold percent.
  assert (Hl53 : (0 < l * 100 < 2 ^ 53)%Z) by lia.
  assert (Ht53 : (0 < t < 2 ^ 53)%Z) by lia.
  set (a := (l * 100)%Z) in *. set (T := inject_Z t).
  assert (HT : 1 <= T).
  { unfold T. change 1 with (inject_Z 1). rewrite <- Zle_Qle. lia. }
  assert (Ha1 : 1 <= inject_Z a).
  { change 1 with (inject_Z 1). rewrite <- Zle_Qle. lia. }
  assert (HT' : T < pow2 1001).
  { apply (Qlt_trans _ (pow2 53)); [|by apply pow2_lt].
    rewrite (pow2_Z 53) by done. unfold T. rewrite <- Zlt_Qlt. lia. }
  destruct (ratio_normal (inject_Z a) T HT HT' Ha1) as [Hn _].
  assert (Hq0 : 0 < inject_Z a / T) by (pose proof (pow2_pos (-1022)); lra).
  rewrite (nearest_normal _ Hn).
  set (q0 := inject_Z a / T) in *.
  assert (HqT : q0 * T == inject_Z a) by (unfold q0; field; lra).
  destruct (ilog2_spec q0 Hq0) as [Hlo _].
  set (e := ilog2 q0) in *.
  assert (Hq100 : q0 <= 100).
  { unfold q0. apply Qle_shift_div_r; [lra|]. unfold T.
    change 100 with (inject_Z 100). rewrite <- inject_Z_mult, <- Zle_Qle. lia. }
  assert (He : (e <= 6)%Z).
  { assert (Hlt : pow2 e < pow2 7).
    { apply (Qle_lt_trans _ 100); [lra|]. by vm_compute. }
    apply pow2_lt_inv in Hlt. lia. }
  set (s := (52 - e)%Z).
  replace (- (e - 52))%Z with s by lia.
  replace (e - 52)%Z with (- s)%Z by lia.
  set (H := (2 ^ (s - 1))%Z).
  assert (HH : (2 ^ 45 <= H)%Z) by (apply Z.pow_le_mono_r; lia).
  assert (HP : pow2 s == inject_Z (2 * H)).
  { rewrite (pow2_Z s) by lia. unfold H.
    by rewrite <- (Z.pow_succ_r 2 (s - 1)), Z.sub_1_r, Z.succ_pred by lia. }
  destruct (floor_frac (q0 + (1 # 2))) as [Hk1 Hk2].
  set (k := Qfloor (q0 + (1 # 2))) in *.
  assert (HZ : (a * 2 + 1 <= (2 * k + 1) * t)%Z).
  { assert (Hlt : inject_Z (a * 2) < inject_Z ((2 * k + 1) * t)).
    { rewrite !inject_Z_mult, inject_Z_plus, inject_Z_mult. fold T.
      change (inject_Z 2) with 2. change (inject_Z 1) with 1.
      assert (Hx : (q0 + (1 # 2) - inject_Z k - 1) * T < 0 * T).
      { apply Qmult_lt_compat_r; lra. }
      lra. }
    rewrite <- Zlt_Qlt in Hlt. lia. }
  set (y := q0 * pow2 s).
  destruct (rne_bounds y) as [Hr1 _]. pose proof (rne_floor y) as [Hr2 _].
  apply (scaled_floor _ k H (pow2 s)); [lia|done|apply pow2_inv|]. split.
  - apply (Z.le_trans _ (Qfloor y)); [|done].
    rewrite <- (Qfloor_Z ((2 * k - 1) * H)). apply Qfloor_resp_le.
    unfold y. rewrite HP.
    assert (E : inject_Z ((2 * k - 1) * H)
                == (inject_Z k - (1 # 2)) * inject_Z (2 * H)).
    { replace ((2 * k - 1) * H)%Z with (2 * (k * H) + - H)%Z by lia.
      rewrite inject_Z_plus, inject_Z_opp, !inject_Z_mult.
      change (inject_Z 2) with 2. ring. }
    rewrite E. apply Qmult_le_compat_r; [lra|].
    change 0 with (inject_Z 0). rewrite <- Zle_Qle. lia.
  - assert (Hy : y < inject_Z ((2 * k + 1) * H) - (1 # 2)).
    { apply (Qmult_lt_r _ _ T); [lra|].
      assert (E1 : y * T == inject_Z (a * (2 * H))).
      { unfold y. rewrite HP, (inject_Z_mult a), <- HqT. ring. }
      assert (E2 : (inject_Z ((2 * k + 1) * H) - (1 # 2)) * T
                   == inject_Z (2 * ((2 * k + 1) * H * t) + - t) * (1 # 2)).
      { rewrite inject_Z_plus, inject_Z_opp, !inject_Z_mult. fold T.
        change (inject_Z 2) with 2. ring. }
      rewrite E1, E2.
      assert (HZ2 : (2 * (a * (2 * H)) < 2 * ((2 * k + 1) * H * t) + - t)%Z) by nia.
      rewrite Zlt_Qlt in HZ2. rewrite inject_Z_mult in HZ2.
      change (inject_Z 2) with 2 in HZ2. lra. }
    assert (Hlt : inject_Z (rne y) < inject_Z ((2 * k + 1) * H)) by lra.
    rewrite <- Zlt_Qlt in Hlt. lia.
Qed.

End DoubleFacts.

(* ===================================================================== *)
(** ** The error normalizer *)
(* ===================================================================== *)

Ltac split_truthy :=
  match goal with
  | |- context [truthy ?v] => destruct (truthy v) eqn:?; simpl
  end.

Section NormalizerFacts.

Lemma get_defined (error : Value) (k : string) :
  nullish error = false -> get (E := NeuralNexusError) error k = Ok (prop error k).
Proof. by destruct error. Qed.

Lemma get_opt_total (o : Value) (k : string) :
  get_opt (E := NeuralNexusError) o k = Ok (prop o k).
Proof. by destruct o. Qed.

Lemma first_truthy_truthy (cs : list Value) (fallback : Value) :
  truthy fallback = true -> truthy (first_truthy cs fallback) = true.
Proof.
  intros Hf. induction cs as [|c cs IH]; simpl; [done|].
  by destruct (truthy c) eqn:Hc.
Qed.

Lemma decimal_nonempty (n : Z) : Double.decimal n <> "".
Proof.
  unfold Double.decimal, NilZero.string_of_int, NilZero.string_of_uint.
  destruct (Z.to_int n) as [d|d]; destruct d; simpl; discriminate.
Qed.

Lemma positive_text_nonempty (x : Z) : Double.positive_text x <> "".
Proof.
  unfold Double.positive_text.
  destruct (_ <=? 21)%nat; [apply decimal_nonempty|].
  destruct (Double.strip _) as [|d [|c rest]]; try discriminate.
  apply decimal_nonempty.
Qed.

Lemma number_text_nonempty (n : Z) : Double.number_text n <> "".
Proof.
  unfold Double.number_text.
  destruct (Double.of_Z n) as [q|[]|]; try discriminate.
  destruct (Qfloor q =? 0); [discriminate|].
  destruct (Qfloor q <? 0); [discriminate|apply positive_text_nonempty].
Qed.

Lemma truthy_string_form (v : Value) (s : string) :
  truthy v = true -> (forall xs, v <> VArr xs) ->
  to_string (E := NeuralNexusError) v = Ok s -> s <> "".
Proof.
  intros Ht Harr. destruct v as [| |b|n|s'|xs|fs]; simpl in *; try discriminate.
  - destruct b; intros [= <-]; discriminate.
  - intros [= <-]. apply number_text_nonempty.
  - intros [= <-] ->. discriminate.
  - by destruct (Harr xs).
  - destruct (has_own "toString" fs); intros [= <-]; discriminate.
Qed.

Lemma new_NeuralNexusError_string (text : string) (cd det : Value) :
  new_NeuralNexusError (VStr text) cd det
    = Ok (new_NeuralNexusError_text text cd det).
Proof. reflexivity. Qed.

Lemma errorMessage_reading (error : Value) :
  nullish error = false ->
  Normalizer.errorMessage error =
    Ok (first_truthy
          [at_path error ["response"; "data"; "error"; "message"];
           at_path error ["response"; "data"; "message"];
           at_path error ["message"]]
          (VStr "Unknown error occurred")).
Proof.
  intros Hn.
  unfold Normalizer.errorMessage, Normalizer.nested, Normalizer.flat,
    Normalizer.response_data, mbind, result_bind, or_else.
  rewrite !(get_defined _ _ Hn). simpl.
  repeat (rewrite ?get_opt_total; simpl; try split_truthy).
  all: done.
Qed.

Lemma errorCode_reading (error : Value) :
  nullish error = false ->
  Normalizer.errorCode error =
    Ok (first_truthy
          [at_path error ["response"; "data"; "error"; "code"];
           at_path error ["response"; "data"; "code"]]
          (VStr "API_ERROR")).
Proof.
  intros Hn.
  unfold Normalizer.errorCode, Normalizer.nested, Normalizer.flat,
    Normalizer.response_data, mbind, result_bind, or_else.
  rewrite !(get_defined _ _ Hn). simpl.
  repeat (rewrite ?get_opt_total; simpl; try split_truthy).
  all: done.
Qed.

Lemma errorDetails_reading (error : Value) :
  nullish error = false ->
  Normalizer.errorDetails error =
    Ok (first_truthy
          [at_path error ["response"; "data"; "error"; "details"];
           at_path error ["response"; "data"; "details"]]
          (VObj [("status", at_path error ["response"; "status"]);
                 ("request_id",
                  at_path error ["response"; "headers"; "x-request-id"])])).
Proof.
  intros Hn.
  unfold Normalizer.errorDetails, Normalizer.synthesized, Normalizer.nested,
    Normalizer.flat, Normalizer.response_data, mbind, result_bind, or_else.
  rewrite !(get_defined _ _ Hn). simpl.
  repeat (rewrite ?get_opt_total; simpl; try split_truthy).
  all: done.
Qed.

(** C1, as the code has it. For every failure value other than [null] and
    [undefined], the three extractions do not throw. The message is the
    string form of the first truthy value among the nested [error.message],
    the flat [message] and the raw [message], else of
    ['Unknown error occurred'], and the normalization returns the error
    object whenever that value has a string form; the code is the first
    truthy value among the nested [error.code] and the flat [code], else
    ['API_ERROR']; the details are the nested or flat [details] when
    truthy, else the object made of the status and of the [x-request-id]
    header. The chosen message and code are truthy: a message that is a
    string is stored as it is and is non-empty, any message is non-empty
    unless the chosen value is an array, and a code that is a string is
    non-empty. *)
Theorem normalize_reading (error : Value) :
  nullish error = false ->
  let m := first_truthy
             [at_path error ["response"; "data"; "error"; "message"];
              at_path error ["response"; "data"; "message"];
              at_path error ["message"]]
             (VStr "Unknown error occurred") in
  let c := first_truthy
             [at_path error ["response"; "data"; "error"; "code"];
              at_path error ["response"; "data"; "code"]]
             (VStr "API_ERROR") in
  let d := first_truthy
             [at_path error ["response"; "data"; "error"; "details"];
              at_path error ["response"; "data"; "details"]]
             (VObj [("status", at_path error ["response"; "status"]);
                    ("request_id",
                     at_path error ["response"; "headers"; "x-request-id"])]) in
  Normalizer.normalize error =
    (s ← to_string m; Ok {| message := s; code := c; details := d |})
  /\ truthy m = true
  /\ truthy c = true
  /\ (forall s, m = VStr s ->
        Normalizer.normalize error
          = Ok {| message := s; code := c; details := d |}
        /\ s <> "")
  /\ (forall s, to_string (E := NeuralNexusError) m = Ok s ->
        (forall xs, m <> VArr xs) -> s <> "")
  /\ (forall s, c = VStr s -> s <> "").
Proof.
  intros Hn m c d.
  assert (Hm : truthy m = true) by by apply first_truthy_truthy.
  assert (Hc : truthy c = true) by by apply first_truthy_truthy.
  assert (Hnorm : Normalizer.normalize error =
            (s ← to_string m; Ok {| message := s; code := c; details := d |})).
  { unfold Normalizer.normalize, mbind, result_bind.
    rewrite (errorMessage_reading _ Hn), (errorCode_reading _ Hn),
      (errorDetails_reading _ Hn).
    unfold JS.bind at 1 2 3. fold m c d. unfold new_NeuralNexusError.
    clearbody m. destruct m; try reflexivity. discriminate. }
  split_and!; try done.
  - intros s Hs. rewrite Hnorm, Hs. split; [done|].
    rewrite Hs in Hm. simpl in Hm. by intros ->.
  - intros s Hs Harr. exact (truthy_string_form m s Hm Harr Hs).
  - intros s Hs. rewrite Hs in Hc. simpl in Hc. by intros ->.
Qed.

Lemma normalize_reading_witness :
  Normalizer.normalize
    (VObj [("message", VStr "Request failed with status code 404");
           ("response",
            VObj [("status", VNum 404);
                  ("data",
                   VObj [("error",
                          VObj [("code", VStr "NOT_FOUND");
                                ("message", VStr "No such model")])])])]) =
  Ok {| message := "No such model";
        code := VStr "NOT_FOUND";
        details := VObj [("status", VNum 404); ("request_id", VUndefined)] |}.
Proof.
  destruct (normalize_reading
    (VObj [("message", VStr "Request failed with status code 404");
           ("response",
            VObj [("status", VNum 404);
                  ("data",
                   VObj [("error",
                          VObj [("code", VStr "NOT_FOUND");
                                ("message", VStr "No such model")])])])])
    eq_refl) as (_ & _ & _ & Hstring & _).
  exact (proj1 (Hstring "No such model" eq_refl)).
Defined.

(** C1 as stated fails: a body whose nested [error.message] is the empty
    array passes the [||] test, and the error built from it has the empty
    message. *)
Lemma normalize_empty_message :
  exists e,
    Normalizer.normalize
      (VObj [("message", VStr "Request failed with status code 400");
             ("response",
              VObj [("status", VNum 400);
                    ("data",
                     VObj [("error", VObj [("message", VArr [])])])])]) = Ok e
    /\ message e = "".
Proof. eexists. split; reflexivity. Qed.

End NormalizerFacts.

(* ===================================================================== *)
(** ** The emitter *)
(* ===================================================================== *)

Section EmitterFacts.

Implicit Types (events : gmap string (list Listener)) (ls : list Listener).

Lemma run_quiet ls (type : string) (args : list Thrown) :
  Forall (fun l => body l args = None) ls ->
  run ls type args = (List.map (fun l => Call (lid l) type args) ls, None).
Proof.
  induction 1 as [|l ls Hl _ IH]; simpl; [done|].
  by rewrite Hl, IH.
Qed.

Lemma run_emissions ls (type type' : string) (args : list Thrown) :
  emissions type (run ls type' args).1 = [].
Proof.
  induction ls as [|l ls IH]; simpl; [done|].
  destruct (body l args); simpl; [done|].
  by destruct (run ls type' args).
Qed.

Lemma run_sent ls (type : string) (args : list Thrown) :
  sent (run ls type args).1 = [] /\ reported (run ls type args).1 = [].
Proof.
  induction ls as [|l ls IH]; simpl; [done|].
  destruct (body l args); simpl; [done|].
  by destruct (run ls type args).
Qed.

Lemma emit_silent events (type : string) (args : list Thrown) :
  listeners events type = [] ->
  emit events type args =
    ([Emit type args],
     if String.eqb type "error" then Throw (unhandled args) else Ok false).
Proof. unfold emit. by intros ->. Qed.

Lemma emit_emissions events (type type' : string) (args : list Thrown) :
  emissions type (emit events type' args).1 =
    if String.eqb type type' then [args] else [].
Proof.
  unfold emit. destruct (listeners events type') as [|l ls] eqn:Hls.
  - simpl. by destruct (String.eqb type type').
  - pose proof (run_emissions (l :: ls) type type' args) as Hrun.
    destruct (run (l :: ls) type' args) as [eff r]. simpl in *.
    rewrite Hrun. by destruct (String.eqb type type').
Qed.

Lemma emit_sent events (type : string) (args : list Thrown) :
  sent (emit events type args).1 = []
  /\ reported (emit events type args).1 = [].
Proof.
  unfold emit. destruct (listeners events type) as [|l ls] eqn:Hls; [done|].
  pose proof (run_sent (l :: ls) type args) as Hrun.
  by destruct (run (l :: ls) type args) as [eff r].
Qed.

Lemma listeners_empty (type : string) : listeners ∅ type = [].
Proof. unfold listeners. by rewrite lookup_empty. Qed.

Lemma listeners_on events (type type' : string) (l : Listener) :
  listeners (Emitter.on events type l) type' =
    if decide (type = type') then (listeners events type ++ [l])%list
    else listeners events type'.
Proof.
  unfold Emitter.on, listeners at 1. rewrite lookup_insert.
  by case_decide; subst.
Qed.

(** Registrations on an emitter, one after the other *)
Lemma listeners_registered (fresh : list (string * Listener)) events
  (type : string) :
  listeners (fold_left (fun ev p => Emitter.on ev p.1 p.2) fresh events) type =
    (listeners events type
       ++ List.map snd (List.filter (fun p => String.eqb p.1 type) fresh))%list.
Proof.
  revert events. induction fresh as [|[ty l] fresh IH]; intros events; simpl.
  - by rewrite app_nil_r.
  - rewrite IH, listeners_on. case_decide as Hty; subst.
    + rewrite String.eqb_refl. simpl. by rewrite <- app_assoc.
    + by apply String.eqb_neq in Hty as ->.
Qed.

End EmitterFacts.

(* ===================================================================== *)
(** ** Construction *)
(* ===================================================================== *)

Section ConstructorFacts.

Import Client.

Lemma emissions_app (type : string) (e1 e2 : list Effect) :
  emissions type (e1 ++ e2) = (emissions type e1 ++ emissions type e2)%list.
Proof.
  induction e1 as [|[] e1 IH]; simpl; try done.
  destruct (String.eqb type type0); simpl; by rewrite IH.
Qed.

Lemma calls_app (e1 e2 : list Effect) :
  calls (e1 ++ e2) = (calls e1 ++ calls e2)%list.
Proof. induction e1 as [|[] e1 IH]; simpl; by rewrite ?IH. Qed.

Lemma sent_app (e1 e2 : list Effect) :
  sent (e1 ++ e2) = (sent e1 ++ sent e2)%list.
Proof. induction e1 as [|[] e1 IH]; simpl; by rewrite ?IH. Qed.

Lemma reported_app (e1 e2 : list Effect) :
  reported (e1 ++ e2) = (reported e1 ++ reported e2)%list.
Proof. induction e1 as [|[] e1 IH]; simpl; by rewrite ?IH. Qed.

Lemma consumed_app (e1 e2 : list Effect) :
  consumed (e1 ++ e2) = (consumed e1 ++ consumed e2)%list.
Proof. induction e1 as [|[] e1 IH]; simpl; by rewrite ?IH. Qed.

(** What the constructor does once both checks have passed *)
Lemma constructor_accepts (cfg : NeuralNexusConfig) :
  Str.present (apiKey cfg) = true ->
  Str.present (environment cfg) = true ->
  exists warned this,
    constructor cfg = ((warned ++ [Emit CONNECTED []])%list, Ok this)
    /\ (warned = [] \/ exists text, warned = [Warn text])
    /\ events this = ∅
    /\ token this = None
    /\ Axios.headers (axiosInstance this) !! "Authorization"
         = Some (bearer (apiKey cfg))
    /\ Axios.common (axiosInstance this) !! "Authorization" = None
    /\ apiKey (config this) = apiKey cfg.
Proof.
  intros Hk He. unfold constructor. rewrite Hk, He. simpl.
  unfold validateApiKey.
  destruct (lookup_prefix (String.substring 0 4 (interp (apiKey cfg)))
              keyPrefixes) eqn:Hp; simpl.
  - eexists [], _. split; [reflexivity|]. simpl. split_and!; auto.
  - eexists [_], _. split; [reflexivity|]. simpl. split_and!; eauto.
Qed.

(** C8. A configuration without credential or without environment (absent
    or empty) makes the constructor throw an error of the client's error
    class with the code [INVALID_CONFIG] and a non-empty message, before
    anything else has happened: no request, no emission. With both present
    the constructor returns the instance, and has sent no request. *)
Theorem constructor_validates (cfg : NeuralNexusConfig) :
  if Str.present (apiKey cfg) && Str.present (environment cfg) then
    exists eff this, constructor cfg = (eff, Ok this) /\ sent eff = []
  else
    exists e,
      constructor cfg = ([], Throw (Err e))
      /\ code e = VStr "INVALID_CONFIG"
      /\ message e <> "".
Proof.
  destruct (Str.present (apiKey cfg)) eqn:Hk;
    [destruct (Str.present (environment cfg)) eqn:He|]; simpl.
  - destruct (constructor_accepts cfg Hk He)
      as (warned & this & -> & Hw & _).
    eexists _, this. split; [done|].
    rewrite sent_app. by destruct Hw as [->|[text ->]].
  - unfold constructor. rewrite Hk, He. simpl. eexists. by split_and!.
  - unfold constructor. rewrite Hk. simpl. eexists. by split_and!.
Qed.

(** C10. The constructor emits [connected] exactly once, on its own
    emitter, which has no listener yet: no listener is invoked during
    construction, and the instance it returns has an empty registry. *)
Theorem connected_reaches_nobody (cfg : NeuralNexusConfig)
  (eff : list Effect) (this : NeuralNexus) :
  constructor cfg = (eff, Ok this) ->
  emissions CONNECTED eff = [[]]
  /\ calls eff = []
  /\ events this = ∅.
Proof.
  intros Hc.
  destruct (Str.present (apiKey cfg)) eqn:Hk;
    [destruct (Str.present (environment cfg)) eqn:He|].
  - destruct (constructor_accepts cfg Hk He)
      as (warned & this' & Hc' & Hw & Hev & _).
    rewrite Hc' in Hc. injection Hc as <- <-.
    rewrite emissions_app, calls_app.
    by destruct Hw as [->|[text ->]].
  - unfold constructor in Hc. rewrite Hk, He in Hc. simpl in Hc. congruence.
  - unfold constructor in Hc. rewrite Hk in Hc. simpl in Hc. congruence.
Qed.

Lemma connected_reaches_nobody_witness :
  emissions CONNECTED
    (constructor (Sample.cfg "npr_live_key" "development")).1 = [[]]
  /\ calls (constructor (Sample.cfg "npr_live_key" "development")).1 = []
  /\ events (Sample.client "npr_live_key") = ∅.
Proof.
  destruct (connected_reaches_nobody
              (Sample.cfg "npr_live_key" "development")
              (constructor (Sample.cfg "npr_live_key" "development")).1
              (Sample.client "npr_live_key") eq_refl)
    as (H1 & H2 & H3).
  repeat split; assumption.
Defined.

End ConstructorFacts.

(* ===================================================================== *)
(** ** Closing *)
(* ===================================================================== *)

Section CloseFacts.

Import Client.

Lemma close_quiet (this : NeuralNexus) :
  Forall (fun l => body l [] = None) (listeners (events this) DISCONNECTED) ->
  close this =
    (Emit DISCONNECTED []
       :: List.map (fun l => Call (lid l) DISCONNECTED [])
            (listeners (events this) DISCONNECTED),
     {| config := config this;
        axiosInstance := axiosInstance this;
        token := token this;
        refreshTimer := None;
        events := ∅ |},
     Ok tt).
Proof.
  intros Hq. unfold close, emit. cbn [events].
  destruct (listeners (events this) DISCONNECTED) as [|l ls]; [done|].
  cbv beta match. by rewrite (run_quiet _ _ _ Hq).
Qed.

(** C5, as the code has it. When none of the listeners registered for
    [disconnected] throws, [close()] performs one emission of
    [disconnected] that invokes each of them once per registration, in
    registration order, and returns with the registry empty for every
    event; after listeners have been registered again, the listeners of
    any event are exactly those registered since the close, in order. *)
Theorem close_notifies_then_clears (this : NeuralNexus)
  (fresh : list (string * Listener)) (type : string) :
  Forall (fun l => body l [] = None) (listeners (events this) DISCONNECTED) ->
  exists this',
    close this =
      (Emit DISCONNECTED []
         :: List.map (fun l => Call (lid l) DISCONNECTED [])
              (listeners (events this) DISCONNECTED),
       this', Ok tt)
    /\ events this' = ∅
    /\ listeners
         (events (fold_left (fun c p => on c p.1 p.2) fresh this')) type
       = List.map snd (List.filter (fun p => String.eqb p.1 type) fresh).
Proof.
  intros Hq. rewrite (close_quiet _ Hq). eexists. split_and!; try done.
  set (this' := {| events := ∅ |}).
  assert (Hev : forall fresh c,
    events (fold_left (fun c p => on c p.1 p.2) fresh c) =
    fold_left (fun ev p => Emitter.on ev p.1 p.2) fresh (events c)).
  { clear. induction fresh as [|p fresh IH]; intros c; simpl; [done|].
    by rewrite IH. }
  by rewrite Hev, listeners_registered, listeners_empty.
Qed.

Lemma close_notifies_then_clears_witness :
  exists this',
    close (on (on (Sample.client "k") DISCONNECTED (Sample.quiet 1))
             DISCONNECTED (Sample.quiet 2)) =
      ([Emit DISCONNECTED []; Call 1%nat DISCONNECTED [];
        Call 2%nat DISCONNECTED []], this', Ok tt)
    /\ events this' = ∅
    /\ List.map lid
         (listeners (events (on this' CONNECTED (Sample.quiet 3))) CONNECTED)
       = [3%nat].
Proof.
  destruct (close_notifies_then_clears
              (on (on (Sample.client "k") DISCONNECTED (Sample.quiet 1))
                 DISCONNECTED (Sample.quiet 2))
              [(CONNECTED, Sample.quiet 3)] CONNECTED)
    as (this' & Hc & He & Hl).
  - repeat constructor.
  - exists this'. split; [exact Hc|]. split; [exact He|].
    exact (f_equal (List.map lid) Hl).
Defined.

(** C5 as stated fails: with listeners 1 and 2 registered for
    [disconnected] in this order and 1 throwing, [close()] throws, listener
    2 receives nothing, and both stay registered. *)
Lemma close_aborted_by_listener :
  let this := on (on (Sample.client "k") DISCONNECTED (Sample.faulty 1))
                DISCONNECTED (Sample.quiet 2) in
  calls (close this).1.1 = [(1%nat, DISCONNECTED)]
  /\ List.map lid (listeners (events (close this).1.2) DISCONNECTED)
     = [1%nat; 2%nat]
  /\ (close this).2 = Throw (Data (VStr "listener failed")).
Proof. vm_compute. by split_and!. Qed.

End CloseFacts.

(* ===================================================================== *)
(** ** Requests *)
(* ===================================================================== *)

Section TransportFacts.

Import Client.

Variable adapter : Axios.Request -> Axios.Outcome.

Local Abbreviation error_events := (Spec.error_events adapter).

Lemma onRejected_emissions (this : NeuralNexus) (error : Value) :
  emissions ERROR (onRejected this error).1 =
    match Normalizer.normalize error with
    | Ok e => [[Err e]]
    | Throw _ => []
    end.
Proof.
  unfold onRejected. destruct (Normalizer.normalize error) as [e|x]; [|done].
  pose proof (emit_emissions (events this) ERROR ERROR [Err e]) as He.
  by destruct (emit (events this) ERROR [Err e]) as [eff r].
Qed.

Lemma exchange_emissions (this : NeuralNexus) (req : Axios.Request)
  (during : list Effect) :
  emissions ERROR during = [] ->
  emissions ERROR (exchange adapter this req during).1 = error_events req.
Proof.
  intros Hd. unfold exchange, Spec.error_events.
  destruct (adapter req) as [d|error]; [done|].
  pose proof (onRejected_emissions this error) as Hr.
  destruct (onRejected this error) as [eff x]. simpl in *.
  by rewrite emissions_app, Hd.
Qed.

Lemma guarded_effects (text : string) (run : list Effect * Res Value) :
  (guarded text run).1 = run.1.
Proof. by destruct run. Qed.

Lemma progress_emissions (onProgress : bool)
  (progress : list Upload.ProgressEvent) :
  emissions ERROR (flat_map (Upload.onUploadProgress onProgress) progress) = [].
Proof.
  induction progress as [|ev progress IH]; simpl; [done|].
  rewrite emissions_app, IH. unfold Upload.onUploadProgress.
  destruct (Upload.total ev) as [t|]; [|done].
  by destruct (onProgress && negb (t =? 0)%Z).
Qed.

Lemma pump_emissions (decode : string -> option Value)
  (evs : list Stream.StreamEvent) (p : Stream.Promise) :
  emissions ERROR (Stream.pump decode evs p).1 = [].
Proof.
  revert p. induction evs as [|[chunk| |err] evs IH]; intros p; simpl; try done.
  assert (Hl : forall ls q, emissions ERROR (Stream.each_line decode ls q).1 = []).
  { induction ls as [|line ls IHl]; intros q; simpl; [done|].
    destruct (Str.startsWith line "data: "); [|done].
    destruct (String.eqb _ _); [done|].
    destruct (decode _); [|done].
    specialize (IHl q). by destruct (Stream.each_line decode ls q). }
  unfold Stream.onData. specialize (Hl (Stream.lines_of chunk) p).
  destruct (Stream.each_line decode (Stream.lines_of chunk) p) as [eff p1].
  specialize (IH p1). destruct (Stream.pump decode evs p1) as [eff' p2].
  simpl in *. by rewrite emissions_app, Hl, IH.
Qed.

(** C6, as the code has it. A call of [get], [post], [put], [delete],
    [upload] or [stream] emits [error] exactly once, with the normalized
    error as payload, when its exchange fails and the interceptor
    normalizes the failure, and not at all otherwise: neither the errors
    the [catch] clauses build, nor a rejection by the stream's [error]
    handler, nor the constructor's configuration error is announced. *)
Theorem error_event_per_normalized_failure (this : NeuralNexus)
  (endpoint : string) (payload : Value) (onProgress : bool)
  (progress : list Upload.ProgressEvent)
  (decode : string -> option Value)
  (source : option (list Stream.StreamEvent))
  (cfg : NeuralNexusConfig) :
  let ax := axiosInstance this in
  emissions ERROR (get adapter this endpoint payload).1
    = error_events (Axios.build ax "get" endpoint ∅ payload "json")
  /\ emissions ERROR (post adapter this endpoint payload).1
     = error_events (Axios.build ax "post" endpoint ∅ payload "json")
  /\ emissions ERROR (put adapter this endpoint payload).1
     = error_events (Axios.build ax "put" endpoint ∅ payload "json")
  /\ emissions ERROR (delete adapter this endpoint payload).1
     = error_events (Axios.build ax "delete" endpoint ∅ payload "json")
  /\ emissions ERROR (upload adapter this endpoint payload onProgress progress).1
     = error_events
         (Axios.build ax "post" endpoint
            {["Content-Type" := "multipart/form-data"]} payload "json")
  /\ emissions ERROR (stream adapter decode this endpoint payload source).1
     = error_events (Axios.build ax "post" endpoint ∅ payload "stream")
  /\ emissions ERROR (constructor cfg).1 = [].
Proof.
  intros ax. unfold get, post, put, delete, upload.
  rewrite !guarded_effects.
  split_and!; try (by apply exchange_emissions).
  - apply exchange_emissions, progress_emissions.
  - unfold stream.
    pose proof (exchange_emissions this
      (Axios.build ax "post" endpoint ∅ payload "stream") [] eq_refl) as He.
    fold ax.
    destruct (exchange adapter this _ []) as [eff [d|x]]; simpl in *; [|done].
    destruct source as [evs|]; [|done].
    pose proof (pump_emissions decode evs Stream.Pending) as Hp.
    destruct (Stream.pump decode evs Stream.Pending) as [eff' p]. simpl in *.
    by rewrite emissions_app, He, Hp, app_nil_r.
  - destruct (Str.present (apiKey cfg)) eqn:Hk;
      [destruct (Str.present (environment cfg)) eqn:Hv|].
    + destruct (constructor_accepts cfg Hk Hv) as (w & c & -> & Hw & _).
      simpl. rewrite emissions_app. by destruct Hw as [->|[text ->]].
    + unfold constructor. by rewrite Hk, Hv.
    + unfold constructor. by rewrite Hk.
Qed.

End TransportFacts.

(** C6 as stated fails: the constructor raises its configuration error,
    and [stream] rejects with a [STREAM_ERROR], without any [error]
    emission. *)
Lemma errors_raised_unannounced :
  (exists e,
     Client.constructor
       (Client.mkConfig None (Some "development") None None None None)
     = ([], Throw (Err e)))
  /\ (exists eff reason,
        Client.stream (Sample.up VNull) Sample.parse (Sample.client "k")
          "/generate" VNull (Some [Stream.error (VStr "socket hang up")])
        = (eff, Ok (Stream.Rejected reason))
        /\ code reason = VStr "STREAM_ERROR"
        /\ emissions ERROR eff = []).
Proof.
  split.
  - eexists. reflexivity.
  - eexists _, _. split_and!; reflexivity.
Qed.

Section ClosedClient.

Import Client.

Variable adapter : Axios.Request -> Axios.Outcome.

Lemma onRejected_sent (this : NeuralNexus) (error : Value) :
  sent (onRejected this error).1 = [].
Proof.
  unfold onRejected. destruct (Normalizer.normalize error) as [e|x]; [|done].
  destruct (emit_sent (events this) ERROR [Err e]) as [Hs _].
  by destruct (emit (events this) ERROR [Err e]) as [eff r].
Qed.

Lemma exchange_performs (this : NeuralNexus) (req : Axios.Request)
  (during : list Effect) :
  sent during = [] ->
  performs adapter (exchange adapter this req during) req id.
Proof.
  intros Hd. unfold performs, exchange.
  destruct (adapter req) as [d|error].
  - simpl. rewrite Hd. split; [done|]. by intros ? [= ->].
  - pose proof (onRejected_sent this error) as Hs.
    destruct (onRejected this error) as [eff x]. simpl in *.
    rewrite sent_app, Hd, Hs. by split.
Qed.

Lemma guarded_performs (text : string) (run : list Effect * Res Value)
  (req : Axios.Request) :
  performs adapter run req id -> performs adapter (guarded text run) req id.
Proof.
  unfold performs. destruct run as [eff r]. simpl. intros [Hs Hr].
  split; [done|]. intros d Hd. by rewrite (Hr d Hd).
Qed.

Lemma progress_sent (onProgress : bool)
  (progress : list Upload.ProgressEvent) :
  sent (flat_map (Upload.onUploadProgress onProgress) progress) = [].
Proof.
  induction progress as [|ev progress IH]; simpl; [done|].
  rewrite sent_app, IH. unfold Upload.onUploadProgress.
  destruct (Upload.total ev) as [t|]; [|done].
  by destruct (onProgress && negb (t =? 0)%Z).
Qed.

Lemma pump_sent (decode : string -> option Value)
  (evs : list Stream.StreamEvent) (p : Stream.Promise) :
  sent (Stream.pump decode evs p).1 = [].
Proof.
  revert p. induction evs as [|[chunk| |err] evs IH]; intros p; simpl; try done.
  assert (Hl : forall ls q, sent (Stream.each_line decode ls q).1 = []).
  { induction ls as [|line ls IHl]; intros q; simpl; [done|].
    destruct (Str.startsWith line "data: "); [|done].
    destruct (String.eqb _ _); [done|].
    destruct (decode _); [|done].
    specialize (IHl q). by destruct (Stream.each_line decode ls q). }
  unfold Stream.onData. specialize (Hl (Stream.lines_of chunk) p).
  destruct (Stream.each_line decode (Stream.lines_of chunk) p) as [eff p1].
  specialize (IH p1). destruct (Stream.pump decode evs p1) as [eff' p2].
  simpl in *. by rewrite sent_app, Hl, IH.
Qed.

(** Every request method performs its exchange, whatever the state of the
    instance. *)
Lemma methods_perform (this : NeuralNexus) (endpoint : string)
  (payload : Value) (onProgress : bool)
  (progress : list Upload.ProgressEvent)
  (decode : string -> option Value) (evs : list Stream.StreamEvent) :
  let ax := axiosInstance this in
  performs adapter (get adapter this endpoint payload)
    (Axios.build ax "get" endpoint ∅ payload "json") id
  /\ performs adapter (post adapter this endpoint payload)
       (Axios.build ax "post" endpoint ∅ payload "json") id
  /\ performs adapter (put adapter this endpoint payload)
       (Axios.build ax "put" endpoint ∅ payload "json") id
  /\ performs adapter (delete adapter this endpoint payload)
       (Axios.build ax "delete" endpoint ∅ payload "json") id
  /\ performs adapter (upload adapter this endpoint payload onProgress progress)
       (Axios.build ax "post" endpoint
          {["Content-Type" := "multipart/form-data"]} payload "json") id
  /\ performs adapter (stream adapter decode this endpoint payload (Some evs))
       (Axios.build ax "post" endpoint ∅ payload "stream")
       (fun _ => (Stream.pump decode evs Stream.Pending).2).
Proof.
  intros ax. unfold get, post, put, delete, upload.
  split_and!; try (by apply guarded_performs, exchange_performs).
  - apply guarded_performs, exchange_performs, progress_sent.
  - unfold stream. fold ax.
    destruct (exchange_performs this
      (Axios.build ax "post" endpoint ∅ payload "stream") [] eq_refl)
      as [Hs Hr]. unfold performs.
    destruct (exchange adapter this _ []) as [eff [d|x]]; simpl in *.
    + pose proof (pump_sent decode evs Stream.Pending) as Hp.
      destruct (Stream.pump decode evs Stream.Pending) as [eff' p].
      simpl in *. split; [by rewrite sent_app, Hs, Hp|done].
    + split; [done|]. intros d Hd. by specialize (Hr d Hd).
Qed.

Lemma close_returns (this this' : NeuralNexus) (eff : list Effect) :
  close this = (eff, this', Ok tt) ->
  this' = {| config := config this;
             axiosInstance := axiosInstance this;
             token := token this;
             refreshTimer := None;
             events := ∅ |}.
Proof.
  unfold close. cbn [events].
  destruct (emit (events this) DISCONNECTED []) as [eff' [b|x]]; [|done].
  by intros [= _ <-].
Qed.

(** C3, as the code has it. [close()] leaves no closed state behind: it
    empties the registry and drops the timer, and keeps the configuration,
    the axios instance and the token. On the closed instance every request
    method still sends its request and returns the body of a fulfilled
    exchange; an emission of an event other than [error] returns [false]
    without failing; a listener registered afterwards is registered; and
    [close()] can be called again. *)
Theorem close_leaves_client_usable (this this' : NeuralNexus)
  (eff : list Effect) (endpoint : string) (payload : Value)
  (onProgress : bool) (progress : list Upload.ProgressEvent)
  (decode : string -> option Value) (evs : list Stream.StreamEvent)
  (type : string) (args : list Thrown) (l : Listener) :
  close this = (eff, this', Ok tt) ->
  let ax := axiosInstance this in
  (events this' = ∅ /\ refreshTimer this' = None /\ axiosInstance this' = ax
   /\ config this' = config this /\ token this' = token this)
  /\ performs adapter (get adapter this' endpoint payload)
       (Axios.build ax "get" endpoint ∅ payload "json") id
  /\ performs adapter (post adapter this' endpoint payload)
       (Axios.build ax "post" endpoint ∅ payload "json") id
  /\ performs adapter (put adapter this' endpoint payload)
       (Axios.build ax "put" endpoint ∅ payload "json") id
  /\ performs adapter (delete adapter this' endpoint payload)
       (Axios.build ax "delete" endpoint ∅ payload "json") id
  /\ performs adapter (upload adapter this' endpoint payload onProgress progress)
       (Axios.build ax "post" endpoint
          {["Content-Type" := "multipart/form-data"]} payload "json") id
  /\ performs adapter
       (stream adapter decode this' endpoint payload (Some evs))
       (Axios.build ax "post" endpoint ∅ payload "stream")
       (fun _ => (Stream.pump decode evs Stream.Pending).2)
  /\ (type <> ERROR -> emit (events this') type args = ([Emit type args], Ok false))
  /\ listeners (events (on this' type l)) type = [l]
  /\ close this' = ([Emit DISCONNECTED []], this', Ok tt).
Proof.
  intros Hc ax. apply close_returns in Hc.
  assert (Hev : events this' = ∅) by by rewrite Hc.
  assert (Hax : axiosInstance this' = ax) by by rewrite Hc.
  split; [by rewrite Hc|].
  pose proof (methods_perform this' endpoint payload
                onProgress progress decode evs) as Hm.
  cbv zeta in Hm. rewrite Hax in Hm.
  destruct Hm as (H1 & H2 & H3 & H4 & H5 & H6).
  split_and!; try assumption.
  - intros Hty. rewrite Hev, emit_silent by apply listeners_empty.
    apply String.eqb_neq in Hty. unfold ERROR in Hty. by rewrite Hty.
  - cbn [on events]. rewrite Hev, listeners_on, listeners_empty.
    by case_decide.
  - by rewrite Hc.
Qed.

End ClosedClient.

Lemma close_leaves_client_usable_witness :
  sent (Client.get (Sample.up (VStr "pong"))
          (Client.close (Sample.client "k")).1.2 "/ping" VUndefined).1
  = [Axios.build (Client.axiosInstance (Sample.client "k"))
       "get" "/ping" ∅ VUndefined "json"]
  /\ (Client.get (Sample.up (VStr "pong"))
        (Client.close (Sample.client "k")).1.2 "/ping" VUndefined).2
     = Ok (VStr "pong").
Proof.
  destruct (close_leaves_client_usable (Sample.up (VStr "pong"))
              (Sample.client "k") (Client.close (Sample.client "k")).1.2
              (Client.close (Sample.client "k")).1.1
              "/ping" VUndefined false [] Sample.parse []
              CONNECTED [] (Sample.quiet 1) eq_refl)
    as (_ & [Hs Hr] & _).
  exact (conj Hs (Hr (VStr "pong") eq_refl)).
Defined.

(** C3 as stated fails: on an instance that has been closed, [get] sends
    its request and returns the body, an emission returns normally, and a
    second [close()] returns normally. *)
Lemma closed_client_still_serves :
  let closed := (Client.close (Sample.client "k")).1.2 in
  (Client.close (Sample.client "k")).2 = Ok tt
  /\ (Client.get (Sample.up (VStr "pong")) closed "/ping" VUndefined).2
     = Ok (VStr "pong")
  /\ List.length
       (sent (Client.get (Sample.up (VStr "pong")) closed "/ping" VUndefined).1)
     = 1%nat
  /\ (emit (Client.events closed) CONNECTED []).2 = Ok false
  /\ (Client.close closed).2 = Ok tt.
Proof. vm_compute. by split_and!. Qed.

(* ===================================================================== *)
(** ** The bearer token *)
(* ===================================================================== *)

Section TokenFacts.

Import Client.

Variable adapter : Axios.Request -> Axios.Outcome.

Lemma constructor_returns (cfg : NeuralNexusConfig) (eff : list Effect)
  (this : NeuralNexus) :
  constructor cfg = (eff, Ok this) ->
  Axios.headers (axiosInstance this) !! "Authorization"
    = Some (bearer (apiKey cfg))
  /\ Axios.common (axiosInstance this) !! "Authorization" = None
  /\ apiKey (config this) = apiKey cfg.
Proof.
  intros Hc.
  destruct (Str.present (apiKey cfg)) eqn:Hk;
    [destruct (Str.present (environment cfg)) eqn:He|].
  - destruct (constructor_accepts cfg Hk He)
      as (warned & this' & Hc' & _ & _ & _ & H1 & H2 & H3).
    rewrite Hc' in Hc. by injection Hc as <- <-.
  - unfold constructor in Hc. rewrite Hk, He in Hc. simpl in Hc. congruence.
  - unfold constructor in Hc. rewrite Hk in Hc. simpl in Hc. congruence.
Qed.

(** A header given to [axios.create] is the one a request carries, whatever
    [defaults.headers.common] holds, unless the request brings its own. *)
Lemma flatten_instance_header (ax : Axios.Instance)
  (own : gmap string string) (k v : string) :
  own !! k = None -> Axios.headers ax !! k = Some v ->
  Axios.flatten ax own !! k = Some v.
Proof.
  intros Ho Hh. unfold Axios.flatten.
  apply lookup_union_Some_l. rewrite lookup_union_r; done.
Qed.

(** C4 on the code. On an instance built for the credential [k],
    [setToken t] stores [Bearer t] under [defaults.headers.common], but the
    [Authorization] header of a request sent afterwards is still [Bearer k],
    the header given to [axios.create]; it stays [Bearer k] after
    [clearToken()]. *)
Theorem setToken_shadowed (cfg : NeuralNexusConfig) (eff : list Effect)
  (this : NeuralNexus) (t endpoint : string) (payload : Value) :
  constructor cfg = (eff, Ok this) ->
  let authorization (c : NeuralNexus) :=
    List.map (fun r => Axios.req_headers r !! "Authorization")
      (sent (get adapter c endpoint payload).1) in
  Axios.common (axiosInstance (setToken this t)) !! "Authorization"
    = Some ("Bearer " ++ t)
  /\ authorization this = [Some (bearer (apiKey cfg))]
  /\ authorization (setToken this t) = [Some (bearer (apiKey cfg))]
  /\ authorization (clearToken (setToken this t))
     = [Some (bearer (apiKey cfg))].
Proof.
  intros Hc authorization.
  destruct (constructor_returns _ _ _ Hc) as (Hh & _ & _).
  assert (Hauth : forall c, Axios.headers (axiosInstance c) = Axios.headers (axiosInstance this) ->
            authorization c = [Some (bearer (apiKey cfg))]).
  { intros c Heq. unfold authorization.
    destruct (methods_perform adapter c endpoint payload false []
                (fun _ => None) []) as ([Hs _] & _).
    rewrite Hs. simpl. f_equal.
    apply flatten_instance_header; [apply lookup_empty|by rewrite Heq]. }
  split_and!; try (by apply Hauth).
  simpl. apply lookup_insert_eq.
Qed.

End TokenFacts.

Lemma setToken_shadowed_witness :
  List.map (fun r => Axios.req_headers r !! "Authorization")
    (sent (Client.get (Sample.up VNull)
             (Client.setToken (Sample.client "k") "t") "/models" VUndefined).1)
  = [Some "Bearer k"].
Proof.
  exact (proj1 (proj2 (proj2 (setToken_shadowed (Sample.up VNull)
    (Sample.cfg "k" "development")
    (Client.constructor (Sample.cfg "k" "development")).1
    (Sample.client "k") "t" "/models" VUndefined eq_refl)))).
Defined.

(* ===================================================================== *)
(** ** The stream decoder *)
(* ===================================================================== *)

Section StreamFacts.

Import Stream.

#[local] Arguments Str.drop : simpl never.
#[local] Arguments Str.startsWith : simpl never.

Variable decode : string -> option Value.

Lemma startsWith_drop (p s : string) :
  Str.startsWith s p = true -> s = p ++ Str.drop (String.length p) s.
Proof.
  revert s. induction p as [|a p IH]; intros [|b s];
    cbn [Str.startsWith Str.drop String.length]; try done.
  intros [Hab Hp]%andb_true_iff. apply Ascii.eqb_eq in Hab as ->.
  change (String b s = String b (p ++ Str.drop (String.length p) s)).
  f_equal. by apply IH.
Qed.

Lemma sentinel_line (line : string) :
  sentinel line = true <-> line = "data: [DONE]".
Proof.
  unfold sentinel. split.
  - intros [Hp Hd]%andb_true_iff. apply String.eqb_eq in Hd.
    rewrite (startsWith_drop _ _ Hp).
    change (String.length "data: ") with 6%nat. by rewrite Hd.
  - by intros ->.
Qed.

(** A blank line carries nothing: the filter of the handler only spares
    the loop lines it would pass over anyway. *)
Lemma blank_inert (line : string) :
  Str.blank line = true -> Str.startsWith line "data: " = false.
Proof.
  destruct line as [|c line]; [done|]. cbn [Str.blank].
  change (Str.startsWith (String c line) "data: ")
    with (Ascii.eqb "d" c && Str.startsWith line "ata: ").
  destruct (Ascii.eqb "d" c) eqn:Hc; [|done].
  apply Ascii.eqb_eq in Hc as <-. done.
Qed.

(** The loop over the lines of one chunk, in closed form *)
Lemma each_line_reading (lines : list string) (p : Promise) :
  each_line decode lines p =
    (List.map Consume (decoded decode (live lines)),
     if existsb sentinel lines then resolve p else p).
Proof.
  induction lines as [|line lines IH]; [done|].
  assert (Hs : sentinel line =
            Str.startsWith line "data: "
            && String.eqb (Str.drop 6 line) "[DONE]") by done.
  assert (Hf : frame decode line =
            if Str.startsWith line "data: " then decode (Str.drop 6 line)
            else None) by done.
  cbn [each_line live existsb]. rewrite IH.
  destruct (Str.startsWith line "data: ");
    [destruct (String.eqb (Str.drop 6 line) "[DONE]")|];
    simpl in Hs, Hf; rewrite Hs; simpl; rewrite ?Hf; try done.
  by destruct (decode (Str.drop 6 line)).
Qed.

Lemma onData_reading (chunk : string) (p : Promise) :
  onData decode chunk p =
    (List.map Consume (frames decode chunk),
     if existsb sentinel (lines_of chunk) then resolve p else p).
Proof. apply each_line_reading. Qed.

Lemma consumed_map (vs : list Value) : consumed (List.map Consume vs) = vs.
Proof. induction vs as [|v vs IH]; simpl; by rewrite ?IH. Qed.

Lemma pump_chunks (chunks : list string) (p : Promise) :
  consumed (pump decode (List.map data chunks) p).1
    = flat_map (frames decode) chunks.
Proof.
  revert p. induction chunks as [|chunk chunks IH]; intros p; simpl; [done|].
  rewrite onData_reading.
  specialize (IH (if existsb sentinel (lines_of chunk) then resolve p else p)).
  destruct (pump decode (List.map data chunks) _) as [eff p2]. simpl in *.
  by rewrite consumed_app, consumed_map, IH.
Qed.

Lemma pump_consumed_any (evs : list StreamEvent) (p q : Promise) :
  consumed (pump decode evs p).1 = consumed (pump decode evs q).1.
Proof.
  revert p q. induction evs as [|[chunk| |err] evs IH]; intros p q; simpl;
    try done.
  rewrite !onData_reading.
  set (p' := if existsb sentinel (lines_of chunk) then resolve p else p).
  set (q' := if existsb sentinel (lines_of chunk) then resolve q else q).
  specialize (IH p' q').
  destruct (pump decode evs p') as [e1 p1].
  destruct (pump decode evs q') as [e2 p2].
  simpl in *. by rewrite !consumed_app, IH.
Qed.

Lemma pump_resolved (evs : list StreamEvent) :
  (pump decode evs Resolved).2 = Resolved.
Proof.
  induction evs as [|[chunk| |err] evs IH]; simpl; try done.
  rewrite onData_reading.
  assert (Hr : (if existsb sentinel (lines_of chunk)
                then resolve Resolved else Resolved) = Resolved)
    by by destruct (existsb _ _).
  rewrite Hr. by destruct (pump decode evs Resolved).
Qed.

Lemma pump_chunks_settle (chunks : list string) (p : Promise) :
  (pump decode (List.map data chunks) p).2 = p
  \/ (pump decode (List.map data chunks) p).2 = resolve p.
Proof.
  revert p. induction chunks as [|chunk chunks IH]; intros p; simpl; [by left|].
  rewrite onData_reading.
  specialize (IH (if existsb sentinel (lines_of chunk) then resolve p else p)).
  destruct (pump decode (List.map data chunks) _) as [eff p2]. simpl in *.
  destruct (existsb sentinel (lines_of chunk)); [|done].
  right. destruct IH as [->| ->]; [done|by destruct p].
Qed.

Lemma split_line (l rest : string) :
  no_LF l = true ->
  Str.split Str.LF (l ++ String Str.LF rest) = l :: Str.split Str.LF rest.
Proof.
  induction l as [|c l IH].
  - intros _. change ("" ++ String Str.LF rest) with (String Str.LF rest).
    simpl. by rewrite ?Ascii.eqb_refl.
  - intros [Hc Hl]%andb_true_iff. apply negb_true_iff in Hc.
    change (String c l ++ String Str.LF rest)
      with (String c (l ++ String Str.LF rest)).
    simpl. by rewrite Hc, (IH Hl).
Qed.

Lemma split_unlines (lines : list string) :
  forallb no_LF lines = true ->
  Str.split Str.LF (unlines lines) = (lines ++ [""])%list.
Proof.
  induction lines as [|l lines IH]; simpl; [done|].
  intros [Hl Hls]%andb_true_iff. by rewrite (split_line _ _ Hl), (IH Hls).
Qed.

Lemma live_filter (lines : list string) :
  decoded decode
    (live (List.filter (fun line => negb (Str.blank line)) lines))
  = decoded decode (live lines)
  /\ existsb sentinel
       (List.filter (fun line => negb (Str.blank line)) lines)
     = existsb sentinel lines.
Proof.
  induction lines as [|l lines [IH1 IH2]]; simpl; [done|].
  destruct (Str.blank l) eqn:Hb; simpl.
  - pose proof (blank_inert _ Hb) as Hp.
    assert (Hs : sentinel l = false) by (unfold sentinel; by rewrite Hp).
    assert (Hf : frame decode l = None) by (unfold frame; by rewrite Hp).
    rewrite Hs. simpl. by rewrite Hf.
  - destruct (sentinel l); simpl; [done|]. by rewrite IH1, IH2.
Qed.

(** Handling the chunk made of the given lines *)
Lemma onData_unlines (lines : list string) (p : Promise) :
  forallb no_LF lines = true ->
  onData decode (unlines lines) p = each_line decode lines p.
Proof.
  intros Hls. unfold onData, lines_of. rewrite (split_unlines _ Hls).
  rewrite !each_line_reading, List.filter_app. simpl.
  rewrite app_nil_r. by destruct (live_filter lines) as [-> ->].
Qed.

Lemma each_line_skip (before after : list string) (line : string)
  (p : Promise) :
  Str.startsWith line "data: " = true ->
  Str.drop 6 line <> "[DONE]" ->
  decode (Str.drop 6 line) = None ->
  each_line decode (before ++ line :: after) p
    = each_line decode (before ++ after) p.
Proof.
  intros Hp Hd Hn. apply String.eqb_neq in Hd.
  induction before as [|l before IH]; simpl.
  - by rewrite Hp, Hd, Hn.
  - destruct (Str.startsWith l "data: "); [|done].
    destruct (String.eqb (Str.drop 6 l) "[DONE]"); [done|].
    by rewrite IH.
Qed.

Lemma live_cut (before after : list string) :
  existsb sentinel before = false ->
  live (before ++ "data: [DONE]" :: after) = before
  /\ existsb sentinel (before ++ "data: [DONE]" :: after) = true.
Proof.
  induction before as [|l before IH]; simpl; [done|].
  intros [Hl Hb]%orb_false_iff. rewrite Hl. simpl.
  by destruct (IH Hb) as [-> ->].
Qed.

(** C2: the code does not keep what the claim says. On the sentinel line
    the handler resolves the promise at once and returns, so that the
    frames behind the sentinel in the same chunk are dropped, as the claim
    has it. But the return ends the handling of that one chunk only: no
    flag records the sentinel and the [data] listener is left installed,
    so the frames of every chunk delivered afterwards are decoded and
    handed to the consumer as they would be on a fresh stream, while the
    promise stays resolved. *)
Theorem sentinel_leaves_handler_installed (before after : list string)
  (later : list StreamEvent) (p : Promise) :
  forallb no_LF (before ++ after) = true ->
  existsb sentinel before = false ->
  let chunk := unlines (before ++ "data: [DONE]" :: after) in
  onData decode chunk p = (List.map Consume (decoded decode before), resolve p)
  /\ (pump decode later Resolved).2 = Resolved
  /\ consumed (pump decode (data chunk :: later) Pending).1
     = (decoded decode before ++ consumed (pump decode later Pending).1)%list.
Proof.
  intros Hlf Hs chunk.
  assert (Hlf' : forallb no_LF (before ++ "data: [DONE]" :: after) = true).
  { rewrite forallb_app in Hlf |- *. simpl.
    by apply andb_true_iff in Hlf as [-> ->]. }
  assert (Hd : forall q, onData decode chunk q =
            (List.map Consume (decoded decode before), resolve q)).
  { intros q. unfold chunk. rewrite (onData_unlines _ _ Hlf'), each_line_reading.
    by destruct (live_cut before after Hs) as [-> ->]. }
  split_and!; [apply Hd|apply pump_resolved|].
  cbn [pump]. rewrite Hd.
  pose proof (pump_consumed_any later (resolve Pending) Pending) as Hany.
  destruct (pump decode later (resolve Pending)) as [eff p']. simpl in *.
  by rewrite consumed_app, consumed_map, Hany.
Qed.

(** C7. A line that starts with [data: ], is not the sentinel and does not
    decode leaves no trace: the stream behaves as if the line had not been
    in its chunk. The consumer receives, chunk after chunk and line after
    line, the frames that decode, and handling chunks never rejects the
    promise. *)
Theorem malformed_frame_is_skipped (line : string)
  (before after : list string) (later : list StreamEvent)
  (chunks : list string) (p : Promise) :
  Str.startsWith line "data: " = true ->
  Str.drop 6 line <> "[DONE]" ->
  decode (Str.drop 6 line) = None ->
  forallb no_LF (before ++ line :: after) = true ->
  pump decode (data (unlines (before ++ line :: after)) :: later) p
    = pump decode (data (unlines (before ++ after)) :: later) p
  /\ consumed (pump decode (List.map data chunks) p).1
     = flat_map (frames decode) chunks
  /\ (forall reason,
        (pump decode (List.map data chunks) Pending).2 <> Rejected reason).
Proof.
  intros Hp Hd Hn Hlf.
  assert (Hlf' : forallb no_LF (before ++ after) = true).
  { rewrite forallb_app in Hlf |- *. simpl in Hlf.
    apply andb_true_iff in Hlf as [-> [_ ->]%andb_true_iff]. done. }
  split_and!.
  - cbn [pump]. rewrite (onData_unlines _ _ Hlf), (onData_unlines _ _ Hlf').
    by rewrite (each_line_skip _ _ _ _ Hp Hd Hn).
  - apply pump_chunks.
  - intros reason. by destruct (pump_chunks_settle chunks Pending) as [-> | ->].
Qed.

End StreamFacts.

Lemma sentinel_leaves_handler_installed_witness :
  consumed
    (Stream.pump Sample.parse
       [Stream.data (unlines ["data: 1"; "data: [DONE]"; "data: 2"]);
        Stream.data (unlines ["data: 7"])] Stream.Pending).1
  = [VNum 1; VNum 7].
Proof.
  exact (eq_trans
    (proj2 (proj2 (sentinel_leaves_handler_installed Sample.parse
       ["data: 1"] ["data: 2"] [Stream.data (unlines ["data: 7"])]
       Stream.Pending eq_refl eq_refl)))
    eq_refl).
Defined.

Lemma malformed_frame_is_skipped_witness :
  consumed
    (Stream.pump Sample.parse
       [Stream.data (unlines ["data: 1"; "data: {not json"; "data: 2"]);
        Stream.data (unlines ["data: 3"])] Stream.Pending).1
  = [VNum 1; VNum 2; VNum 3].
Proof.
  exact (eq_trans
    (f_equal (fun r : list Effect * Stream.Promise => consumed r.1)
       (proj1 (malformed_frame_is_skipped Sample.parse "data: {not json"
          ["data: 1"] ["data: 2"] [Stream.data (unlines ["data: 3"])] []
          Stream.Pending eq_refl ltac:(discriminate) eq_refl eq_refl)))
    eq_refl).
Defined.

(* ===================================================================== *)
(** ** Upload progress *)
(* ===================================================================== *)

Section UploadFacts.

Import Upload.

Variable adapter : Axios.Request -> Axios.Outcome.

Lemma percent_zero_loaded (t : Z) : percent 0 t = 0.
Proof.
  unfold percent. apply floor_unique; change (inject_Z (0 * 100)) with 0%Q;
    unfold Qdiv; rewrite Qmult_0_l; by vm_compute.
Qed.

Lemma progress_nonneg (l t : Z) :
  0 <= l < 2 ^ 1000 -> 0 < t < 2 ^ 1000 ->
  Double.le (Double.Fin 0) (progress l t).
Proof.
  intros Hl Ht. destruct (Z.eq_dec l 0) as [->|Hl0].
  - rewrite (progress_zero t Ht). cbn [Double.le]. lra.
  - rewrite (progress_reading l t) by lia. cbn [Double.le].
    pose proof (quotient_nonneg l t ltac:(lia) Ht) as Hq.
    change 0%Q with (inject_Z 0). rewrite <- Zle_Qle.
    rewrite <- (Qfloor_Z 0). apply Qfloor_resp_le.
    change (inject_Z 0) with 0%Q. lra.
Qed.

Lemma progress_mono (l1 l2 t : Z) :
  0 <= l1 <= l2 -> l2 < 2 ^ 1000 -> 0 < t < 2 ^ 1000 ->
  Double.le (progress l1 t) (progress l2 t).
Proof.
  intros Hl1 Hl2 Ht. destruct (Z.eq_dec l1 0) as [->|Hl0].
  - rewrite (progress_zero t Ht). apply progress_nonneg; lia.
  - rewrite (progress_reading l1 t), (progress_reading l2 t) by lia.
    cbn [Double.le]. rewrite <- Zle_Qle. apply Qfloor_resp_le.
    pose proof (quotient_mono l1 l2 t ltac:(lia) Hl2 Ht). lra.
Qed.

Lemma progress_complete (t : Z) :
  0 < t < 2 ^ 1000 -> progress t t = Double.Fin 100.
Proof.
  intros Ht. by rewrite (progress_reading t t Ht Ht), (quotient_complete t Ht).
Qed.

Lemma progress_exact (l t : Z) :
  0 <= l <= t -> 0 < t < 2 ^ 46 ->
  progress l t = Double.Fin (inject_Z (percent l t)).
Proof.
  intros Hl Ht. assert (Ht53 : 0 < t < 2 ^ 1000) by lia.
  destruct (Z.eq_dec l 0) as [->|Hl0].
  - by rewrite (progress_zero t Ht53), percent_zero_loaded.
  - rewrite (progress_reading l t) by lia.
    by rewrite (quotient_exact l t) by lia.
Qed.

Lemma sorted_progress (t : Z) (loadeds : list Z) :
  0 < t < 2 ^ 1000 -> Forall (fun l => 0 <= l < 2 ^ 1000) loadeds ->
  Sorted Z.le loadeds ->
  Sorted Double.le (List.map (fun l => progress l t) loadeds).
Proof.
  intros Ht Hb. induction 1 as [|a ls Hs IH Hhd]; simpl; constructor.
  - apply IH. by inversion Hb.
  - destruct Hhd as [|b ls Hab]; simpl; constructor.
    inversion Hb as [|? ? Ha Hb']; subst. inversion Hb' as [|? ? Hb1 _]; subst.
    apply progress_mono; lia.
Qed.

Lemma last_map_progress (t : Z) (loadeds : list Z) :
  last (List.map (fun l => progress l t) loadeds)
    = (fun l => progress l t) <$> last loadeds.
Proof.
  induction loadeds as [|a [|b ls] IH]; done.
Qed.

Lemma progress_known (t : Z) (loadeds : list Z) :
  t <> 0 ->
  flat_map (onUploadProgress true)
    (List.map (fun l => mkProgress l (Some t)) loadeds)
  = List.map (fun l => Progress (progress l t)) loadeds.
Proof.
  intros Ht. induction loadeds as [|a ls IH]; simpl; [done|].
  rewrite IH. unfold onUploadProgress. simpl.
  by destruct (Z.eqb_spec t 0).
Qed.

Lemma progress_unknown (onProgress : bool) (loadeds : list Z)
  (unknown : option Z) :
  unknown = None \/ unknown = Some 0 ->
  flat_map (onUploadProgress onProgress)
    (List.map (fun l => mkProgress l unknown) loadeds) = [].
Proof.
  intros [-> | ->]; induction loadeds as [|a ls IH]; simpl; try done.
  unfold onUploadProgress at 1. simpl. by rewrite andb_false_r.
Qed.

Lemma reported_map (ns : list Double.Number) :
  reported (List.map Progress ns) = ns.
Proof. induction ns as [|n ns IH]; simpl; by rewrite ?IH. Qed.

Lemma exchange_reported (this : Client.NeuralNexus) (req : Axios.Request)
  (during : list Effect) :
  reported (Client.exchange adapter this req during).1 = reported during.
Proof.
  unfold Client.exchange. destruct (adapter req) as [d|error]; [done|].
  assert (Hr : reported (Client.onRejected this error).1 = []).
  { unfold Client.onRejected.
    destruct (Normalizer.normalize error) as [e|x]; [|done].
    destruct (emit_sent (Client.events this) ERROR [Err e]) as [_ Hs].
    by destruct (emit (Client.events this) ERROR [Err e]). }
  destruct (Client.onRejected this error) as [eff x]. simpl in *.
  by rewrite reported_app, Hr, app_nil_r.
Qed.

Lemma upload_reported (this : Client.NeuralNexus) (endpoint : string)
  (formData : Value) (t : Z) (loadeds : list Z) :
  t <> 0 ->
  reported
    (Client.upload adapter this endpoint formData true
       (List.map (fun l => mkProgress l (Some t)) loadeds)).1
  = List.map (fun l => progress l t) loadeds.
Proof.
  intros Ht. unfold Client.upload.
  rewrite guarded_effects, exchange_reported.
  rewrite (progress_known _ _ Ht), <- (reported_map (List.map _ loadeds)).
  by rewrite List.map_map.
Qed.

(** C9, as the code has it. During an upload whose progress events carry
    the total size [t], with byte counts below [2^1000], the callback is
    invoked once per event with [Math.round] of the quotient
    [(loaded * 100) / t] computed in doubles. That value is
    [round(loaded * 100 / t)] whenever the total is below [2^46] bytes and
    no loaded count exceeds it. When the loaded counts do not decrease, the
    reported percentages do not decrease; when the last event reports the
    whole payload loaded, the last percentage is 100. When the events
    carry no total, or 0 as the total, the callback is not invoked. *)
Theorem upload_progress_percentages (this : Client.NeuralNexus)
  (endpoint : string) (formData : Value) (t : Z) (loadeds : list Z)
  (onProgress : bool) :
  0 < t < 2 ^ 1000 ->
  Forall (fun l => 0 <= l < 2 ^ 1000) loadeds ->
  let known := List.map (fun l => mkProgress l (Some t)) loadeds in
  let unknown := List.map (fun l => mkProgress l None) loadeds in
  let empty := List.map (fun l => mkProgress l (Some 0)) loadeds in
  let percents :=
    reported (Client.upload adapter this endpoint formData true known).1 in
  percents = List.map (fun l => progress l t) loadeds
  /\ (t < 2 ^ 46 -> Forall (fun l => l <= t) loadeds ->
      percents
      = List.map (fun l => Double.Fin (inject_Z (percent l t))) loadeds)
  /\ (Sorted Z.le loadeds -> Sorted Double.le percents)
  /\ (last loadeds = Some t -> last percents = Some (Double.Fin 100))
  /\ reported
       (Client.upload adapter this endpoint formData onProgress unknown).1
     = []
  /\ reported
       (Client.upload adapter this endpoint formData onProgress empty).1
     = [].
Proof.
  intros Ht Hb known unknown empty percents.
  assert (Hp : percents = List.map (fun l => progress l t) loadeds).
  { unfold percents, known. apply upload_reported. lia. }
  split_and!; [done| | | | |].
  - intros Ht46 Hle. rewrite Hp. apply List.map_ext_in. intros l Hin.
    rewrite List.Forall_forall in Hb. rewrite List.Forall_forall in Hle.
    specialize (Hb l Hin). specialize (Hle l Hin).
    apply progress_exact; lia.
  - rewrite Hp. by apply sorted_progress.
  - intros Hl. by rewrite Hp, last_map_progress, Hl, <- (progress_complete t Ht).
  - unfold Client.upload.
    rewrite guarded_effects, exchange_reported. unfold unknown.
    rewrite progress_unknown; [done|by left].
  - unfold Client.upload.
    rewrite guarded_effects, exchange_reported. unfold empty.
    rewrite progress_unknown; [done|by right].
Qed.

End UploadFacts.

Lemma upload_progress_percentages_witness :
  reported
    (Client.upload (Sample.up VNull) (Sample.client "k") "/models" VNull true
       (List.map (fun l => Upload.mkProgress l (Some 3)) [0; 1; 2; 3])).1
  = [Double.Fin 0; Double.Fin 33; Double.Fin 67; Double.Fin 100].
Proof.
  refine (eq_trans
    (proj1 (proj2
       (upload_progress_percentages (Sample.up VNull) (Sample.client "k")
          "/models" VNull 3 [0; 1; 2; 3] true _ _)) _ _)
    eq_refl).
  - split; reflexivity.
  - repeat constructor; lia.
  - reflexivity.
  - repeat constructor; lia.
Defined.

(** C9 as stated fails for a payload of 2^46 bytes or more: with
    66442395949705 of 83575340817239 bytes loaded the exact quotient is just
    under 79.5 and rounds to 79, while the quotient of the two doubles is
    79.5 and the callback receives 80. *)
Lemma percentage_of_large_payload :
  reported
    (Client.upload (Sample.up VNull) (Sample.client "k") "/models" VNull true
       [Upload.mkProgress 66442395949705 (Some 83575340817239)]).1
  = [Double.Fin 80]
  /\ percent 66442395949705 83575340817239 = 79.
Proof. split; by vm_compute. Qed.

(* ===================================================================== *)
(** ** What a caller of the request methods sees *)
(* ===================================================================== *)

Section RequestOutcomes.

Import Client.

Variable adapter : Axios.Request -> Axios.Outcome.

Lemma rethrow_own (text : string) (x : Thrown) :
  exists e, rethrow text x = Err e.
Proof. destruct x; simpl; eauto. Qed.

Lemma guarded_own (text : string) (run : list Effect * Res Value)
  (x : Thrown) :
  (guarded text run).2 = Throw x -> exists e, x = Err e.
Proof.
  destruct run as [eff [d|y]]; simpl; [done|].
  intros [= <-]. apply rethrow_own.
Qed.

(** Whatever the transport and the listeners do, an exception that leaves
    [get], [post], [put], [delete] or [upload] is an instance of
    [NeuralNexusError]: no raw failure value, no [TypeError] and no
    exception of a listener reaches the caller unwrapped. The same holds
    of [stream] when the body of the response is a readable stream. When
    the exchange of [stream] is fulfilled with a body that has no [on]
    method, the caller gets the raw [TypeError]: the promise that rejects
    with it is returned without [await], out of reach of the [catch]
    clause. *)
Theorem request_methods_raise_own_errors (this : NeuralNexus)
  (endpoint : string) (payload : Value) (onProgress : bool)
  (progress : list Upload.ProgressEvent)
  (decode : string -> option Value) (evs : list Stream.StreamEvent)
  (x : Thrown) :
  ((get adapter this endpoint payload).2 = Throw x
   \/ (post adapter this endpoint payload).2 = Throw x
   \/ (put adapter this endpoint payload).2 = Throw x
   \/ (delete adapter this endpoint payload).2 = Throw x
   \/ (upload adapter this endpoint payload onProgress progress).2 = Throw x
   \/ (stream adapter decode this endpoint payload (Some evs)).2 = Throw x ->
   exists e, x = Err e)
  /\ (forall body,
        adapter (Axios.build (axiosInstance this) "post" endpoint ∅ payload
                   "stream") = Axios.Fulfilled body ->
        stream adapter decode this endpoint payload None
        = ([Send (Axios.build (axiosInstance this) "post" endpoint ∅ payload
                    "stream")],
           Throw TypeError))
  /\ ((stream adapter decode this endpoint payload None).2 = Throw x ->
      x = TypeError \/ exists e, x = Err e).
Proof.
  unfold get, post, put, delete, upload. split_and!.
  - intros [H|[H|[H|[H|[H|H]]]]]; try (by eapply guarded_own).
    unfold stream in H.
    destruct (exchange adapter this _ []) as [eff [d|y]].
    + by destruct (Stream.pump decode evs Stream.Pending).
    + simpl in H. injection H as <-. apply rethrow_own.
  - intros body Ha. unfold stream, exchange. by rewrite Ha.
  - unfold stream.
    destruct (exchange adapter this _ []) as [eff [d|y]]; simpl.
    + intros [= <-]. by left.
    + intros [= <-]. right. apply rethrow_own.
Qed.

(** When every listener of [error] returns (in particular when there is
    none), a failed exchange whose failure is normalized makes [get] raise
    exactly the normalized error, after one emission that has reached each
    listener once, in order. *)
Theorem failure_raises_normalized_error (this : NeuralNexus)
  (endpoint : string) (params error : Value) (e : NeuralNexusError) :
  let req := Axios.build (axiosInstance this) "get" endpoint ∅ params "json" in
  adapter req = Axios.Failed error ->
  Normalizer.normalize error = Ok e ->
  Forall (fun l => body l [Err e] = None) (listeners (events this) ERROR) ->
  get adapter this endpoint params =
    (Send req :: Emit ERROR [Err e]
       :: List.map (fun l => Call (lid l) ERROR [Err e])
            (listeners (events this) ERROR),
     Throw (Err e)).
Proof.
  intros req Ha Hn Hq. unfold get, exchange. fold req.
  rewrite Ha. unfold onRejected. rewrite Hn. unfold emit.
  destruct (listeners (events this) ERROR) as [|l ls]; [done|].
  cbv beta match. by rewrite (run_quiet _ _ _ Hq).
Qed.

(** When the first listener of [error] throws a value that is not a
    [NeuralNexusError], [get] raises the [API_REQUEST_FAILED] wrapper around
    that value: the normalized error is not what the caller gets, and the
    listeners registered behind the first are not invoked. *)
Theorem throwing_listener_masks_failure (this : NeuralNexus)
  (endpoint : string) (params error v : Value) (e : NeuralNexusError)
  (l : Listener) (ls : list Listener) :
  let req := Axios.build (axiosInstance this) "get" endpoint ∅ params "json" in
  adapter req = Axios.Failed error ->
  Normalizer.normalize error = Ok e ->
  listeners (events this) ERROR = l :: ls ->
  body l [Err e] = Some (Data v) ->
  get adapter this endpoint params =
    ([Send req; Emit ERROR [Err e]; Call (lid l) ERROR [Err e]],
     Throw (Err {| message := "Failed to fetch data from " ++ endpoint;
                   code := VStr "API_REQUEST_FAILED";
                   details := v |})).
Proof.
  intros req Ha Hn Hl Hb. unfold get, exchange. fold req.
  rewrite Ha. unfold onRejected. rewrite Hn. unfold emit. rewrite Hl.
  cbv beta match. cbn [run]. by rewrite Hb.
Qed.

End RequestOutcomes.

Lemma request_methods_raise_own_errors_witness :
  (exists e,
     (Client.get (fun _ => Axios.Failed VNull) (Sample.client "k") "/models"
        VUndefined).2 = Throw (Err e))
  /\ (Client.stream (Sample.up (VStr "data: 1")) Sample.parse
        (Sample.client "k") "/generate" VNull None).2
     = Throw TypeError.
Proof.
  pose proof (request_methods_raise_own_errors (fun _ => Axios.Failed VNull)
                (Sample.client "k") "/models" VUndefined false []
                Sample.parse []
                (Err (new_NeuralNexusError_text
                        "Failed to fetch data from /models"
                        (VStr "API_REQUEST_FAILED")
                        (Client.reify TypeError)))) as [H _].
  destruct (H (or_introl eq_refl)) as [e He].
  split.
  - exists e. rewrite <- He. reflexivity.
  - exact (f_equal snd
      (proj1 (proj2
         (request_methods_raise_own_errors (Sample.up (VStr "data: 1"))
            (Sample.client "k") "/generate" VNull false [] Sample.parse []
            TypeError))
         (VStr "data: 1") eq_refl)).
Defined.

Lemma failure_raises_normalized_error_witness :
  (Client.get (fun _ => Axios.Failed (VObj [("message", VStr "Network Error")]))
     (Client.on (Sample.client "k") ERROR (Sample.quiet 1)) "/models"
     VUndefined).2
  = Throw (Err {| message := "Network Error";
                  code := VStr "API_ERROR";
                  details := VObj [("status", VUndefined);
                                   ("request_id", VUndefined)] |}).
Proof.
  exact (f_equal snd
    (failure_raises_normalized_error
       (fun _ => Axios.Failed (VObj [("message", VStr "Network Error")]))
       (Client.on (Sample.client "k") ERROR (Sample.quiet 1)) "/models"
       VUndefined (VObj [("message", VStr "Network Error")])
       _ eq_refl eq_refl ltac:(repeat constructor))).
Defined.

Lemma throwing_listener_masks_failure_witness :
  (Client.get (fun _ => Axios.Failed (VObj [("message", VStr "Network Error")]))
     (Client.on (Sample.client "k") ERROR (Sample.faulty 1)) "/models"
     VUndefined).2
  = Throw (Err {| message := "Failed to fetch data from /models";
                  code := VStr "API_REQUEST_FAILED";
                  details := VStr "listener failed" |}).
Proof.
  exact (f_equal snd
    (throwing_listener_masks_failure
       (fun _ => Axios.Failed (VObj [("message", VStr "Network Error")]))
       (Client.on (Sample.client "k") ERROR (Sample.faulty 1)) "/models"
       VUndefined (VObj [("message", VStr "Network Error")])
       (VStr "listener failed") _ (Sample.faulty 1) []
       eq_refl eq_refl eq_refl eq_refl)).
Defined.

(* ===================================================================== *)
(** ** The configuration the constructor settles on *)
(* ===================================================================== *)

Section ConfigurationFacts.

Import Client.

Lemma getDefaultApiUrl_production (env : string) :
  getDefaultApiUrl (Some env) =
    if String.eqb env "production" then "https://api.neuralnexus.ai/v1"
    else "https://api.dev.neuralnexus.ai/v1".
Proof.
  do 10 (destruct env as [|[[] [] [] [] [] [] [] []] env]; try reflexivity).
  destruct env; reflexivity.
Qed.

Lemma constructor_fields (cfg : NeuralNexusConfig) :
  Str.present (apiKey cfg) = true ->
  Str.present (environment cfg) = true ->
  let base :=
    if Str.present (apiUrl cfg) then apiUrl cfg
    else Some (getDefaultApiUrl (environment cfg)) in
  let tmo :=
    match timeout cfg with
    | Some t => if t =? 0 then Some 30000 else Some t
    | None => Some 30000
    end in
  exists warned this,
    constructor cfg = ((warned ++ [Emit CONNECTED []])%list, Ok this)
    /\ Axios.baseURL (axiosInstance this) = base
    /\ Axios.timeout (axiosInstance this) = tmo
    /\ apiUrl (config this) = base
    /\ timeout (config this) = tmo
    /\ storageProvider (config this) =
         (if Str.present (storageProvider cfg) then storageProvider cfg
          else Some "google")
    /\ match lookup_prefix (String.substring 0 4 (interp (apiKey cfg)))
               keyPrefixes with
       | Some ty => warned = [] /\ keyType (config this) = Some ty
       | None =>
           (exists text, warned = [Warn text])
           /\ keyType (config this) = keyType cfg
       end.
Proof.
  intros Hk He base tmo. unfold constructor. rewrite Hk, He. simpl.
  unfold validateApiKey.
  destruct (lookup_prefix (String.substring 0 4 (interp (apiKey cfg)))
              keyPrefixes) eqn:Hp; simpl.
  - eexists [], _. split; [reflexivity|]. simpl. split_and!; try done.
    simpl in Hp. by rewrite Hp.
  - eexists [_], _. split; [reflexivity|]. simpl. split_and!; try done.
    simpl in Hp. rewrite Hp. eauto.
Qed.

Lemma constructor_ok_present (cfg : NeuralNexusConfig) (eff : list Effect)
  (this : NeuralNexus) :
  constructor cfg = (eff, Ok this) ->
  Str.present (apiKey cfg) = true /\ Str.present (environment cfg) = true.
Proof.
  unfold constructor.
  destruct (Str.present (apiKey cfg)); [|done].
  by destruct (Str.present (environment cfg)).
Qed.

(** The defaults the constructor fills in. The axios instance is created
    with, as [baseURL], the [apiUrl] of the configuration when one is given
    (non-empty), else the production origin when the environment is exactly
    ['production'] and the development origin for any other environment
    string; and with, as [timeout], the configured one, 30000 when that is
    absent or 0. Every request built from the instance has these two
    settings and the endpoint of the call, unchanged, as its [url] (how
    axios combines [baseURL] and [url] is not part of this statement). The
    stored configuration holds the same values, and ['google'] as storage
    provider unless one is given. *)
Theorem constructor_settles_defaults (cfg : NeuralNexusConfig)
  (eff : list Effect) (this : NeuralNexus) (env : string)
  (m u : string) (own : gmap string string) (p : Value) (rt : string) :
  constructor cfg = (eff, Ok this) ->
  environment cfg = Some env ->
  let req := Axios.build (axiosInstance this) m u own p rt in
  let base :=
    if Str.present (apiUrl cfg) then apiUrl cfg
    else if String.eqb env "production"
         then Some "https://api.neuralnexus.ai/v1"
         else Some "https://api.dev.neuralnexus.ai/v1" in
  let tmo :=
    match timeout cfg with
    | Some t => if t =? 0 then Some 30000 else Some t
    | None => Some 30000
    end in
  Axios.baseURL (axiosInstance this) = base
  /\ Axios.timeout (axiosInstance this) = tmo
  /\ Axios.req_baseURL req = base
  /\ Axios.req_timeout req = tmo
  /\ Axios.url req = u
  /\ apiUrl (config this) = base
  /\ timeout (config this) = tmo
  /\ storageProvider (config this) =
       (if Str.present (storageProvider cfg) then storageProvider cfg
        else Some "google").
Proof.
  intros Hc Henv req base tmo.
  destruct (constructor_ok_present _ _ _ Hc) as [Hk He].
  destruct (constructor_fields cfg Hk He)
    as (warned & this' & Hc' & Hb & Ht & Hu & Htc & Hs & _).
  rewrite Hc' in Hc. injection Hc as _ <-.
  assert (Hbase : (if Str.present (apiUrl cfg) then apiUrl cfg
                   else Some (getDefaultApiUrl (environment cfg))) = base).
  { unfold base. rewrite Henv, getDefaultApiUrl_production.
    by destruct (String.eqb env "production"), (Str.present (apiUrl cfg)). }
  rewrite Hbase in Hb, Hu. by split_and!.
Qed.

Lemma lookup_prefix_In (k v : string) (table : list (string * string)) :
  lookup_prefix k table = Some v -> In (k, v) table.
Proof.
  induction table as [|[k' v'] table IH]; simpl; [done|].
  destruct (String.eqb_spec k k') as [->|]; [|by right; apply IH].
  intros [= ->]. by left.
Qed.

Lemma key_prefix_found (p ty rest : string) :
  In (p, ty) keyPrefixes ->
  lookup_prefix (String.substring 0 4 (p ++ rest)) keyPrefixes = Some ty.
Proof.
  unfold keyPrefixes. simpl.
  intros [[= <- <-]|[[= <- <-]|[[= <- <-]|[[= <- <-]|[[= <- <-]|[]]]]]];
    by destruct rest.
Qed.

Lemma substring4_starts (key : string) (a b c d : ascii) :
  String.substring 0 4 key = String a (String b (String c (String d ""))) ->
  Str.startsWith key (String a (String b (String c (String d "")))) = true.
Proof.
  destruct key as [|a' [|b' [|c' [|d' key]]]];
    cbn [Str.startsWith String.substring]; try discriminate.
  intros [= -> -> -> -> _]. rewrite !Ascii.eqb_refl. by destruct key.
Qed.

Lemma key_prefix_starts (key ty : string) :
  lookup_prefix (String.substring 0 4 key) keyPrefixes = Some ty ->
  exists p, In (p, ty) keyPrefixes /\ Str.startsWith key p = true.
Proof.
  intros Hl. apply lookup_prefix_In in Hl.
  exists (String.substring 0 4 key). split; [done|].
  unfold keyPrefixes in Hl. simpl in Hl.
  destruct Hl as [Hl|[Hl|[Hl|[Hl|[Hl|[]]]]]];
    injection Hl as Hl _; rewrite <- Hl; by apply substring4_starts.
Qed.

(** The constructor accepts a key of any format. A key that starts with one
    of the five known prefixes is given that prefix's type as [keyType] and
    nothing is logged; a key that starts with none of them (shorter keys
    included) is accepted with one warning on the console and keeps the
    [keyType] of the configuration passed in. *)
Theorem key_format_never_rejects (cfg : NeuralNexusConfig)
  (eff : list Effect) (this : NeuralNexus) (key : string) :
  constructor cfg = (eff, Ok this) ->
  apiKey cfg = Some key ->
  (forall p ty rest,
     In (p, ty) keyPrefixes -> key = p ++ rest ->
     keyType (config this) = Some ty /\ eff = [Emit CONNECTED []])
  /\ ((forall p ty, In (p, ty) keyPrefixes -> Str.startsWith key p = false) ->
      keyType (config this) = keyType cfg
      /\ exists text, eff = [Warn text; Emit CONNECTED []]).
Proof.
  intros Hc Hkey.
  destruct (constructor_ok_present _ _ _ Hc) as [Hk He].
  destruct (constructor_fields cfg Hk He)
    as (warned & this' & Hc' & _ & _ & _ & _ & _ & Hv).
  rewrite Hc' in Hc. injection Hc as <- <-.
  rewrite Hkey in Hv. change (interp (Some key)) with key in Hv. split.
  - intros p ty rest Hin ->. rewrite (key_prefix_found _ _ _ Hin) in Hv.
    by destruct Hv as [-> ->].
  - intros Hnone.
    destruct (lookup_prefix (String.substring 0 4 key) keyPrefixes)
      as [ty|] eqn:Hl.
    + destruct (key_prefix_starts _ _ Hl) as (p & Hin & Hs).
      by rewrite (Hnone _ _ Hin) in Hs.
    + destruct Hv as [[text ->] ->]. split; [done|]. by exists text.
Qed.

End ConfigurationFacts.

Lemma constructor_settles_defaults_witness :
  Axios.baseURL (Client.axiosInstance (Sample.client "k"))
  = Some "https://api.dev.neuralnexus.ai/v1".
Proof.
  exact (proj1 (constructor_settles_defaults (Sample.cfg "k" "development")
    (Client.constructor (Sample.cfg "k" "development")).1
    (Sample.client "k") "development" "get" "/models" ∅ VUndefined "json"
    eq_refl eq_refl)).
Defined.

Lemma key_format_never_rejects_witness :
  Client.keyType (Client.config (Sample.client "npr_0123456789"))
  = Some "production".
Proof.
  exact (proj1 (proj1 (key_format_never_rejects
    (Sample.cfg "npr_0123456789" "development")
    (Client.constructor (Sample.cfg "npr_0123456789" "development")).1
    (Sample.client "npr_0123456789") "npr_0123456789" eq_refl eq_refl)
    "npr_" "production" "0123456789"
    ltac:(do 4 right; left; reflexivity) eq_refl)).
Defined.

(* ===================================================================== *)
(** ** Token writes, settled streams, progress bounds, request headers *)
(* ===================================================================== *)

Section ClientAlgebra.

Import Client.

(** The token setters keep one value, the last one written: a second
    [setToken] replaces the first, [clearToken] after any [setToken] leaves
    the client as [clearToken] alone would, and neither touches the
    configuration, the listeners or the headers given at creation. *)
Theorem token_last_write_wins (this : NeuralNexus) (t1 t2 : string) :
  setToken (setToken this t1) t2 = setToken this t2
  /\ clearToken (setToken this t1) = clearToken this
  /\ clearToken (clearToken this) = clearToken this
  /\ config (setToken this t1) = config this
  /\ events (setToken this t1) = events this
  /\ Axios.headers (axiosInstance (setToken this t1))
     = Axios.headers (axiosInstance this)
  /\ events (clearToken this) = events this.
Proof.
  unfold setToken, clearToken, Axios.set_common. simpl.
  split_and!; try done; by rewrite insert_insert_eq.
Qed.

Variable decode : string -> option Value.

Lemma each_line_settled (lines : list string) (p : Stream.Promise) :
  p <> Stream.Pending -> (Stream.each_line decode lines p).2 = p.
Proof.
  intros Hp. rewrite each_line_reading. simpl.
  destruct (existsb sentinel lines); [|done]. by destruct p.
Qed.

(** The promise of a stream settles once. Whatever arrives after it has
    been resolved or rejected (chunks, a sentinel, [end], [error]) leaves
    its outcome as it is; and an [end] settles a promise that is still
    pending. *)
Theorem stream_settles_once (evs : list Stream.StreamEvent)
  (p : Stream.Promise) :
  (p <> Stream.Pending -> (Stream.pump decode evs p).2 = p)
  /\ (Stream.pump decode (Stream.end_ :: evs) Stream.Pending).2
     = Stream.Resolved.
Proof.
  assert (Hs : forall evs p,
    p <> Stream.Pending -> (Stream.pump decode evs p).2 = p).
  { clear. induction evs as [|[chunk| |err] evs IH]; intros p Hp; simpl.
    - done.
    - unfold Stream.onData.
      pose proof (each_line_settled (Stream.lines_of chunk) p Hp) as Hl.
      destruct (Stream.each_line decode (Stream.lines_of chunk) p) as [eff p1].
      simpl in Hl. subst p1. specialize (IH p Hp).
      by destruct (Stream.pump decode evs p).
    - assert (Hr : Stream.resolve p = p) by by destruct p.
      rewrite Hr. by apply IH.
    - assert (Hr : Stream.reject (Stream.STREAM_ERROR err) p = p)
        by by destruct p.
      rewrite Hr. by apply IH. }
  split; [apply Hs|]. simpl. by apply Hs.
Qed.

Variable adapter : Axios.Request -> Axios.Outcome.

(** During an upload whose progress events carry a total between 1 and
    [2^1000] bytes and loaded counts between 0 and that total, every
    percentage handed to the progress callback lies between 0 and 100. *)
Theorem percent_within_bounds (this : NeuralNexus) (endpoint : string)
  (formData : Value) (t : Z) (loadeds : list Z) :
  0 < t < 2 ^ 1000 ->
  Forall (fun l => 0 <= l <= t) loadeds ->
  Forall (fun p => Double.le (Double.Fin 0) p /\ Double.le p (Double.Fin 100))
    (reported
       (upload adapter this endpoint formData true
          (List.map (fun l => Upload.mkProgress l (Some t)) loadeds)).1).
Proof.
  intros Ht Hb. rewrite upload_reported by lia.
  induction Hb as [|l ls Hl Hls IH]; simpl; constructor; [|done].
  split.
  - apply progress_nonneg; lia.
  - rewrite <- (progress_complete t Ht). apply progress_mono; lia.
Qed.

(** On a constructed client, each of [get], [post], [put] and [delete]
    sends one request, with the [Content-Type] [application/json] given at
    creation; [upload] sends one request whose [Content-Type] is the
    [multipart/form-data] of the call, not the one given at creation; the
    requests of all five carry the [Authorization] header made from the
    configured key and the default [Accept] header of axios. *)
Theorem requests_carry_headers (cfg : NeuralNexusConfig)
  (eff : list Effect) (this : NeuralNexus) (endpoint : string)
  (payload : Value) (onProgress : bool)
  (progress : list Upload.ProgressEvent) :
  constructor cfg = (eff, Ok this) ->
  let header (run : list Effect * Res Value) (k : string) :=
    List.map (fun r => Axios.req_headers r !! k) (sent run.1) in
  let json := [Some "application/json"] in
  let auth := [Some (bearer (apiKey cfg))] in
  let accept := [Some "application/json, text/plain, */*"] in
  let runs :=
    [get adapter this endpoint payload; post adapter this endpoint payload;
     put adapter this endpoint payload; delete adapter this endpoint payload;
     upload adapter this endpoint payload onProgress progress] in
  header (get adapter this endpoint payload) "Content-Type" = json
  /\ header (post adapter this endpoint payload) "Content-Type" = json
  /\ header (put adapter this endpoint payload) "Content-Type" = json
  /\ header (delete adapter this endpoint payload) "Content-Type" = json
  /\ (exists v,
        header (upload adapter this endpoint payload onProgress progress)
          "Content-Type" = [Some v]
        /\ Str.startsWith v "multipart/form-data" = true)
  /\ Forall (fun run => header run "Authorization" = auth) runs
  /\ Forall (fun run => header run "Accept" = accept) runs.
Proof.
  intros Hc header json auth accept runs.
  destruct (constructor_ok_present _ _ _ Hc) as [Hk He].
  destruct (constructor_accepts cfg Hk He)
    as (warned & this' & Hc' & _ & _ & _ & Ha & _ & _).
  assert (Hct : Axios.headers (axiosInstance this) !! "Content-Type"
                = Some "application/json"
                /\ Axios.common (axiosInstance this) !! "Accept"
                   = Some "application/json, text/plain, */*"
                /\ Axios.headers (axiosInstance this) !! "Accept" = None).
  { revert Hc. unfold constructor. rewrite Hk, He. simpl.
    destruct (validateApiKey _ _). by intros [= _ <-]. }
  destruct Hct as (Hct & Hacc & Hnacc).
  rewrite Hc' in Hc. injection Hc as _ ->.
  destruct (methods_perform adapter this endpoint payload onProgress progress
              (fun _ => None) [])
    as ([Hg _] & [Hpo _] & [Hpu _] & [Hd _] & [Hu _] & _).
  assert (Hauth : forall own : gmap string string,
            own !! "Authorization" = None ->
            Axios.flatten (axiosInstance this) own !! "Authorization"
            = Some (bearer (apiKey cfg))).
  { intros own Hown. unfold Axios.flatten.
    apply lookup_union_Some_l. by rewrite lookup_union_r. }
  assert (Haccept : forall own : gmap string string,
            own !! "Accept" = None ->
            Axios.flatten (axiosInstance this) own !! "Accept"
            = Some "application/json, text/plain, */*").
  { intros own Hown. unfold Axios.flatten.
    rewrite lookup_union_r; [done|]. by rewrite lookup_union_r. }
  assert (Hup : forall k : string,
            k <> "Content-Type" ->
            ({["Content-Type" := "multipart/form-data"]} : gmap string string)
              !! k = None).
  { intros k Hne. by apply lookup_singleton_ne. }
  unfold runs, header. split_and!.
  1-4: rewrite ?Hg, ?Hpo, ?Hpu, ?Hd; simpl; f_equal; unfold Axios.flatten;
       by apply lookup_union_Some_l; rewrite lookup_union_r.
  - exists "multipart/form-data". rewrite Hu. simpl. split; [|done].
    f_equal. unfold Axios.flatten.
    by apply lookup_union_Some_l, lookup_union_Some_l, lookup_singleton_eq.
  - repeat constructor; rewrite ?Hg, ?Hpo, ?Hpu, ?Hd, ?Hu; simpl; f_equal;
      apply Hauth; try done; by apply Hup.
  - repeat constructor; rewrite ?Hg, ?Hpo, ?Hpu, ?Hd, ?Hu; simpl; f_equal;
      apply Haccept; try done; by apply Hup.
Qed.

End ClientAlgebra.

Lemma stream_settles_once_witness :
  (Stream.pump Sample.parse
     [Stream.data (unlines ["data: [DONE]"]); Stream.end_]
     (Stream.Rejected (Stream.STREAM_ERROR (VStr "reset")))).2
  = Stream.Rejected (Stream.STREAM_ERROR (VStr "reset")).
Proof.
  exact (proj1 (stream_settles_once Sample.parse
    [Stream.data (unlines ["data: [DONE]"]); Stream.end_]
    (Stream.Rejected (Stream.STREAM_ERROR (VStr "reset"))))
    ltac:(discriminate)).
Defined.

Lemma percent_within_bounds_witness :
  Forall (fun p => Double.le (Double.Fin 0) p /\ Double.le p (Double.Fin 100))
    (reported
       (Client.upload (Sample.up VNull) (Sample.client "k") "/files" VNull
          true
          (List.map (fun l => Upload.mkProgress l (Some 3)) [0; 1; 3])).1).
Proof.
  apply percent_within_bounds.
  - split; reflexivity.
  - repeat constructor; lia.
Defined.

Lemma requests_carry_headers_witness :
  exists v,
    List.map (fun r => Axios.req_headers r !! "Content-Type")
      (sent (Client.upload (Sample.up VNull) (Sample.client "k") "/files"
               VNull false []).1)
    = [Some v]
    /\ Str.startsWith v "multipart/form-data" = true.
Proof.
  exact (proj1 (proj2 (proj2 (proj2 (proj2
    (requests_carry_headers (Sample.up VNull) (Sample.cfg "k" "development")
       (Client.constructor (Sample.cfg "k" "development")).1
       (Sample.client "k") "/files" VNull false [] eq_refl)))))).
Defined.

(* ===================================================================== *)
(** ** The SDK generator *)
(* ===================================================================== *)

Section SdkFacts.

Import Sdk.

(** [generateSdk] returns code exactly for the languages
    [isLanguageSupported] accepts, and for every other language throws the
    [UNSUPPORTED_LANGUAGE] error that names it; [javascript] gets the
    TypeScript text. The code is generated for the placeholder key. *)
Theorem generateSdk_iff_supported (T : SdkTemplates) (language : string) :
  match generateSdk T language with
  | Ok code =>
      isLanguageSupported language = true
      /\ In code
           (List.map (fun template => template "YOUR_API_KEY")
              [typescript T; python T; go T; java T; ruby T; csharp T;
               php T; swift T; rust T])
  | Throw x =>
      isLanguageSupported language = false
      /\ x = Err {| message := "SDK generation for " ++ language
                                 ++ " is not yet supported";
                    code := VStr "UNSUPPORTED_LANGUAGE";
                    details := VUndefined |}
  end
  /\ generateSdk T "javascript" = generateSdk T "typescript".
Proof.
  split; [|reflexivity].
  unfold generateSdk, isLanguageSupported, getSupportedLanguages.
  cbn [existsb].
  repeat (destruct (String.eqb language _);
          [cbn [orb]; rewrite ?orb_true_r; split; [done|];
           cbn [List.map In]; tauto|]).
  by split.
Qed.

End SdkFacts.

(* ===================================================================== *)
(** ** Sessions *)
(* ===================================================================== *)

Section AuthFacts.

Import Auth.

Variable adapter : Axios.Request -> Axios.Outcome.

Lemma caught_own (text code : string) (x : Thrown) :
  exists e, Manager.caught text code x = Err e.
Proof. destruct x; simpl; eauto. Qed.

Lemma truthy_defined (v : Value) : truthy v = true -> nullish v = false.
Proof. by destruct v. Qed.

Lemma emit_quiet (events : gmap string (list Listener)) (type : string)
  (args : list Thrown) :
  String.eqb type "error" = false ->
  Forall (fun l => body l args = None) (listeners events type) ->
  exists b,
    emit events type args =
      (Emit type args
         :: List.map (fun l => Call (lid l) type args) (listeners events type),
       Ok b).
Proof.
  intros Hty Hq. unfold emit.
  destruct (listeners events type) as [|l ls]; [rewrite Hty; by eexists|].
  cbv beta match. rewrite (run_quiet _ _ _ Hq). by eexists.
Qed.

Lemma emit_fault (events : gmap string (list Listener)) (type : string)
  (args : list Thrown) (l : Listener) (ls : list Listener) (x : Thrown) :
  listeners events type = l :: ls ->
  body l args = Some x ->
  emit events type args = ([Emit type args; Call (lid l) type args], Throw x).
Proof.
  intros Hl Hb. unfold emit. rewrite Hl. cbv beta match. cbn [run].
  by rewrite Hb.
Qed.

Lemma post_fulfilled (c : Client.NeuralNexus) (endpoint : string)
  (payload response : Value) :
  adapter (Axios.build (Client.axiosInstance c) "post" endpoint ∅ payload
             "json") = Axios.Fulfilled response ->
  Client.post adapter c endpoint payload =
    ([Send (Axios.build (Client.axiosInstance c) "post" endpoint ∅ payload
              "json")], Ok response).
Proof.
  intros Ha. unfold Client.post, Client.guarded, Client.exchange.
  by rewrite Ha.
Qed.

Lemma post_sent (c : Client.NeuralNexus) (endpoint : string)
  (payload : Value) :
  exists eff r,
    Client.post adapter c endpoint payload =
      (Send (Axios.build (Client.axiosInstance c) "post" endpoint ∅ payload
               "json") :: eff, r)
    /\ (forall x, r = Throw x -> exists e, x = Err e)
    /\ (forall response, r = Ok response ->
          eff = []
          /\ adapter (Axios.build (Client.axiosInstance c) "post" endpoint ∅
                        payload "json") = Axios.Fulfilled response)
    /\ (forall response,
          adapter (Axios.build (Client.axiosInstance c) "post" endpoint ∅
                     payload "json") = Axios.Fulfilled response ->
          r = Ok response).
Proof.
  unfold Client.post, Client.guarded, Client.exchange.
  destruct (adapter _) as [d|error].
  - eexists [], _. split; [reflexivity|]. split_and!; try done.
    + by intros ? [= ->].
    + by intros ? [= ->].
  - destruct (Client.onRejected c error) as [eff x].
    eexists eff, _. split; [reflexivity|]. split_and!; try done.
    intros y [= <-]. apply rethrow_own.
Qed.

(** A login whose exchange is fulfilled with a body that carries [data]
    with a token establishes the session: the token goes to [setToken], the
    user of the response becomes the current user and is returned, and the
    listeners of [authStateChanged] (none of which throws) are told once.
    Afterwards [isAuthenticated] holds unless the response gave [null] as
    the user. *)
Theorem login_establishes_session (this : Auth) (email password t : string)
  (response : Value) :
  let credentials :=
    VObj [("email", VStr email); ("password", VStr password)] in
  let req := Axios.build (Client.axiosInstance (client this)) "post"
               "/auth/login" ∅ credentials "json" in
  let d := prop response "data" in
  let user := prop d "user" in
  let told := [Data (VObj [("user", user)])] in
  Manager.given email = true -> Manager.given password = true ->
  adapter req = Axios.Fulfilled response ->
  nullish response = false ->
  truthy d = true ->
  to_string (E := NeuralNexusError) (prop d "token") = Ok t ->
  Forall (fun l => body l told = None)
    (listeners (Client.events (client this)) AUTH_STATE_CHANGED) ->
  login adapter this email password =
    (Send req :: Emit AUTH_STATE_CHANGED told
       :: List.map (fun l => Call (lid l) AUTH_STATE_CHANGED told)
            (listeners (Client.events (client this)) AUTH_STATE_CHANGED),
     {| client := Client.setToken (client this) t; currentUser := user |},
     Ok user)
  /\ (user <> VNull ->
      isAuthenticated
        {| client := Client.setToken (client this) t; currentUser := user |}
      = true).
Proof.
  intros credentials req d user told He Hp Ha Hn Hd Ht Hq.
  split; [|by destruct user].
  unfold login. rewrite He, Hp. cbn [negb orb].
  pose proof (post_fulfilled _ _ _ _ Ha) as Hpost.
  unfold credentials in Hpost. rewrite Hpost. fold credentials req.
  unfold session.
  rewrite (get_defined _ _ Hn). fold d. rewrite Hd. cbn [negb].
  rewrite !(get_defined _ _ (truthy_defined _ Hd)), Ht. fold user told.
  cbn [Client.events Client.setToken client].
  destruct (emit_quiet _ AUTH_STATE_CHANGED told eq_refl Hq) as [b ->].
  reflexivity.
Qed.

(** When the first listener of [authStateChanged] throws a value that is
    not a [NeuralNexusError], [login] raises [AUTH_ERROR] around it although
    the exchange succeeded: the token has been set and the user stored. *)
Theorem login_fails_after_session (this : Auth) (email password t : string)
  (response v : Value) (l : Listener) (ls : list Listener) :
  let credentials :=
    VObj [("email", VStr email); ("password", VStr password)] in
  let req := Axios.build (Client.axiosInstance (client this)) "post"
               "/auth/login" ∅ credentials "json" in
  let d := prop response "data" in
  let user := prop d "user" in
  let told := [Data (VObj [("user", user)])] in
  Manager.given email = true -> Manager.given password = true ->
  adapter req = Axios.Fulfilled response ->
  nullish response = false ->
  truthy d = true ->
  to_string (E := NeuralNexusError) (prop d "token") = Ok t ->
  listeners (Client.events (client this)) AUTH_STATE_CHANGED = l :: ls ->
  body l told = Some (Data v) ->
  login adapter this email password =
    ([Send req; Emit AUTH_STATE_CHANGED told;
      Call (lid l) AUTH_STATE_CHANGED told],
     {| client := Client.setToken (client this) t; currentUser := user |},
     Throw (Err {| message := "Authentication failed";
                   code := VStr "AUTH_ERROR";
                   details := v |})).
Proof.
  intros credentials req d user told He Hp Ha Hn Hd Ht Hl Hb.
  unfold login. rewrite He, Hp. cbn [negb orb].
  pose proof (post_fulfilled _ _ _ _ Ha) as Hpost.
  unfold credentials in Hpost. rewrite Hpost. fold credentials req.
  unfold session.
  rewrite (get_defined _ _ Hn). fold d. rewrite Hd. cbn [negb].
  rewrite !(get_defined _ _ (truthy_defined _ Hd)), Ht. fold user told.
  cbn [Client.events Client.setToken client].
  by rewrite (emit_fault _ _ _ _ _ _ Hl Hb).
Qed.

(** [logout] clears the session exactly when its exchange is fulfilled:
    then the token is cleared and the current user is [null], whatever the
    listeners do afterwards; when the exchange fails, an error is raised
    and the session stays as it was. *)
Theorem logout_clears_iff_fulfilled (this : Auth) :
  let req := Axios.build (Client.axiosInstance (client this)) "post"
               "/auth/logout" ∅ (VObj []) "json" in
  match adapter req with
  | Axios.Fulfilled _ =>
      (logout adapter this).1.2 =
        {| client := Client.clearToken (client this); currentUser := VNull |}
      /\ isAuthenticated (logout adapter this).1.2 = false
  | Axios.Failed _ =>
      (logout adapter this).1.2 = this
      /\ exists e, (logout adapter this).2 = Throw (Err e)
  end.
Proof.
  intros req. unfold logout.
  destruct (post_sent (client this) "/auth/logout" (VObj []))
    as (eff & r & -> & Hthrow & Hok & Hful).
  fold req in Hok, Hful.
  destruct (adapter req) as [response|error] eqn:Ha.
  - rewrite (Hful response eq_refl).
    by destruct (emit _ AUTH_STATE_CHANGED _) as [eff' [b|x]].
  - destruct r as [response|x].
    + by destruct (Hok response eq_refl) as [_ ?].
    + split; [done|]. simpl.
      destruct (caught_own "Logout failed" "LOGOUT_ERROR" x) as [e ->].
      by exists e.
Qed.

(** [getCurrentUser] never throws: it returns a user or [null]. A user
    already held is returned without any request, and a user it has
    fetched is held, so that the next call returns it without a request. *)
Theorem getCurrentUser_caches (this : Auth) :
  exists v,
    (getCurrentUser adapter this).2 = Ok v
    /\ (truthy (currentUser this) = true ->
        getCurrentUser adapter this = ([], this, Ok (currentUser this)))
    /\ (v <> VNull ->
        getCurrentUser adapter (getCurrentUser adapter this).1.2
        = ([], (getCurrentUser adapter this).1.2, Ok v)).
Proof.
  unfold getCurrentUser at 1 2 4 5.
  destruct (truthy (currentUser this)) eqn:Hc.
  - exists (currentUser this). split_and!; try done.
    intros _. unfold getCurrentUser. simpl. by rewrite Hc.
  - destruct (Client.get adapter (client this) "/auth/me" VUndefined)
      as [eff [response|x]].
    + destruct (JS.get response "data") as [d|x].
      * destruct (truthy d) eqn:Hd; simpl.
        -- exists d. split_and!; try done.
           intros _. unfold getCurrentUser. simpl. by rewrite Hd.
        -- exists VNull. by split_and!.
      * exists VNull. by split_and!.
    + exists VNull. by split_and!.
Qed.

(** Whatever goes wrong inside [login], [register] or [logout], and whatever
    the listeners throw, the exception that leaves the method is a
    [NeuralNexusError]. *)
Theorem auth_raises_own_errors (this : Auth)
  (email password username : string) (x : Thrown) :
  (login adapter this email password).2 = Throw x
  \/ (register adapter this email password username).2 = Throw x
  \/ (logout adapter this).2 = Throw x ->
  exists e, x = Err e.
Proof.
  unfold login, register, logout. intros [H|[H|H]].
  - destruct (_ || _); [injection H as <-; by eexists|].
    destruct (Client.post _ _ _ _) as [eff r].
    destruct (match r with Ok _ => _ | Throw _ => _ end) as [[eff' this'] [u|y]];
      [done|].
    simpl in H. injection H as <-. apply caught_own.
  - destruct (_ || _); [injection H as <-; by eexists|].
    destruct (Client.post _ _ _ _) as [eff r].
    destruct (match r with Ok _ => _ | Throw _ => _ end) as [[eff' this'] [u|y]];
      [done|].
    simpl in H. injection H as <-. apply caught_own.
  - destruct (Client.post _ _ _ _) as [eff [response|y]].
    + destruct (emit _ _ _) as [eff' [b|y]]; [done|].
      simpl in H. injection H as <-. apply caught_own.
    + simpl in H. injection H as <-. apply caught_own.
Qed.

End AuthFacts.

Lemma login_establishes_session_witness :
  (Auth.login
     (Sample.up (VObj [("data", VObj [("token", VStr "t");
                                      ("user", VObj [("id", VStr "u1")])])]))
     (Auth.constructor
        (Client.on (Sample.client "k") AUTH_STATE_CHANGED (Sample.quiet 1)))
     "a@b.c" "secret").2
  = Ok (VObj [("id", VStr "u1")]).
Proof.
  exact (f_equal snd (proj1
    (login_establishes_session
       (Sample.up (VObj [("data", VObj [("token", VStr "t");
                                        ("user", VObj [("id", VStr "u1")])])]))
       (Auth.constructor
          (Client.on (Sample.client "k") AUTH_STATE_CHANGED (Sample.quiet 1)))
       "a@b.c" "secret" "t" _
       eq_refl eq_refl eq_refl eq_refl eq_refl eq_refl
       ltac:(repeat constructor)))).
Defined.

Lemma login_fails_after_session_witness :
  let r :=
    Auth.login
      (Sample.up (VObj [("data", VObj [("token", VStr "t");
                                       ("user", VObj [("id", VStr "u1")])])]))
      (Auth.constructor
         (Client.on (Sample.client "k") AUTH_STATE_CHANGED (Sample.faulty 1)))
      "a@b.c" "secret" in
  r.2 = Throw (Err {| message := "Authentication failed";
                      code := VStr "AUTH_ERROR";
                      details := VStr "listener failed" |})
  /\ Auth.isAuthenticated r.1.2 = true.
Proof.
  pose proof (login_fails_after_session
    (Sample.up (VObj [("data", VObj [("token", VStr "t");
                                     ("user", VObj [("id", VStr "u1")])])]))
    (Auth.constructor
       (Client.on (Sample.client "k") AUTH_STATE_CHANGED (Sample.faulty 1)))
    "a@b.c" "secret" "t" _ (VStr "listener failed") (Sample.faulty 1) []
    eq_refl eq_refl eq_refl eq_refl eq_refl eq_refl eq_refl eq_refl) as H.
  split.
  - exact (f_equal snd H).
  - exact (f_equal (fun r : list Effect * Auth.Auth * Res Value =>
                      Auth.isAuthenticated r.1.2) H).
Defined.

Lemma getCurrentUser_caches_witness :
  exists v,
    (Auth.getCurrentUser (Sample.up (VObj [("data", VObj [("id", VStr "u1")])]))
       (Auth.constructor (Sample.client "k"))).2 = Ok v.
Proof.
  destruct (getCurrentUser_caches
              (Sample.up (VObj [("data", VObj [("id", VStr "u1")])]))
              (Auth.constructor (Sample.client "k"))) as (v & Hv & _).
  exists v. exact Hv.
Defined.

Lemma auth_raises_own_errors_witness :
  exists e,
    (Auth.login (Sample.up VNull) (Auth.constructor (Sample.client "k"))
       "a@b.c" "secret").2 = Throw (Err e).
Proof.
  destruct (auth_raises_own_errors (Sample.up VNull)
              (Auth.constructor (Sample.client "k")) "a@b.c" "secret" ""
              (Err (new_NeuralNexusError_text "Authentication failed"
                      (VStr "AUTH_ERROR") (Client.reify TypeError)))
              (or_introl eq_refl)) as [e He].
  exists e. rewrite <- He. reflexivity.
Defined.

(* ===================================================================== *)
(** ** Purchases, models and stored files *)
(* ===================================================================== *)

Section ManagerFacts.

Variable adapter : Axios.Request -> Axios.Outcome.

Lemma get_fulfilled (c : Client.NeuralNexus) (endpoint : string)
  (params response : Value) :
  adapter (Axios.build (Client.axiosInstance c) "get" endpoint ∅ params
             "json") = Axios.Fulfilled response ->
  Client.get adapter c endpoint params =
    ([Send (Axios.build (Client.axiosInstance c) "get" endpoint ∅ params
              "json")], Ok response).
Proof.
  intros Ha. unfold Client.get, Client.guarded, Client.exchange.
  by rewrite Ha.
Qed.

Lemma delete_fulfilled (c : Client.NeuralNexus) (endpoint : string)
  (params response : Value) :
  adapter (Axios.build (Client.axiosInstance c) "delete" endpoint ∅ params
             "json") = Axios.Fulfilled response ->
  Client.delete adapter c endpoint params =
    ([Send (Axios.build (Client.axiosInstance c) "delete" endpoint ∅ params
              "json")], Ok response).
Proof.
  intros Ha. unfold Client.delete, Client.guarded, Client.exchange.
  by rewrite Ha.
Qed.

(** A purchase whose exchange is fulfilled with [data] in the body returns
    that result after one [purchaseCompleted] emission carrying it, which
    reaches every listener (none of which throws) once. *)
Theorem purchase_announced_once (c : Client.NeuralNexus)
  (options : list (string * Value)) (response : Value) :
  let req := Axios.build (Client.axiosInstance c) "post" "/payments/purchase"
               ∅ (VObj options) "json" in
  let result := prop response "data" in
  truthy (assoc "modelId" options) = true ->
  truthy (assoc "method" options) = true ->
  adapter req = Axios.Fulfilled response ->
  nullish response = false ->
  truthy result = true ->
  Forall (fun l => body l [Data result] = None)
    (listeners (Client.events c) PURCHASE_COMPLETED) ->
  Payments.purchaseModel adapter c options =
    (Send req :: Emit PURCHASE_COMPLETED [Data result]
       :: List.map (fun l => Call (lid l) PURCHASE_COMPLETED [Data result])
            (listeners (Client.events c) PURCHASE_COMPLETED),
     Ok result).
Proof.
  intros req result Hm Hp Ha Hn Hd Hq. unfold Payments.purchaseModel.
  rewrite Hm, Hp. cbn [negb].
  rewrite (post_fulfilled _ _ _ _ _ Ha), (get_defined _ _ Hn).
  fold result. rewrite Hd. cbn [negb].
  destruct (emit_quiet _ PURCHASE_COMPLETED [Data result] eq_refl Hq)
    as [b ->].
  reflexivity.
Qed.

(** When the first listener of [purchaseCompleted] throws a value that is
    not a [NeuralNexusError], [purchaseModel] raises [PAYMENT_ERROR] around
    it, although the purchase request was sent and fulfilled. *)
Theorem purchase_reported_failed (c : Client.NeuralNexus)
  (options : list (string * Value)) (response v : Value)
  (l : Listener) (ls : list Listener) :
  let req := Axios.build (Client.axiosInstance c) "post" "/payments/purchase"
               ∅ (VObj options) "json" in
  let result := prop response "data" in
  truthy (assoc "modelId" options) = true ->
  truthy (assoc "method" options) = true ->
  adapter req = Axios.Fulfilled response ->
  nullish response = false ->
  truthy result = true ->
  listeners (Client.events c) PURCHASE_COMPLETED = l :: ls ->
  body l [Data result] = Some (Data v) ->
  Payments.purchaseModel adapter c options =
    ([Send req; Emit PURCHASE_COMPLETED [Data result];
      Call (lid l) PURCHASE_COMPLETED [Data result]],
     Throw (Err {| message := "Payment failed";
                   code := VStr "PAYMENT_ERROR";
                   details := v |})).
Proof.
  intros req result Hm Hp Ha Hn Hd Hl Hb. unfold Payments.purchaseModel.
  rewrite Hm, Hp. cbn [negb].
  rewrite (post_fulfilled _ _ _ _ _ Ha), (get_defined _ _ Hn).
  fold result. rewrite Hd. cbn [negb].
  by rewrite (emit_fault _ _ _ _ _ _ Hl Hb).
Qed.

(** [getSubscriptionPlans] never returns an absent or otherwise falsy
    value (a body without [data] gives the empty array), and raises nothing
    but [NeuralNexusError]. *)
Theorem plans_default_to_empty (c : Client.NeuralNexus) :
  (forall v, (Payments.getSubscriptionPlans adapter c).2 = Ok v ->
             truthy v = true)
  /\ (forall x, (Payments.getSubscriptionPlans adapter c).2 = Throw x ->
                exists e, x = Err e)
  /\ (forall response,
        adapter (Axios.build (Client.axiosInstance c) "get"
                   "/payments/subscription-plans" ∅ VUndefined "json")
          = Axios.Fulfilled response ->
        nullish response = false ->
        truthy (prop response "data") = false ->
        (Payments.getSubscriptionPlans adapter c).2 = Ok (VArr [])).
Proof.
  unfold Payments.getSubscriptionPlans. split_and!.
  - intros v. destruct (Client.get _ _ _ _) as [eff [response|x]]; [|done].
    simpl. destruct (JS.get response "data") as [d|x]; [|done].
    intros [= <-]. unfold or_else. by destruct (truthy d) eqn:Hd.
  - intros x. destruct (Client.get _ _ _ _) as [eff [response|y]]; simpl.
    + destruct (JS.get response "data") as [d|y]; [done|].
      intros [= <-]. apply caught_own.
    + intros [= <-]. apply caught_own.
  - intros response Ha Hn Hd.
    rewrite (get_fulfilled _ _ _ _ Ha). simpl.
    rewrite (get_defined _ _ Hn). unfold or_else. by rewrite Hd.
Qed.

(** [deleteModel] counts a fulfilled exchange as a success unless the body
    says otherwise: a body without [success] gives [true], and a [success]
    that is given, [false] included, is returned as it is. The result is
    never [null] or [undefined]. *)
Theorem deleteModel_defaults_to_true (c : Client.NeuralNexus)
  (modelId : string) (fields : list (string * Value)) :
  let req := Axios.build (Client.axiosInstance c) "delete"
               ("/models/" ++ modelId) ∅ VUndefined "json" in
  Manager.given modelId = true ->
  adapter req = Axios.Fulfilled (VObj fields) ->
  (Models.deleteModel adapter c modelId).2 =
    Ok (if nullish (assoc "success" fields) then VBool true
        else assoc "success" fields)
  /\ forall v, (Models.deleteModel adapter c modelId).2 = Ok v ->
               nullish v = false.
Proof.
  intros req Hg Ha. unfold Models.deleteModel. rewrite Hg. cbn [negb].
  rewrite (delete_fulfilled _ _ _ _ Ha). simpl. unfold Manager.coalesce.
  split; [done|]. intros v [= <-].
  by destruct (nullish (assoc "success" fields)) eqn:Hs.
Qed.

(** [getModelDownloadUrl] reads [response.data.url] without a check: a
    fulfilled exchange whose body has no [data] raises
    [MODEL_URL_GENERATION_FAILED] around the [TypeError] of that read, and a
    [data] without [url] makes the method return [undefined]. *)
Theorem model_url_is_unchecked (c : Client.NeuralNexus) (modelId : string)
  (response : Value) :
  let req := Axios.build (Client.axiosInstance c) "get"
               ("/models/" ++ modelId ++ "/download-url") ∅ VUndefined
               "json" in
  Manager.given modelId = true ->
  adapter req = Axios.Fulfilled response ->
  nullish response = false ->
  (nullish (prop response "data") = true ->
   (Models.getModelDownloadUrl adapter c modelId).2 =
     Throw (Err {| message := "Failed to get download URL for model with ID "
                                ++ modelId;
                   code := VStr "MODEL_URL_GENERATION_FAILED";
                   details := Client.reify TypeError |}))
  /\ (nullish (prop response "data") = false ->
      (Models.getModelDownloadUrl adapter c modelId).2 =
        Ok (prop (prop response "data") "url")).
Proof.
  intros req Hg Ha Hn. unfold Models.getModelDownloadUrl.
  rewrite Hg. cbn [negb]. rewrite (get_fulfilled _ _ _ _ Ha). simpl.
  rewrite (get_defined _ _ Hn). simpl. split.
  - intros Hd. by destruct (prop response "data").
  - intros Hd. by rewrite (get_defined _ _ Hd).
Qed.

Variable encodeURIComponent : string -> string.

Lemma get_returns (c : Client.NeuralNexus) (endpoint : string)
  (params response : Value) :
  (Client.get adapter c endpoint params).2 = Ok response ->
  adapter (Axios.build (Client.axiosInstance c) "get" endpoint ∅ params
             "json") = Axios.Fulfilled response.
Proof.
  unfold Client.get, Client.guarded, Client.exchange.
  destruct (adapter _) as [d|error]; simpl; [by intros [= ->]|].
  by destruct (Client.onRejected c error).
Qed.

(** [getDownloadUrl] of the storage manager asks for
    [/storage/download-url] with the encoded path and the expiration (60
    when none is given), and returns [response.data.url] exactly when the
    body carries [data] with a truthy [url]; a fulfilled exchange without
    one raises [URL_GENERATION_ERROR]. Whatever it returns is therefore the
    truthy [url] of the body of its own request, and every exception that
    leaves it is a [NeuralNexusError]. *)
Theorem storage_url_is_checked (c : Client.NeuralNexus) (filePath : string)
  (expirationMinutes : option Z) :
  let req := Axios.build (Client.axiosInstance c) "get"
               ("/storage/download-url?path=" ++ encodeURIComponent filePath
                  ++ "&expirationMinutes="
                  ++ Double.number_text (default 60 expirationMinutes))
               ∅ VUndefined "json" in
  let run := Storage.getDownloadUrl adapter encodeURIComponent c filePath
               expirationMinutes in
  (forall response,
     Manager.given filePath = true ->
     adapter req = Axios.Fulfilled response ->
     nullish response = false ->
     let url := prop (prop response "data") "url" in
     run = ([Send req],
            if truthy (prop response "data") && truthy url then Ok url
            else Throw (Err {| message := "Failed to generate download URL";
                               code := VStr "URL_GENERATION_ERROR";
                               details := VUndefined |})))
  /\ (forall v,
        run.2 = Ok v ->
        truthy v = true
        /\ exists response,
             adapter req = Axios.Fulfilled response
             /\ v = prop (prop response "data") "url")
  /\ (forall x, run.2 = Throw x -> exists e, x = Err e).
Proof.
  intros req run. unfold run, Storage.getDownloadUrl. split_and!.
  - intros response Hg Ha Hn. rewrite Hg. cbn [negb].
    rewrite (get_fulfilled _ _ _ _ Ha). simpl.
    rewrite (get_defined _ _ Hn).
    destruct (truthy (prop response "data")) eqn:Hd; cbn [negb andb]; [|done].
    rewrite (get_defined _ _ (truthy_defined _ Hd)).
    by destruct (truthy (prop (prop response "data") "url")).
  - intros v. destruct (Manager.given filePath); cbn [negb]; [|done].
    pose proof (get_returns c
      ("/storage/download-url?path=" ++ encodeURIComponent filePath
         ++ "&expirationMinutes="
         ++ Double.number_text (default 60 expirationMinutes)) VUndefined)
      as Hret.
    destruct (Client.get _ _ _ _) as [eff [response|y]]; simpl; [|done].
    specialize (Hret response eq_refl).
    destruct response as [| |b|n|t|xs|fields]; try done; simpl;
      try (destruct (truthy (assoc "data" fields)) eqn:Hd; cbn [negb];
           [|done]);
      try (destruct (JS.get (assoc "data" fields) "url") as [url|y] eqn:Hu;
           [|done];
           destruct (truthy url) eqn:Ht; cbn [negb]; [|done];
           intros [= <-]; split; [done|];
           exists (VObj fields); split; [done|];
           rewrite (get_defined _ _ (truthy_defined _ Hd)) in Hu;
           by injection Hu as <-).
  - intros x. destruct (Manager.given filePath); cbn [negb];
      [|intros [= <-]; by eexists].
    destruct (Client.get _ _ _ _) as [eff [response|y]]; simpl.
    + destruct (JS.get response "data") as [d|y].
      * destruct (truthy d); cbn [negb].
        -- destruct (JS.get d "url") as [url|y].
           ++ destruct (truthy url); cbn [negb]; [done|].
              intros [= <-]; by eexists.
           ++ intros [= <-]; apply caught_own.
        -- intros [= <-]; by eexists.
      * intros [= <-]; apply caught_own.
    + intros [= <-]; apply caught_own.
Qed.

End ManagerFacts.

Section StorageFacts.

Lemma split_cons (sep : ascii) (s : string) :
  exists hd tl, Str.split sep s = hd :: tl.
Proof.
  destruct s as [|c s]; simpl; [by eexists _, _|].
  destruct (Ascii.eqb c sep); [by eexists _, _|].
  destruct (Str.split sep s); by eexists _, _.
Qed.

Lemma split_after (sep : ascii) (base ext : string) :
  exists hd tl,
    Str.split sep (base ++ String sep ext)
    = (hd :: tl ++ Str.split sep ext)%list.
Proof.
  induction base as [|c base (hd & tl & IH)].
  - change ("" ++ String sep ext) with (String sep ext). simpl.
    rewrite Ascii.eqb_refl. by exists "", [].
  - change (String c base ++ String sep ext)
      with (String c (base ++ String sep ext)).
    simpl. rewrite IH. destruct (Ascii.eqb c sep).
    + by exists "", (hd :: tl).
    + by exists (String c hd), tl.
Qed.

Lemma split_lacks (sep : ascii) (s : string) :
  Storage.lacks sep s = true -> Str.split sep s = [s].
Proof.
  induction s as [|c s IH]; simpl; [done|].
  intros [Hc Hs]%andb_true_iff. apply negb_true_iff in Hc.
  by rewrite Hc, (IH Hs).
Qed.

Lemma last_after (pre l : list string) (x d : string) :
  List.last (pre ++ x :: l) d = List.last (x :: l) d.
Proof.
  induction pre as [|p pre IH]; [done|].
  change (List.last (p :: (pre ++ x :: l)) d = List.last (x :: l) d).
  destruct (pre ++ x :: l)%list eqn:E; [by destruct pre|].
  rewrite <- IH. reflexivity.
Qed.

Lemma lower_idem (c : ascii) : Storage.lower (Storage.lower c) = Storage.lower c.
Proof.
  destruct c as [[] [] [] [] [] [] [] []]; reflexivity.
Qed.

Lemma toLowerCase_idem (s : string) :
  Storage.toLowerCase (Storage.toLowerCase s) = Storage.toLowerCase s.
Proof.
  induction s as [|c s IH]; simpl; [done|]. by rewrite lower_idem, IH.
Qed.

(** [getMimeType] looks only at the text after the last dot, whatever its
    case; a name without a dot is taken as an extension as a whole. *)
Theorem mime_from_last_extension (base ext : string) :
  Storage.lacks "." ext = true ->
  Storage.getMimeType (base ++ String "." ext)
    = Storage.mime_of (Storage.toLowerCase ext)
  /\ Storage.getMimeType ext = Storage.mime_of (Storage.toLowerCase ext).
Proof.
  intros He. unfold Storage.getMimeType, Storage.extension_of.
  destruct (split_after "." base ext) as (hd & tl & ->).
  rewrite (split_lacks _ _ He). split; [|done].
  change (hd :: tl ++ [ext])%list with ((hd :: tl) ++ [ext])%list.
  by rewrite (last_after (hd :: tl) [] ext "").
Qed.

(** The type [getMimeType] returns is a text, except for the extensions
    [constructor] and [__proto__], for which it is the member of
    [Object.prototype] of that name; no other inherited member is reached,
    because the extension is lower-cased first. *)
Theorem mime_inherited_members (name : string) :
  (exists fileName, Storage.getMimeType fileName = Storage.Inherited name)
  <-> name = "constructor" \/ name = "__proto__".
Proof.
  split.
  - intros [fileName H]. unfold Storage.getMimeType, Storage.extension_of in H.
    pose proof (toLowerCase_idem (List.last (Str.split "." fileName) "")) as Hi.
    revert H Hi. generalize (Storage.toLowerCase
                               (List.last (Str.split "." fileName) "")).
    intros e H Hi. unfold Storage.mime_of in H.
    destruct (Client.lookup_prefix e Storage.mimeTypes); [done|].
    destruct (existsb (String.eqb e) Storage.Object_prototype) eqn:Hx;
      [|done].
    injection H as <-. unfold Storage.Object_prototype in Hx.
    cbn [existsb] in Hx.
    repeat (apply orb_true_iff in Hx as [Hx|Hx]);
      try (apply String.eqb_eq in Hx; subst e);
      try (by left); try (by right); try done.
  - intros [->| ->].
    + by exists "model.constructor".
    + by exists "model.__proto__".
Qed.

End StorageFacts.

Lemma mime_from_last_extension_witness :
  Storage.getMimeType "weights.tar.GZ" = Storage.Text "application/gzip".
Proof.
  exact (proj1 (mime_from_last_extension "weights.tar" "GZ" eq_refl)).
Defined.

Lemma purchase_announced_once_witness :
  (Payments.purchaseModel
     (Sample.up (VObj [("data", VObj [("id", VStr "p1")])]))
     (Client.on (Sample.client "k") PURCHASE_COMPLETED (Sample.quiet 1))
     [("modelId", VStr "m1"); ("method", VObj [("type", VStr "card")])]).2
  = Ok (VObj [("id", VStr "p1")]).
Proof.
  exact (f_equal snd
    (purchase_announced_once
       (Sample.up (VObj [("data", VObj [("id", VStr "p1")])]))
       (Client.on (Sample.client "k") PURCHASE_COMPLETED (Sample.quiet 1))
       [("modelId", VStr "m1"); ("method", VObj [("type", VStr "card")])]
       (VObj [("data", VObj [("id", VStr "p1")])])
       eq_refl eq_refl eq_refl eq_refl eq_refl ltac:(repeat constructor))).
Defined.

Lemma purchase_reported_failed_witness :
  (Payments.purchaseModel
     (Sample.up (VObj [("data", VObj [("id", VStr "p1")])]))
     (Client.on (Sample.client "k") PURCHASE_COMPLETED (Sample.faulty 1))
     [("modelId", VStr "m1"); ("method", VObj [("type", VStr "card")])]).2
  = Throw (Err {| message := "Payment failed";
                  code := VStr "PAYMENT_ERROR";
                  details := VStr "listener failed" |}).
Proof.
  exact (f_equal snd
    (purchase_reported_failed
       (Sample.up (VObj [("data", VObj [("id", VStr "p1")])]))
       (Client.on (Sample.client "k") PURCHASE_COMPLETED (Sample.faulty 1))
       [("modelId", VStr "m1"); ("method", VObj [("type", VStr "card")])]
       (VObj [("data", VObj [("id", VStr "p1")])])
       (VStr "listener failed") (Sample.faulty 1) []
       eq_refl eq_refl eq_refl eq_refl eq_refl eq_refl eq_refl)).
Defined.

Lemma plans_default_to_empty_witness :
  (Payments.getSubscriptionPlans (Sample.up (VObj [])) (Sample.client "k")).2
  = Ok (VArr []).
Proof.
  exact (proj2 (proj2 (plans_default_to_empty (Sample.up (VObj []))
                         (Sample.client "k")))
           (VObj []) eq_refl eq_refl eq_refl).
Defined.

Lemma deleteModel_defaults_to_true_witness :
  (Models.deleteModel (Sample.up (VObj [("success", VBool false)]))
     (Sample.client "k") "m1").2 = Ok (VBool false)
  /\ (Models.deleteModel (Sample.up (VObj [])) (Sample.client "k") "m1").2
     = Ok (VBool true).
Proof.
  split.
  - exact (proj1 (deleteModel_defaults_to_true
                    (Sample.up (VObj [("success", VBool false)]))
                    (Sample.client "k") "m1" [("success", VBool false)]
                    eq_refl eq_refl)).
  - exact (proj1 (deleteModel_defaults_to_true (Sample.up (VObj []))
                    (Sample.client "k") "m1" [] eq_refl eq_refl)).
Defined.

Lemma model_url_is_unchecked_witness :
  (Models.getModelDownloadUrl (Sample.up (VObj [])) (Sample.client "k")
     "m1").2
  = Throw (Err {| message := "Failed to get download URL for model with ID m1";
                  code := VStr "MODEL_URL_GENERATION_FAILED";
                  details := Client.reify TypeError |})
  /\ (Models.getModelDownloadUrl (Sample.up (VObj [("data", VObj [])]))
        (Sample.client "k") "m1").2 = Ok VUndefined.
Proof.
  split.
  - exact (proj1 (model_url_is_unchecked (Sample.up (VObj []))
                    (Sample.client "k") "m1" (VObj [])
                    eq_refl eq_refl eq_refl) eq_refl).
  - exact (proj2 (model_url_is_unchecked
                    (Sample.up (VObj [("data", VObj [])]))
                    (Sample.client "k") "m1" (VObj [("data", VObj [])])
                    eq_refl eq_refl eq_refl) eq_refl).
Defined.

Lemma storage_url_is_checked_witness :
  (Storage.getDownloadUrl
     (Sample.up (VObj [("data",
                        VObj [("url", VStr "https://files.example/a.bin")])]))
     (fun s => s) (Sample.client "k") "a.bin" None).2
  = Ok (VStr "https://files.example/a.bin").
Proof.
  exact (f_equal snd
    (proj1 (storage_url_is_checked
              (Sample.up (VObj [("data",
                 VObj [("url", VStr "https://files.example/a.bin")])]))
              (fun s => s) (Sample.client "k") "a.bin" None)
       (VObj [("data", VObj [("url", VStr "https://files.example/a.bin")])])
       eq_refl eq_refl eq_refl)).
Defined.
